(** * IdleMover: a shallow embedding of [modules/IdleMover/main.py]

    The module moves clients of a TeamSpeak 3 server that have been idle for
    longer than [idle_time_seconds] to the channel [channel_name] and moves
    them back once they are active again.  The embedding follows the Python
    text method by method:

    - a parsed answer of the server is a [dict] from [str] to [str], here a
      finite map; [int(...)], [str(...)] and the true division of [int]s
      are functions on these values that fail where Python raises;
    - the fields of the [IdleMover] object, the records of its logger and
      the history of its [clientmove] calls make up a state; every method is
      a function from the state before to a result, or a raised exception,
      and the state after, written in a monad with [try ... except];
    - the query connection is an interface: each call takes the connection
      to a new state and returns an answer or raises, and nothing else is
      assumed of it;
    - a local variable that a statement may leave unassigned is an
      [option], and reading it in that state raises [UnboundLocalError].

    The first part holds the definitions, the second the properties. *)

From Stdlib Require Import ZArith QArith Lia Ascii String SpecFloat.
From stdpp Require Import base option gmap strings list pretty.

Local Open Scope string_scope.
Local Open Scope list_scope.
Local Open Scope Z_scope.

(** ** Python values *)

(** A parsed query answer is a [dict] from [str] to [str]. *)
Abbreviation dict := (gmap string string).

(** The values that reach [int(...)], [in] and [==] in this module. *)
Inductive pyval :=
| PNone
| PInt (z : Z)
| PStr (s : string).

#[global] Instance pyval_eq_dec : EqDecision pyval.
Proof. solve_decision. Defined.

(** [d.get(k)] *)
Definition get (d : dict) (k : string) : pyval :=
  match d !! k with Some s => PStr s | None => PNone end.

(** [d.get(k, default)] *)
Definition get_default (d : dict) (k : string) (default : pyval) : pyval :=
  match d !! k with Some s => PStr s | None => default end.

(** [k in d.keys()] for an arbitrary value [k]: the keys are all [str]. *)
Definition in_keys (k : pyval) (d : dict) : bool :=
  match k with PStr s => bool_decide (is_Some (d !! s)) | _ => false end.

(** [d.get(k)] for an arbitrary value [k]. *)
Definition get_val (d : dict) (k : pyval) : pyval :=
  match k with PStr s => get d s | _ => PNone end.

(** The exceptions that occur in the module. [TS3QueryException] is a
    subclass of [TS3Exception]; [TS3Exception_other] stands for the members of
    that hierarchy which are not query errors. *)
Inductive exn :=
| TS3QueryException (id : Z) (message : string)
| TS3Exception_other
| KeyError (key : string)
| IndexError
| ValueError
| TypeError
| OverflowError
| AttributeError
| UnboundLocalError (name : string)
| OtherError (name : string).

#[global] Instance exn_eq_dec : EqDecision exn.
Proof. solve_decision. Defined.

(** [isinstance(e, TS3Exception)] and [isinstance(e, TS3QueryException)],
    the tests of the [except] clauses. *)
Definition is_TS3Exception (e : exn) : bool :=
  match e with TS3QueryException _ _ | TS3Exception_other => true | _ => false end.

Definition is_TS3QueryException (e : exn) : bool :=
  match e with TS3QueryException _ _ => true | _ => false end.

Definition is_AttributeError (e : exn) : bool :=
  match e with AttributeError => true | _ => false end.

Definition is_KeyError (e : exn) : bool :=
  match e with KeyError _ => true | _ => false end.

Inductive res (A : Type) :=
| Ok (a : A)
| Raise (e : exn).
Arguments Ok {A} a.
Arguments Raise {A} e.

#[global] Instance res_eq_dec {A} `{EqDecision A} : EqDecision (res A).
Proof. solve_decision. Defined.

(** ** [int(...)] *)

(** The numerals that [int] accepts in a [str] of ASCII characters: blanks
    around an optional sign and decimal digits, which single underscores may
    group.  (Digits outside ASCII and the limit that recent interpreters put
    on the length of a numeral are left out: the query protocol sends short
    ASCII numerals.) *)
Module PyInt.

(** The blanks that [int] skips around the numeral of an ASCII [str]: tab,
    line feed, vertical tab, form feed, carriage return and the space.  (The
    separators 28 to 31, for which [str.isspace] holds as well, are not
    skipped: [int] raises [ValueError] on them.) *)
Definition is_space (a : ascii) : bool :=
  let n := Z.of_nat (nat_of_ascii a) in
  ((9 <=? n) && (n <=? 13)) || (n =? 32).

Definition digit (a : ascii) : option Z :=
  let n := Z.of_nat (nat_of_ascii a) in
  if (48 <=? n) && (n <=? 57) then Some (n - 48) else None.

Fixpoint lstrip (l : list ascii) : list ascii :=
  match l with
  | a :: l' => if is_space a then lstrip l' else l
  | [] => []
  end.

Definition strip (l : list ascii) : list ascii :=
  rev (lstrip (rev (lstrip l))).

(** Decimal digits; a single underscore may separate two digits. *)
Fixpoint digits (acc : Z) (after_digit : bool) (l : list ascii) : option Z :=
  match l with
  | [] => if after_digit then Some acc else None
  | a :: l' =>
      match digit a with
      | Some d => digits (10 * acc + d) true l'
      | None =>
          if Ascii.eqb a "_" && after_digit then digits acc false l' else None
      end
  end.

(** [int(s)] for a [str]: blanks around an optionally signed numeral. *)
Definition of_string (s : string) : option Z :=
  match strip (list_ascii_of_string s) with
  | "-"%char :: l => Z.opp <$> digits 0 false l
  | "+"%char :: l => digits 0 false l
  | l => digits 0 false l
  end.

End PyInt.

(** [int(v)]: [TypeError] on [None], [ValueError] on a malformed numeral. *)
Definition py_int (v : pyval) : res Z :=
  match v with
  | PNone => Raise TypeError
  | PInt z => Ok z
  | PStr s => match PyInt.of_string s with Some z => Ok z | None => Raise ValueError end
  end.

(** [str(n)] for an [int]. *)
Definition py_str (n : Z) : string := pretty n.

(** [s.split(',')] *)
Fixpoint split_comma_aux (cur : string) (l : list ascii) : list string :=
  match l with
  | [] => [String.rev cur]
  | a :: l' =>
      if Ascii.eqb a "," then String.rev cur :: split_comma_aux "" l'
      else split_comma_aux (String a cur) l'
  end.

Definition split_comma (s : string) : list string :=
  split_comma_aux "" (list_ascii_of_string s).

(** ** [float] and the quotient [int / int] *)

(** A finite [float] is a binary64 number: [m * 2^(e - 1074)] with
    [|m| < 2^53] and [0 <= e], below [2^1024] in magnitude.  The model keeps
    its exact rational value.  The true division of two [int]s yields the
    binary64 number nearest to the exact quotient, ties going to the even
    significand, and raises [OverflowError] when that is out of range. *)
Module PyFloat.

(** The least positive binary64 number is [2^-1074]; [unit] is its
    inverse, so that every finite binary64 number is [m * 2^e / unit]. *)
Definition unit : positive := (2 ^ 1074)%positive.

(** [n / d] rounded to the nearest integer, ties to even. *)
Definition round_half_even (n d : Z) : Z :=
  let q := n / d in
  let r := n mod d in
  match 2 * r ?= d with
  | Lt => q
  | Gt => q + 1
  | Eq => if Z.even q then q else q + 1
  end.

(** For [x = a / b > 0], the exponent [e] with which the nearest binary64
    number is [m * 2^e / unit]: the significand [m] has 53 bits unless the
    number is subnormal, where [e] is 0. *)
Definition lsb_exponent (a b : Z) : Z :=
  Z.max (Z.log2 ((a * Zpos unit) / b) - 52) 0.

(** The pair [(m, e)] of the binary64 number nearest to [a / b]. *)
Definition nearest (a b : Z) : Z * Z :=
  let e := lsb_exponent a b in
  (round_half_even (a * Zpos unit) (b * 2 ^ e), e).

Definition value (me : Z * Z) : Q :=
  Qmake (fst me * 2 ^ snd me) unit.

(** [a / b] for positive [int]s, [None] on overflow. *)
Definition div_pos (a b : Z) : option Q :=
  let me := nearest a b in
  if 2 ^ 1024 * Zpos unit <=? fst me * 2 ^ snd me then None else Some (value me).

(** [a / b] for a positive divisor [b]. *)
Definition div (a b : Z) : option Q :=
  match a with
  | 0 => Some (0 # 1)%Q
  | Zpos _ => div_pos a b
  | Zneg _ => Qopp <$> div_pos (- a) b
  end.

(** The rational [q] is the value of a finite binary64 number. *)
Definition is_double (q : Q) : Prop :=
  ∃ m e : Z, Z.abs m < 2 ^ 53 ∧ 0 <= e ∧ Z.abs m * 2 ^ e < 2 ^ 1024 * Zpos unit
             ∧ (q == value (m, e))%Q.

End PyFloat.

(** The same quotient by the IEEE 754 division of the Standard Library,
    applied to the two [int]s converted to binary64: where both conversions
    are exact (below [2^53] in magnitude) it is the correctly rounded
    quotient as well, and the examples below compare the two. *)
Module Binary64.

Definition of_int (a : Z) : spec_float := binary_normalize 53 1024 a 0 false.

Definition to_Q (x : spec_float) : option Q :=
  match x with
  | S754_zero _ => Some (0 # 1)%Q
  | S754_finite s m e =>
      Some (inject_Z (if s then Zneg m else Zpos m) * Qpower (2 # 1) e)%Q
  | _ => None
  end.

Definition div (a b : Z) : option Q := to_Q (SFdiv 53 1024 (of_int a) (of_int b)).

(** Equality of the two quotients as rationals. *)
Definition agrees (a b : Z) : bool :=
  match div a b, PyFloat.div a b with
  | Some x, Some y => Qeq_bool x y
  | None, None => true
  | _, _ => false
  end.

End Binary64.

(** [int(v) / 1000] *)
Definition truediv_1000 (n : Z) : res Q :=
  match PyFloat.div n 1000 with
  | Some q => Ok q
  | None => Raise OverflowError
  end.

(** ** Configuration, log and connection *)

(** The configurable module-level options, as [setup] leaves them.
    [fallback_channel] is the option that [setup] stores in the global
    [fallback_action]; [idle_time_seconds] is the value of
    [float(idle_time_seconds)], a finite [float]. *)
Record config := {
  dry_run : bool;
  servergroups_to_exclude : option string;
  enable_auto_move_back : bool;
  resp_channel_settings : bool;
  fallback_channel : option string;
  idle_time_seconds : Q;
  channel_name : string
}.

(** The methods of [IdleMover.logger] that the module calls. *)
Inductive log_level := debug | info | warning | error | exception.

#[global] Instance log_level_eq_dec : EqDecision log_level.
Proof. solve_decision. Defined.

(** A call of the logger: the method and the text of the message up to its
    first interpolated value. *)
Record log_record := { lvl : log_level; msg : string }.

#[global] Instance log_record_eq_dec : EqDecision log_record.
Proof. solve_decision. Defined.

(** A call of [ts3conn.clientmove(cid, clid)] and whether it returned. *)
Record move_call := { to_cid : pyval; moved_clid : Z; returned : bool }.

#[global] Instance move_call_eq_dec : EqDecision move_call.
Proof. solve_decision. Defined.

(** The operations of the query connection that the module uses.  Every call
    takes the connection (the server behind it included) to a new state and
    either returns the parsed answer or raises. *)
Class TS3Connection (Srv : Type) := {
  clientlist : list string → Srv → res (list dict) * Srv;
  servergrouplist : Srv → res (list dict) * Srv;
  (** [_parse_resp_to_list_of_dicts(_send("servergroupsbyclientid", [arg]))] *)
  servergroupsbyclientid : string → Srv → res (list dict) * Srv;
  (** [_parse_resp_to_dict(_send("channelinfo", [arg]))] *)
  channelinfo : string → Srv → res dict * Srv;
  channelfind : string → Srv → res (list dict) * Srv;
  channellist : Srv → res (list dict) * Srv;
  clientmove : pyval → Z → Srv → res unit * Srv
}.

(** ** The object and its monad *)

(** The fields of an [IdleMover], the records written by its logger, and the
    history of the [clientmove] calls it made (kept for the statements about
    moves; the program does not read it). *)
Record IdleMover {Srv : Type} := {
  ts3conn : Srv;
  afk_channel : string;
  client_channels : gmap string string;
  servergroup_ids_to_ignore : list pyval;
  idle_list : option (list dict);
  logged : list log_record;
  moves : list move_call
}.
Arguments IdleMover Srv : clear implicits.

Section Monad.
Context {Srv : Type}.

(** A method body: from the object before to a result, or a raised
    exception, and the object after. *)
Definition M (A : Type) : Type := IdleMover Srv → res A * IdleMover Srv.

Definition ret {A} (a : A) : M A := λ σ, (Ok a, σ).

Definition raise {A} (e : exn) : M A := λ σ, (Raise e, σ).

Definition bind {A B} (m : M A) (f : A → M B) : M B :=
  λ σ, match m σ with
       | (Ok a, σ') => f a σ'
       | (Raise e, σ') => (Raise e, σ')
       end.

(** [try: m  except ...:] where [handler e] is the body of the first
    clause that matches [e], if one does. *)
Definition try_except {A} (m : M A) (handler : exn → option (M A)) : M A :=
  λ σ, match m σ with
       | (Ok a, σ') => (Ok a, σ')
       | (Raise e, σ') =>
           match handler e with
           | Some h => h σ'
           | None => (Raise e, σ')
           end
       end.

(** The value of an expression that may raise. *)
Definition eval {A} (r : res A) : M A := λ σ, (r, σ).

(** A call on [self.ts3conn]. *)
Definition call {A} (op : Srv → res A * Srv) : M A :=
  λ σ, let '(r, s) := op (ts3conn σ) in
       (r, {| ts3conn := s; afk_channel := afk_channel σ;
              client_channels := client_channels σ;
              servergroup_ids_to_ignore := servergroup_ids_to_ignore σ;
              idle_list := idle_list σ; logged := logged σ;
              moves := moves σ |}).

Definition log (l : log_level) (text : string) : M unit :=
  λ σ, (Ok tt, {| ts3conn := ts3conn σ; afk_channel := afk_channel σ;
                  client_channels := client_channels σ;
                  servergroup_ids_to_ignore := servergroup_ids_to_ignore σ;
                  idle_list := idle_list σ;
                  logged := logged σ ++ [{| lvl := l; msg := text |}];
                  moves := moves σ |}).

Definition set_client_channels (f : gmap string string → gmap string string) : M unit :=
  λ σ, (Ok tt, {| ts3conn := ts3conn σ; afk_channel := afk_channel σ;
                  client_channels := f (client_channels σ);
                  servergroup_ids_to_ignore := servergroup_ids_to_ignore σ;
                  idle_list := idle_list σ; logged := logged σ;
                  moves := moves σ |}).

Definition set_servergroup_ids_to_ignore (f : list pyval → list pyval) : M unit :=
  λ σ, (Ok tt, {| ts3conn := ts3conn σ; afk_channel := afk_channel σ;
                  client_channels := client_channels σ;
                  servergroup_ids_to_ignore := f (servergroup_ids_to_ignore σ);
                  idle_list := idle_list σ; logged := logged σ;
                  moves := moves σ |}).

Definition set_idle_list (f : option (list dict) → option (list dict)) : M unit :=
  λ σ, (Ok tt, {| ts3conn := ts3conn σ; afk_channel := afk_channel σ;
                  client_channels := client_channels σ;
                  servergroup_ids_to_ignore := servergroup_ids_to_ignore σ;
                  idle_list := f (idle_list σ); logged := logged σ;
                  moves := moves σ |}).

Definition record_move (c : move_call) : M unit :=
  λ σ, (Ok tt, {| ts3conn := ts3conn σ; afk_channel := afk_channel σ;
                  client_channels := client_channels σ;
                  servergroup_ids_to_ignore := servergroup_ids_to_ignore σ;
                  idle_list := idle_list σ; logged := logged σ;
                  moves := moves σ ++ [c] |}).

(** Reading a field of [self]. *)
Definition read {A} (field : IdleMover Srv → A) : M A := λ σ, (Ok (field σ), σ).

(** [for x in l: acc = body(acc, x)], where [acc] holds the local
    variables that the loop carries from one round to the next. *)
Fixpoint for_in {A B} (l : list A) (acc : B) (body : B → A → M B) : M B :=
  match l with
  | [] => ret acc
  | x :: l' => bind (body acc x) (λ acc', for_in l' acc' body)
  end.

(** [for x in l: body(x)] *)
Definition for_each {A} (l : list A) (body : A → M unit) : M unit :=
  for_in l tt (λ _ x, body x).

End Monad.

#[global] Instance M_ret {Srv} : MRet (@M Srv) := @ret Srv.
#[global] Instance M_bind {Srv} : MBind (@M Srv) := λ A B f m, bind m f.

(** ** The methods of [IdleMover] *)

(** [str(v)], as an f-string interpolates it. *)
Definition py_format (v : pyval) : string :=
  match v with
  | PNone => "None"
  | PInt z => py_str z
  | PStr s => s
  end.

(** [d.get(k, default)] for a [str] default: the result is a [str]. *)
Definition get_str (d : dict) (k default : string) : string :=
  match d !! k with Some s => s | None => default end.

(** Lines 332-335 of [move_all_back]: the first channel of the listing whose
    [cid] is [channel_id]; [channel['cid']] and [int] may raise on the way. *)
Fixpoint find_channel (channel_list : list dict) (channel_id : Z) : res (option dict) :=
  match channel_list with
  | [] => Ok None
  | channel :: rest =>
      match channel !! "cid" with
      | None => Raise (KeyError "cid")
      | Some s =>
          match py_int (PStr s) with
          | Raise e => Raise e
          | Ok n => if n =? channel_id then Ok (Some channel) else find_channel rest channel_id
          end
      end
  end.

Section Methods.
Context {Srv : Type} `{!TS3Connection Srv}.
Variable cfg : config.

Local Abbreviation M := (@M Srv).

(** Reading a local variable that an earlier statement may have left
    unassigned. *)
Definition local {A} (name : string) (v : option A) : M A :=
  match v with
  | Some a => mret a
  | None => raise (UnboundLocalError name)
  end.

(** [self.ts3conn.clientmove(cid, clid)] *)
Definition do_clientmove (cid : pyval) (clid : Z) : M unit :=
  λ σ, let '(r, σ') := call (clientmove cid clid) σ in
       let ok := match r with Ok _ => true | Raise _ => false end in
       (r, snd (record_move {| to_cid := cid; moved_clid := clid; returned := ok |} σ')).

(** [del self.client_channels[k]] *)
Definition del_client_channels (k : string) : M unit :=
  store ← read client_channels;
  if bool_decide (is_Some (store !! k)) then set_client_channels (delete k)
  else raise (KeyError k).

Definition update_client_list : M unit :=
  try_except
    (set_idle_list (λ _, Some []) ;;
     clients ← call (clientlist ["times"]);
     for_each clients (λ client : dict,
       client_type ← eval (py_int (get client "client_type"));
       if client_type =? 1
       then log debug "update_client_list ignoring ServerQuery client: "
       else set_idle_list (fmap (λ l : list dict, l ++ [client]))) ;;
     log debug "update_idle_list: ")
    (λ e, if is_TS3Exception e
          then Some (log exception "Error getting away list!" ;;
                     set_idle_list (λ _, Some []))
          else None).

Definition update_servergroup_ids_list : M unit :=
  set_servergroup_ids_to_ignore (λ _, []) ;;
  match servergroups_to_exclude cfg with
  | None => log debug "No servergroups to exclude defined. Nothing todo."
  | Some groups =>
      servergroup_list ←
        try_except
          (l ← call servergrouplist; mret (Some l))
          (λ e, if is_TS3QueryException e
                then Some (log exception "Failed to get the list of available servergroups." ;;
                           mret None)
                else None);
      set_servergroup_ids_to_ignore (λ _, []) ;;
      l ← local "servergroup_list" servergroup_list;
      for_each l (λ servergroup : dict,
        if bool_decide (get servergroup "name" ∈ PStr <$> split_comma groups)
        then set_servergroup_ids_to_ignore (λ ids : list pyval, ids ++ [get servergroup "sgid"])
        else mret tt)
  end.

Definition get_servergroups_by_client (cldbid : pyval) : M (list pyval) :=
  client_servergroups ←
    try_except
      (l ← call (servergroupsbyclientid ("cldbid=" +:+ py_format cldbid)); mret (Some l))
      (λ e, if is_TS3QueryException e
            then Some (log exception "Failed to get the list of assigned servergroups for the client cldbid=" ;;
                       mret None)
            else None);
  match client_servergroups with
  | None => mret []
  | Some l =>
      log debug "client_database_id=" ;;
      mret ((λ servergroup, get servergroup "sgid") <$> l)
  end.

(** Lines 158-167 of [get_idle_list]. *)
Definition client_is_in_group (client : dict) : M bool :=
  match servergroups_to_exclude cfg with
  | None => mret false
  | Some _ =>
      ids ← get_servergroups_by_client (get client "client_database_id");
      ignore ← read servergroup_ids_to_ignore;
      if existsb (λ id, bool_decide (id ∈ ignore)) ids
      then log debug "The client is in the servergroup sgid=" ;; mret true
      else mret false
  end.

(** One round of the loop of [get_idle_list]. *)
Definition get_idle_list_body (client_idle_list : list dict) (client : dict)
  : M (list dict) :=
  log debug "get_idle_list checking client: " ;;
  if negb (in_keys (PStr "cid") client) then
    log error "get_idle_list client without cid: " ;; mret client_idle_list
  else if bool_decide (get client "client_type" = PStr "1") then
    log debug "Ignoring ServerQuery client: " ;; mret client_idle_list
  else
    in_group ← client_is_in_group client;
    if in_group : bool then mret client_idle_list
    else if negb (in_keys (PStr "client_idle_time") client) then
      log error "get_idle_list client without client_idle_time: " ;; mret client_idle_list
    else
      cid ← eval (py_int (get_default client "cid" (PStr "-1")));
      afk ← read afk_channel;
      afk_cid ← eval (py_int (PStr afk));
      if cid =? afk_cid then
        log debug "get_idle_list client is already in the afk_channel: " ;;
        mret client_idle_list
      else
        idle ← eval (py_int (get client "client_idle_time"));
        seconds ← eval (truediv_1000 idle);
        if Qle_bool seconds (idle_time_seconds cfg) then
          log debug "get_idle_list client is less or equal then " ;;
          mret client_idle_list
        else
          log debug "get_idle_list adding client to list: " ;;
          mret (client_idle_list ++ [client]).

Definition get_idle_list : M (list dict) :=
  clients ← read idle_list;
  match clients with
  | Some clients =>
      log debug "get_idle_list current awaylist: " ;;
      client_idle_list ← for_in clients [] get_idle_list_body;
      log debug "get_idle_list updated awaylist: " ;;
      mret client_idle_list
  | None =>
      log debug "get_idle_list idle_list is None!" ;; mret []
  end.

(** One round of the loop of [get_back_list]. *)
Definition get_back_list_body (client_back_list : list dict) (client : dict)
  : M (list dict) :=
  log debug "get_back_list checking client: " ;;
  if negb (in_keys (PStr "cid") client) then
    log error "get_back_list client without cid: " ;; mret client_back_list
  else if negb (in_keys (PStr "client_idle_time") client) then
    log error "get_back_list client without client_idle_time: " ;; mret client_back_list
  else
    cid ← eval (py_int (get_default client "cid" (PStr "-1")));
    afk ← read afk_channel;
    afk_cid ← eval (py_int (PStr afk));
    if negb (cid =? afk_cid) then
      log debug "get_back_list client is not in the afk_channel anymore: " ;;
      mret client_back_list
    else
      idle ← eval (py_int (get client "client_idle_time"));
      seconds ← eval (truediv_1000 idle);
      if negb (Qle_bool seconds (idle_time_seconds cfg)) then
        log debug "get_back_list client is greater then " ;;
        mret client_back_list
      else
        log debug "get_back_list adding client to list: " ;;
        mret (client_back_list ++ [client]).

Definition get_back_list : M (list dict) :=
  clients ← read idle_list;
  match clients with
  | Some clients =>
      client_back_list ← for_in clients [] get_back_list_body;
      log debug "get_back_list updated client list: " ;;
      mret client_back_list
  | None =>
      log debug "get_back_list idle_list is None!" ;; mret []
  end.

Definition get_channel_by_name (name : string) : M string :=
  try_except
    (found ← call (channelfind name);
     match found with
     | [] => raise IndexError
     | channel :: _ => mret (get_str channel "cid" "-1")
     end)
    (λ e, if is_TS3Exception e
          then Some (log exception "Error getting afk channel" ;; raise e)
          else None).

(** One round of the loop of [move_to_afk]. *)
Definition move_to_afk_body (client : dict) : M unit :=
  (if dry_run cfg then
     log info "I would have moved this client: "
   else
     log info "Moving somebody to afk!" ;;
     log debug "Client: " ;;
     try_except
       (afk ← read afk_channel;
        clid ← eval (py_int (get_default client "clid" (PStr "-1")));
        do_clientmove (PStr afk) clid ;;
        set_client_channels
          (insert (get_str client "clid" "-1") (get_str client "cid" "0")))
       (λ e, if is_TS3Exception e
             then Some (log exception "Error moving client! Clid=")
             else None)) ;;
  log debug "Moved List after move: ".

Definition move_to_afk : M unit :=
  idle_list ← get_idle_list;
  log debug "Moving clients to afk!" ;;
  for_each idle_list move_to_afk_body.

Definition move_all_afk : M unit :=
  try_except move_to_afk
    (λ e, if is_AttributeError e
          then Some (log exception "Connection error!")
          else None).

Definition fallback_action (client_id : Z) : M unit :=
  match fallback_channel cfg with
  | None => mret tt
  | Some name =>
      if bool_decide (name = "None") then mret tt
      else
        try_except
          (channel ← get_channel_by_name name;
           do_clientmove (PStr channel) client_id ;;
           del_client_channels (py_str client_id))
          (λ e, if is_KeyError e
                then Some (log error "Error moving client! clid=")
                else if is_TS3Exception e
                then Some (log exception "Error moving client! clid=")
                else None)
  end.

(** Lines 337-346 of [move_all_back]: whether the channel settings forbid
    the move back, in which case the fall-back action has been taken. *)
Definition channel_forbids (channel_info channel_details : option dict)
    (client_id : Z) : M bool :=
  match (if resp_channel_settings cfg then channel_details else None) with
  | None => mret false
  | Some details =>
      info ← local "channel_info" channel_info;
      maxclients ← eval (py_int (get info "channel_maxclients"));
      full ← (if maxclients =? -1 then mret false
              else total ← eval (py_int (get details "total_clients"));
                   mret (maxclients <=? total));
      if full : bool then
        log warning "Failed to move back the following client as the channel has already the maximum of clients: " ;;
        fallback_action client_id ;;
        mret true
      else
        password ← eval (py_int (get info "channel_flag_password"));
        if negb (password =? 0) then
          log warning "Failed to move back the following client as the channel has a password: " ;;
          fallback_action client_id ;;
          mret true
        else mret false
  end.

(** Lines 348-365 of [move_all_back]. *)
Definition move_back (channel_id client_id : Z) : M unit :=
  try_except
    (do_clientmove (PInt channel_id) client_id ;;
     del_client_channels (py_str client_id))
    (λ e, match e with
          | TS3QueryException id _ =>
              Some ((if id =? 768
                     then log error "Failed to move back the following client as the old channel does not exist anymore: "
                     else mret tt) ;;
                    (if (id =? 777) || (id =? 778)
                     then log error "Failed to move back the following client as the old channel has already the maximum of clients: "
                     else mret tt) ;;
                    (if id =? 781
                     then log error "Failed to move back the following client as the old channel has an unknown password: "
                     else log exception "Failed to move back the following client: ") ;;
                    fallback_action client_id)
          | _ => None
          end).

(** Lines 331-365 of [move_all_back]: look the origin up in the listing
    of this pass, apply the channel settings, move the client back. *)
Definition move_back_checked (channel_list : list dict)
    (channel_info : option dict) (channel_id client_id : Z) : M unit :=
  channel_details ← eval (find_channel channel_list channel_id);
  forbidden ← channel_forbids channel_info channel_details client_id;
  if forbidden : bool then mret tt else move_back channel_id client_id.

(** One round of the loop of [move_all_back].  The local variable
    [channel_info] keeps its value from one round to the next; [None] is a
    variable that no round has assigned yet. *)
Definition move_all_back_body (channel_list : list dict)
    (channel_info : option dict) (client : dict) : M (option dict) :=
  store ← read client_channels;
  if negb (in_keys (get_default client "clid" (PInt (-1))) store) then
    mret channel_info
  else
    log info "Moving a client back!" ;;
    log debug "Client: " ;;
    log debug "Saved channel list keys:" ;;
    store ← read client_channels;
    channel_id ← eval (py_int (get_val store (get_default client "clid" (PInt (-1)))));
    client_id ← eval (py_int (get_default client "clid" (PStr "-1")));
    queried ←
      try_except
        (info ← call (channelinfo ("cid=" +:+ py_str channel_id));
         mret (Some (Some info)))
        (λ e, match e with
              | TS3QueryException id _ =>
                  Some (if id =? 768 then
                          log error "Failed to get channelinfo as the channel does not exist anymore: " ;;
                          mret None
                        else mret (Some channel_info))
              | _ => None
              end);
    match queried with
    | None => mret channel_info
    | Some channel_info =>
        move_back_checked channel_list channel_info channel_id client_id ;;
        mret channel_info
    end.

Definition move_all_back : M unit :=
  back_list ← get_back_list;
  log debug "Moving clients back" ;;
  log debug "Backlist is: %s" ;;
  log debug "Saved channel list keys are: %s\n" ;;
  channel_list ←
    try_except
      (l ← call channellist; mret (Some l))
      (λ e, if is_TS3QueryException e
            then Some (log error "Failed to get the current channellist: " ;; mret None)
            else None);
  match channel_list with
  | None => mret tt
  | Some channel_list =>
      for_in back_list None (move_all_back_body channel_list) ;; mret tt
  end.

(** One round of the loop of [auto_move_all], after the wait timed out. *)
Definition tick : M unit :=
  log debug "Afkmover running!" ;;
  try_except
    (update_client_list ;;
     (if enable_auto_move_back cfg then move_all_back else mret tt) ;;
     move_all_afk)
    (λ _, Some (log error "Uncaught exception:" ;;
                log error "" ;;
                log error "" ;;
                log error "Saved channel list keys are: %s\n")).

(** [auto_move_all] when the wait on the stop event times out [timeouts]
    times before the event is set. *)
Fixpoint auto_move_all (timeouts : nat) : M unit :=
  match timeouts with
  | S n => tick ;; auto_move_all n
  | O => log warning "AFKMover stopped!" ;; set_client_channels (λ _, ∅)
  end.

(** [run], the body of the thread. *)
Definition run (timeouts : nat) : M unit :=
  log info "AFKMove Thread started" ;;
  try_except (auto_move_all timeouts)
    (λ _, Some (log exception "Exception occured in run:")).

(** [IdleMover.__init__], run on an object that has its connection and
    nothing else. *)
Definition blank (conn : Srv) (records : list log_record) (history : list move_call)
  : IdleMover Srv :=
  {| ts3conn := conn; afk_channel := ""; client_channels := ∅;
     servergroup_ids_to_ignore := []; idle_list := None;
     logged := records; moves := history |}.

Definition set_afk_channel (channel : string) : M unit :=
  λ σ, (Ok tt, {| ts3conn := ts3conn σ; afk_channel := channel;
                  client_channels := client_channels σ;
                  servergroup_ids_to_ignore := servergroup_ids_to_ignore σ;
                  idle_list := idle_list σ; logged := logged σ;
                  moves := moves σ |}).

Definition init : M unit :=
  channel ← get_channel_by_name (channel_name cfg);
  set_afk_channel channel ;;
  set_client_channels (λ _, ∅) ;;
  update_servergroup_ids_list ;;
  set_idle_list (λ _, None).

(** The handler of [ClientLeftEvent]; [idleMover] is the module-level
    variable of that name. *)
Definition client_left (idleMover : option (IdleMover Srv)) (client_id : Z)
  : option (IdleMover Srv) :=
  match idleMover with
  | Some σ =>
      if bool_decide (is_Some (client_channels σ !! py_str client_id))
      then Some (snd (set_client_channels (delete (py_str client_id)) σ))
      else Some σ
  | None => None
  end.

End Methods.

(** ** What a method may do to the object *)

Section Effects.
Context {Srv : Type}.

(** Every run of [m] takes the object to one that [R] relates to it,
    whether [m] returns or raises. *)
Definition steps {A} (R : relation (IdleMover Srv)) (m : M A) : Prop :=
  ∀ σ, R σ (snd (m σ)).

(** The object after the logger has written [records]. *)
Definition logging (records : list log_record) (σ : IdleMover Srv) : IdleMover Srv :=
  {| ts3conn := ts3conn σ; afk_channel := afk_channel σ;
     client_channels := client_channels σ;
     servergroup_ids_to_ignore := servergroup_ids_to_ignore σ;
     idle_list := idle_list σ; logged := logged σ ++ records;
     moves := moves σ |}.

(** The object after a query has left the connection in state [s]. *)
Definition answered (s : Srv) (σ : IdleMover Srv) : IdleMover Srv :=
  {| ts3conn := s; afk_channel := afk_channel σ;
     client_channels := client_channels σ;
     servergroup_ids_to_ignore := servergroup_ids_to_ignore σ;
     idle_list := idle_list σ; logged := logged σ; moves := moves σ |}.

(** The object after the call [c] of [clientmove] has left the connection
    in state [s]. *)
Definition moved (σ : IdleMover Srv) (s : Srv) (c : move_call) : IdleMover Srv :=
  {| ts3conn := s; afk_channel := afk_channel σ;
     client_channels := client_channels σ;
     servergroup_ids_to_ignore := servergroup_ids_to_ignore σ;
     idle_list := idle_list σ; logged := logged σ;
     moves := moves σ ++ [c] |}.

(** Only the connection and the log change. *)
Definition reads (σ σ' : IdleMover Srv) : Prop :=
  afk_channel σ' = afk_channel σ ∧ client_channels σ' = client_channels σ ∧
  servergroup_ids_to_ignore σ' = servergroup_ids_to_ignore σ ∧
  idle_list σ' = idle_list σ ∧ moves σ' = moves σ.

(** The AFK channel, the entries and the history of moves stay. *)
Definition keeps (σ σ' : IdleMover Srv) : Prop :=
  afk_channel σ' = afk_channel σ ∧ client_channels σ' = client_channels σ ∧
  moves σ' = moves σ.

(** No entry of [client_channels] changes and no [clientmove] is issued. *)
Definition untouched (σ σ' : IdleMover Srv) : Prop :=
  client_channels σ' = client_channels σ ∧ moves σ' = moves σ.

(** Entries are only written, and each written entry belongs to a client
    for which a [clientmove] to the AFK channel returned meanwhile. *)
Definition only_adds (σ σ' : IdleMover Srv) : Prop :=
  afk_channel σ' = afk_channel σ ∧
  ∃ new, moves σ' = moves σ ++ new ∧
    ∀ k, client_channels σ' !! k = client_channels σ !! k
         ∨ (is_Some (client_channels σ' !! k)
            ∧ ∃ n, py_int (PStr k) = Ok n
                   ∧ {| to_cid := PStr (afk_channel σ); moved_clid := n;
                        returned := true |} ∈ new).

(** Entries are only deleted, and each deleted entry belongs to a client
    for which a [clientmove] returned meanwhile. *)
Definition only_removes (σ σ' : IdleMover Srv) : Prop :=
  afk_channel σ' = afk_channel σ ∧
  ∃ new, moves σ' = moves σ ++ new ∧
    ∀ k, client_channels σ' !! k = client_channels σ !! k
         ∨ (client_channels σ' !! k = None
            ∧ ∃ n cid, k = py_str n
                       ∧ {| to_cid := cid; moved_clid := n; returned := true |} ∈ new).

(** What one pass of the loop may do: write entries and delete entries,
    each as above. *)
Definition reconciles (σ σ' : IdleMover Srv) : Prop :=
  afk_channel σ' = afk_channel σ ∧
  ∃ new, moves σ' = moves σ ++ new ∧
    ∀ k, client_channels σ' !! k = client_channels σ !! k
         ∨ (is_Some (client_channels σ' !! k)
            ∧ ∃ n, py_int (PStr k) = Ok n
                   ∧ {| to_cid := PStr (afk_channel σ); moved_clid := n;
                        returned := true |} ∈ new)
         ∨ (client_channels σ' !! k = None
            ∧ ∃ n cid, k = py_str n
                       ∧ {| to_cid := cid; moved_clid := n; returned := true |} ∈ new).

End Effects.

(** ** The two candidate tests *)

(** The client has a channel, is no ServerQuery client and sits outside the
    AFK channel: what [get_idle_list] asks of a client besides its idle time
    and its server groups. *)
Definition movable (afk : string) (client : dict) : Prop :=
  is_Some (client !! "cid") ∧ get client "client_type" ≠ PStr "1" ∧
  ∃ cid afk_cid,
    py_int (get client "cid") = Ok cid ∧ py_int (PStr afk) = Ok afk_cid ∧
    cid ≠ afk_cid.

(** [int(client.get("client_idle_time")) / 1000 <= float(idle_time_seconds)]
    is evaluated and false. *)
Definition idle_longer (cfg : config) (client : dict) : Prop :=
  ∃ idle seconds,
    py_int (get client "client_idle_time") = Ok idle ∧
    truediv_1000 idle = Ok seconds ∧
    (idle_time_seconds cfg < seconds)%Q.

(** The conditions under which [get_idle_list] keeps a client, the
    membership in an excluded server group apart. *)
Definition idle_candidate (cfg : config) (afk : string) (client : dict) : Prop :=
  movable afk client ∧ idle_longer cfg client.

(** The conditions under which [get_back_list] keeps a client. *)
Definition back_candidate (cfg : config) (afk : string) (client : dict) : Prop :=
  ∃ cid afk_cid idle seconds,
    py_int (get client "cid") = Ok cid ∧ py_int (PStr afk) = Ok afk_cid ∧
    cid = afk_cid ∧
    py_int (get client "client_idle_time") = Ok idle ∧
    truediv_1000 idle = Ok seconds ∧
    (seconds <= idle_time_seconds cfg)%Q.

(** Every conversion that the two candidate tests apply to the client and to
    the AFK channel succeeds. *)
Definition readable (afk : string) (client : dict) : Prop :=
  is_Some (client !! "cid") → is_Some (client !! "client_idle_time") →
  ∃ cid afk_cid idle seconds,
    py_int (get client "cid") = Ok cid ∧ py_int (PStr afk) = Ok afk_cid ∧
    py_int (get client "client_idle_time") = Ok idle ∧
    truediv_1000 idle = Ok seconds.

(** A query is answered or refused with a query error. *)
Definition answered_or_refused {A} (answer : res A) : Prop :=
  match answer with
  | Ok _ => True
  | Raise e => is_TS3QueryException e = true
  end.

(** The answer to the query for the server groups of a client names no
    group of the list [ignore]; a failed query counts as no group. *)
Definition names_no_group (ignore : list pyval) (answer : res (list dict)) : Prop :=
  match answer with
  | Ok groups => ∀ g, g ∈ groups → get g "sgid" ∉ ignore
  | Raise e => is_TS3QueryException e = true
  end.

(** No group is excluded by the configuration, or the connection never names
    a group of the list [ignore] for the client. *)
Definition not_excluded {Srv} `{!TS3Connection Srv} (cfg : config)
    (ignore : list pyval) (client : dict) : Prop :=
  servergroups_to_exclude cfg = None
  ∨ ∀ srv : Srv, names_no_group ignore
      (fst (servergroupsbyclientid
              ("cldbid=" +:+ py_format (get client "client_database_id")) srv)).

(** ** A connection with fixed answers *)

Module Scenario.

(** Every query has one answer, whatever was asked before. *)
Record scripted := {
  clients : res (list dict);
  servergroups : res (list dict);
  groups_of : string → res (list dict);
  info_of : string → res dict;
  named : string → res (list dict);
  channels : res (list dict);
  move : pyval → Z → res unit
}.

#[global] Instance scripted_connection : TS3Connection scripted := {|
  clientlist _ s := (clients s, s);
  servergrouplist s := (servergroups s, s);
  servergroupsbyclientid arg s := (groups_of s arg, s);
  channelinfo arg s := (info_of s arg, s);
  channelfind name s := (named s name, s);
  channellist s := (channels s, s);
  clientmove cid clid s := (move s cid clid, s)
|}.

Definition entry (k v : string) : string * string := (k, v).

(** Client 5 sits in channel 10 and has been idle for 700 s. *)
Definition alice : dict :=
  list_to_map [entry "clid" "5"; entry "cid" "10"; entry "client_type" "0";
               entry "client_database_id" "31"; entry "client_idle_time" "700000"].

(** Client 6 sits in the AFK channel 2 and was active a second ago. *)
Definition bob : dict :=
  list_to_map [entry "clid" "6"; entry "cid" "2"; entry "client_type" "0";
               entry "client_database_id" "32"; entry "client_idle_time" "1000"].

(** Client 7 sits in the AFK channel 2 and was active two seconds ago. *)
Definition carol : dict :=
  list_to_map [entry "clid" "7"; entry "cid" "2"; entry "client_type" "0";
               entry "client_database_id" "33"; entry "client_idle_time" "2000"].

(** Clients idle for exactly 600 s and for 600.001 s in channel 10. *)
Definition dave : dict :=
  list_to_map [entry "clid" "8"; entry "cid" "10"; entry "client_type" "0";
               entry "client_database_id" "34"; entry "client_idle_time" "600000"].

Definition erin : dict :=
  list_to_map [entry "clid" "9"; entry "cid" "10"; entry "client_type" "0";
               entry "client_database_id" "35"; entry "client_idle_time" "600001"].

(** Clients idle for exactly 600 s and for 600.001 s in the AFK channel 2. *)
Definition frank : dict :=
  list_to_map [entry "clid" "10"; entry "cid" "2"; entry "client_type" "0";
               entry "client_database_id" "36"; entry "client_idle_time" "600000"].

Definition grace : dict :=
  list_to_map [entry "clid" "11"; entry "cid" "2"; entry "client_type" "0";
               entry "client_database_id" "37"; entry "client_idle_time" "600001"].

Definition channel (cid total : string) : dict :=
  list_to_map [entry "cid" cid; entry "total_clients" total].

Definition settings (maxclients password : string) : dict :=
  list_to_map [entry "channel_maxclients" maxclients;
               entry "channel_flag_password" password].

(** The default options of the module. *)
Definition defaults : config :=
  {| dry_run := false; servergroups_to_exclude := None;
     enable_auto_move_back := true; resp_channel_settings := true;
     fallback_channel := None; idle_time_seconds := 600 # 1;
     channel_name := "AFK" |}.

Definition with_dry_run : config :=
  {| dry_run := true; servergroups_to_exclude := None;
     enable_auto_move_back := true; resp_channel_settings := true;
     fallback_channel := None; idle_time_seconds := 600 # 1;
     channel_name := "AFK" |}.

Definition with_exclusion : config :=
  {| dry_run := false; servergroups_to_exclude := Some "Admin,Guest";
     enable_auto_move_back := true; resp_channel_settings := true;
     fallback_channel := None; idle_time_seconds := 600 # 1;
     channel_name := "AFK" |}.

Definition without_limits : config :=
  {| dry_run := false; servergroups_to_exclude := None;
     enable_auto_move_back := true; resp_channel_settings := false;
     fallback_channel := None; idle_time_seconds := 600 # 1;
     channel_name := "AFK" |}.

Definition with_fallback : config :=
  {| dry_run := false; servergroups_to_exclude := None;
     enable_auto_move_back := true; resp_channel_settings := true;
     fallback_channel := Some "Lobby"; idle_time_seconds := 600 # 1;
     channel_name := "AFK" |}.

(** A server on which every query is answered and every move is carried
    out: channel 2 is the AFK channel, 3 the lobby, 10 and 11 are the
    channels the clients came from. *)
Definition server : scripted :=
  {| clients := Ok [alice; bob; carol; dave; erin];
     servergroups := Ok [];
     groups_of _ := Ok [];
     info_of _ := Ok (settings "-1" "0");
     named name := Ok [channel (if String.eqb name "AFK" then "2" else "3") "0"];
     channels := Ok [channel "2" "2"; channel "3" "0"; channel "10" "1";
                     channel "11" "4"];
     move _ _ := Ok tt |}.

(** The query for the list of server groups is refused. *)
Definition server_without_grouplist : scripted :=
  {| clients := clients server;
     servergroups := Raise (TS3QueryException 2568 "insufficient client permissions");
     groups_of := groups_of server; info_of := info_of server;
     named := named server; channels := channels server; move := move server |}.

(** Channel 10 has been deleted: the server answers [channelinfo] and a
    move to channel 10 with the error 768. *)
Definition server_channel_gone : scripted :=
  {| clients := clients server; servergroups := servergroups server;
     groups_of := groups_of server;
     info_of arg := Raise (TS3QueryException 768 "invalid channelID");
     named := named server; channels := channels server;
     move cid _ := match cid with
                   | PInt 10 => Raise (TS3QueryException 768 "invalid channelID")
                   | _ => Ok tt
                   end |}.

(** The server answers [channelinfo] for channel 11, which holds at most 5
    clients, and refuses it for every other channel. *)
Definition server_info_refused : scripted :=
  {| clients := clients server; servergroups := servergroups server;
     groups_of := groups_of server;
     info_of arg := if String.eqb arg "cid=11" then Ok (settings "5" "0")
                    else Raise (TS3QueryException 2568 "insufficient client permissions");
     named := named server; channels := channels server; move := move server |}.


(** The server groups 6 (Admin) and 8 (Guest) exist, and the client with the
    database id 31 is an Admin. *)
Definition group (sgid name : string) : dict :=
  list_to_map [entry "sgid" sgid; entry "name" name].

Definition server_with_groups : scripted :=
  {| clients := clients server;
     servergroups := Ok [group "6" "Admin"; group "7" "Normal"; group "8" "Guest"];
     groups_of arg := if String.eqb arg "cldbid=31" then Ok [group "6" "Admin"]
                      else Ok [group "7" "Normal"];
     info_of := info_of server; named := named server;
     channels := channels server; move := move server |}.

(** An object on [conn] after a pass that moved clients 6 and 7 to the AFK
    channel, client 6 from channel [origin6] and client 7 from channel 10,
    and whose snapshot of the clients is [snapshot]. *)
Definition mover (conn : scripted) (origin6 : string) (snapshot : option (list dict))
  : IdleMover scripted :=
  {| ts3conn := conn; afk_channel := "2";
     client_channels := list_to_map [entry "6" origin6; entry "7" "10"];
     servergroup_ids_to_ignore := []; idle_list := snapshot;
     logged := []; moves := [] |}.

(** The clients that the server lists, and an object that has just
    fetched them. *)
Definition snapshot : list dict := [alice; bob; carol; dave; erin].

Definition watching : IdleMover scripted := mover server "10" (Some snapshot).

(** An object whose snapshot holds clients of the AFK channel only. *)
Definition resting : IdleMover scripted := mover server "10" (Some [bob; frank; grace]).

(** The same on the server that refuses [channelinfo] for every channel
    but 11, client 6 having come from channel 11 or from channel 10. *)
Definition refused_after_answer : IdleMover scripted :=
  mover server_info_refused "11" (Some snapshot).

Definition refused_at_once : IdleMover scripted :=
  mover server_info_refused "10" (Some snapshot).

End Scenario.

(** ** Further conditions on the server and relations on the object *)

(** The connection always names a group of the list [ignore] for the
    client. *)
Definition excluded {Srv} `{!TS3Connection Srv} (ignore : list pyval) (client : dict)
  : Prop :=
  ∀ srv : Srv, ∃ groups,
    fst (servergroupsbyclientid
           ("cldbid=" +:+ py_format (get client "client_database_id")) srv) = Ok groups
    ∧ ∃ g, g ∈ groups ∧ get g "sgid" ∈ ignore.

(** A [clientmove] returns or raises a [TS3Exception]. *)
Definition moved_or_refused (r : res unit) : Prop :=
  match r with
  | Ok _ => True
  | Raise e => is_TS3Exception e = true
  end.

(** The settings of the channel a client came from do not stand in the way
    of its move back: they are not looked at, the channel is not in the
    listing of the pass, or it has room and no password. *)
Definition permits (cfg : config) (info : dict) (details : option dict) : Prop :=
  resp_channel_settings cfg = false
  ∨ details = None
  ∨ ∃ channel maxclients,
      details = Some channel
      ∧ py_int (get info "channel_maxclients") = Ok maxclients
      ∧ (maxclients = -1
         ∨ ∃ total, py_int (get channel "total_clients") = Ok total ∧ total < maxclients)
      ∧ py_int (get info "channel_flag_password") = Ok 0.

(** [int] reads the [clid] of the client, and the server carries out or
    refuses its move to the channel [afk]. *)
Definition can_move_to_afk {Srv} `{!TS3Connection Srv} (afk : string) (client : dict)
  : Prop :=
  ∃ n, py_int (PStr (get_str client "clid" "-1")) = Ok n
       ∧ ∀ srv : Srv, moved_or_refused (fst (clientmove (PStr afk) n srv)).

(** The [clid] of the client is the numeral of its id and, if [store] has
    an entry for it, the entry is a channel whose settings permit the move
    back, for which the server answers [channelinfo] and to which it moves
    the client. *)
Definition can_move_back {Srv} `{!TS3Connection Srv} (cfg : config)
    (store : gmap string string) (channel_list : list dict) (client : dict) : Prop :=
  ∃ n, client !! "clid" = Some (py_str n)
       ∧ ∀ origin, store !! py_str n = Some origin →
           ∃ ch details,
             py_int (PStr origin) = Ok ch
             ∧ find_channel channel_list ch = Ok details
             ∧ (∀ srv : Srv, ∃ info srv',
                  channelinfo ("cid=" +:+ py_str ch) srv = (Ok info, srv')
                  ∧ permits cfg info details)
             ∧ (∀ srv : Srv, fst (clientmove (PInt ch) n srv) = Ok tt).

(** The AFK channel, the ignored group ids and the snapshot stay. *)
Definition keeps_snapshot {Srv} (σ σ' : IdleMover Srv) : Prop :=
  afk_channel σ' = afk_channel σ
  ∧ servergroup_ids_to_ignore σ' = servergroup_ids_to_ignore σ
  ∧ idle_list σ' = idle_list σ.

(** Starting without entries, the AFK channel, the entries and the history
    of moves stay. *)
Definition keeps_if_empty {Srv} (σ σ' : IdleMover Srv) : Prop :=
  client_channels σ = ∅ → keeps σ σ'.

(** No entry is deleted, and every [clientmove] issued goes to the AFK
    channel. *)
Definition only_to_afk {Srv} (σ σ' : IdleMover Srv) : Prop :=
  afk_channel σ' = afk_channel σ
  ∧ (∀ k, is_Some (client_channels σ !! k) → is_Some (client_channels σ' !! k))
  ∧ ∃ new, moves σ' = moves σ ++ new
           ∧ Forall (λ c, to_cid c = PStr (afk_channel σ)) new.

(** What [__init__] set up stays, and the history of moves only grows. *)
Definition keeps_setup {Srv} (σ σ' : IdleMover Srv) : Prop :=
  afk_channel σ' = afk_channel σ
  ∧ servergroup_ids_to_ignore σ' = servergroup_ids_to_ignore σ
  ∧ ∃ new, moves σ' = moves σ ++ new.

(** ** Servers that refuse, and a connection that stays as it is *)

Module Incidents.
Import Scenario.

(** The ServerQuery login of a bot, as [clientlist] reports it. *)
Definition serveradmin : dict :=
  list_to_map [entry "clid" "1"; entry "cid" "1"; entry "client_type" "1";
               entry "client_database_id" "1"; entry "client_idle_time" "900000"].

Definition server_with_query_client : scripted :=
  {| clients := Ok [alice; serveradmin; bob];
     servergroups := servergroups server; groups_of := groups_of server;
     info_of := info_of server; named := named server;
     channels := channels server; move := move server |}.

(** The [clientlist] query is refused. *)
Definition server_without_clientlist : scripted :=
  {| clients := Raise (TS3QueryException 2568 "insufficient client permissions");
     servergroups := servergroups server; groups_of := groups_of server;
     info_of := info_of server; named := named server;
     channels := channels server; move := move server |}.

(** The [channellist] query is refused. *)
Definition server_without_channellist : scripted :=
  {| clients := clients server; servergroups := servergroups server;
     groups_of := groups_of server; info_of := info_of server;
     named := named server;
     channels := Raise (TS3QueryException 2568 "insufficient client permissions");
     move := move server |}.

(** The server refuses to move client 5 and moves every other client. *)
Definition server_keeps_alice : scripted :=
  {| clients := clients server; servergroups := servergroups server;
     groups_of := groups_of server; info_of := info_of server;
     named := named server; channels := channels server;
     move _ clid := if clid =? 5
                    then Raise (TS3QueryException 2568 "insufficient client permissions")
                    else Ok tt |}.

Definition without_move_back : config :=
  {| dry_run := false; servergroups_to_exclude := None;
     enable_auto_move_back := false; resp_channel_settings := true;
     fallback_channel := None; idle_time_seconds := 600 # 1;
     channel_name := "AFK" |}.

(** An object on [server] as [__init__] leaves it: the AFK channel is 2 and
    no client is tracked. *)
Definition started : IdleMover scripted :=
  {| ts3conn := server; afk_channel := "2"; client_channels := ∅;
     servergroup_ids_to_ignore := []; idle_list := None;
     logged := []; moves := [] |}.

(** A connection that stays in one state, in which the server answers
    every query as [script] says. *)
Inductive steady (script : scripted) : Type := Steady.
Arguments Steady {script}.

#[global] Instance steady_connection (script : scripted) : TS3Connection (steady script) := {|
  clientlist _ s := (clients script, s);
  servergrouplist s := (servergroups script, s);
  servergroupsbyclientid arg s := (groups_of script arg, s);
  channelinfo arg s := (info_of script arg, s);
  channelfind name s := (named script name, s);
  channellist s := (channels script, s);
  clientmove cid clid s := (move script cid clid, s)
|}.

(** An object on that connection with the AFK channel 2, the ignored group
    ids [ignore], the entries [store] and the snapshot of [Scenario]. *)
Definition steady_mover (script : scripted) (ignore : list pyval)
    (store : list (string * string)) : IdleMover (steady script) :=
  {| ts3conn := Steady; afk_channel := "2"; client_channels := list_to_map store;
     servergroup_ids_to_ignore := ignore; idle_list := Some snapshot;
     logged := []; moves := [] |}.

End Incidents.


(** * Properties *)

(** ** [int] and [str] on examples *)

Example int_of_numerals :
  PyInt.of_string <$> ["600000"; " 42 "; "-7"; "+5"; "1_000"; "007"]
  = [Some 600000; Some 42; Some (-7); Some 5; Some 1000; Some 7].
Proof. vm_compute. reflexivity. Qed.

Example int_of_other_strings :
  PyInt.of_string <$> [""; "abc"; "1__0"; "_1"; "1_"; "- 5"; "+-5"; "1.5"; "None"]
  = [None; None; None; None; None; None; None; None; None].
Proof. vm_compute. reflexivity. Qed.

Example str_of_ints : py_str <$> [0; 6; -15; 768] = ["0"; "6"; "-15"; "768"].
Proof. vm_compute. reflexivity. Qed.

Example split_of_group_names :
  split_comma <$> ["Admin,Guest"; "Guest"; ""; "a,,b"]
  = [["Admin"; "Guest"]; ["Guest"]; [""]; ["a"; ""; "b"]].
Proof. vm_compute. reflexivity. Qed.

(** ** The quotient [int / 1000] *)

(** The quotient of the model and the IEEE 754 division agree on these
    dividends, the largest of which has 53 bits. *)
Example div_agrees_with_binary64 :
  forallb (λ a, Binary64.agrees a 1000)
    [0; 1; 2; 3; 7; 999; 1000; 1001; 1999; 600000; 600001; 123456789;
     -1; -17; -600001; 4503599627370495; 4503599627370497;
     9007199254740991; -9007199254740991]
  = true.
Proof. vm_compute. reflexivity. Qed.

Example div_agrees_on_other_divisors :
  forallb (λ ab, Binary64.agrees (fst ab) (snd ab))
    [(1, 3); (2, 3); (10, 7); (1, 10); (9007199254740991, 3);
     (1, 9007199254740991); (5, 2); (7, 1)]
  = true.
Proof. vm_compute. reflexivity. Qed.

(** The threshold of the default configuration and its neighbours. *)
Example quotients_around_600 :
  truediv_1000 600000 = Ok (PyFloat.value (600, 1074))
  ∧ (∃ q, truediv_1000 600001 = Ok q ∧ (600 # 1 < q)%Q)
  ∧ (∃ q, truediv_1000 599999 = Ok q ∧ (q < 600 # 1)%Q).
Proof.
  split; [vm_compute; reflexivity|].
  split; eexists; (split; [vm_compute; reflexivity|]); vm_compute; reflexivity.
Qed.

Section Quotient.
Import PyFloat.

Lemma round_half_even_near n d :
  0 < d → 2 * n - d <= 2 * (round_half_even n d * d) <= 2 * n + d.
Proof.
  intros Hd. unfold round_half_even.
  pose proof (Z.div_mod n d ltac:(lia)) as Hn.
  pose proof (Z.mod_pos_bound n d Hd) as Hr.
  destruct (Z.compare_spec (2 * (n mod d)) d), (Z.even (n / d)); nia.
Qed.

Lemma round_half_even_le n d N :
  0 < d → n <= N * d → round_half_even n d <= N.
Proof.
  intros Hd HN. unfold round_half_even.
  pose proof (Z.div_mod n d ltac:(lia)) as Hn.
  pose proof (Z.mod_pos_bound n d Hd) as Hr.
  assert (n / d <= N) by nia.
  assert (2 * (n mod d) >= d → n / d + 1 <= N) by nia.
  destruct (Z.compare_spec (2 * (n mod d)) d), (Z.even (n / d)); lia.
Qed.

Lemma round_half_even_ge n d N :
  0 < d → N * d <= n → N <= round_half_even n d.
Proof.
  intros Hd HN. unfold round_half_even.
  pose proof (Z.div_mod n d ltac:(lia)) as Hn.
  pose proof (Z.mod_pos_bound n d Hd) as Hr.
  assert (N <= n / d) by nia.
  destruct (Z.compare_spec (2 * (n mod d)) d), (Z.even (n / d)); lia.
Qed.

(** The exponent is 0 or the quotient has exactly [e + 53] bits. *)
Lemma lsb_exponent_spec a b :
  0 < a → 0 < b →
  let e := lsb_exponent a b in
  0 <= e ∧ a * Zpos unit < b * 2 ^ (e + 53) ∧ (0 < e → b * 2 ^ (e + 52) <= a * Zpos unit).
Proof.
  intros Ha Hb e. subst e. unfold lsb_exponent.
  set (A := a * Z.pos unit).
  assert (0 < A) by (subst A; lia).
  pose proof (Z.div_mod A b ltac:(lia)) as Hn.
  pose proof (Z.mod_pos_bound A b Hb) as Hr.
  assert (0 <= A / b) by (apply Z.div_pos; lia).
  destruct (Z.eq_dec (A / b) 0) as [Hq|Hq].
  - rewrite Hq. simpl Z.log2. rewrite Z.max_r by lia. split; [lia|]. split; [|lia].
    simpl (0 + 53). assert (0 < 2 ^ 53) by lia. nia.
  - pose proof (Z.log2_spec (A / b) ltac:(lia)) as [Hlo Hhi].
    pose proof (Z.log2_nonneg (A / b)) as Hl.
    set (k := Z.log2 (A / b)) in *.
    destruct (Z.max_spec (k - 52) 0) as [[Hk ->]|[Hk ->]].
    + split; [lia|]. split; [|lia].
      assert (2 ^ Z.succ k <= 2 ^ 53) by (apply Z.pow_le_mono_r; lia).
      simpl (0 + 53). nia.
    + split; [lia|]. replace (k - 52 + 53) with (Z.succ k) by lia.
      replace (k - 52 + 52) with k by lia. split; [nia|]. intros _. nia.
Qed.

Lemma pow2_split (E e : Z) : 0 <= e <= E → 2 ^ E = 2 ^ (E - e) * 2 ^ e.
Proof. intros. rewrite <- Z.pow_add_r by lia. f_equal. lia. Qed.

Lemma pow2_pos (e : Z) : 0 <= e → 0 < 2 ^ e.
Proof. intros. apply Z.pow_pos_nonneg; lia. Qed.

Lemma nearest_le a b M E :
  0 < a → 0 < b → 0 <= M < 2 ^ 53 → 0 <= E →
  a * Zpos unit <= b * (M * 2 ^ E) →
  fst (nearest a b) * 2 ^ snd (nearest a b) <= M * 2 ^ E.
Proof.
  intros Ha Hb HM HE Hle. unfold nearest. cbn [fst snd].
  destruct (lsb_exponent_spec a b Ha Hb) as (He & Hhi & Hlo).
  set (e := lsb_exponent a b) in *.
  pose proof (pow2_pos e He) as Hpe.
  destruct (Z.le_gt_cases e E) as [HeE|HeE].
  - rewrite (pow2_split E e) in * by lia.
    pose proof (pow2_pos (E - e) ltac:(lia)) as HpE.
    assert (round_half_even (a * Z.pos unit) (b * 2 ^ e) <= M * 2 ^ (E - e)) as Hm.
    { apply round_half_even_le; [nia|].
      replace (M * 2 ^ (E - e) * (b * 2 ^ e)) with (b * (M * (2 ^ (E - e) * 2 ^ e))) by ring.
      exact Hle. }
    nia.
  - exfalso. specialize (Hlo ltac:(lia)).
    assert (2 ^ (E + 53) <= 2 ^ (e + 52)) as Hp by (apply Z.pow_le_mono_r; lia).
    rewrite Z.pow_add_r in Hp by lia.
    pose proof (pow2_pos E HE) as HpE.
    assert (M * 2 ^ E < 2 ^ (e + 52)) as Hlt by nia.
    assert (b * (M * 2 ^ E) < b * 2 ^ (e + 52)) by (apply Z.mul_lt_mono_pos_l; lia).
    lia.
Qed.

Lemma nearest_ge a b M E :
  0 < a → 0 < b → 0 <= M < 2 ^ 53 → 0 <= E →
  b * (M * 2 ^ E) <= a * Zpos unit →
  M * 2 ^ E <= fst (nearest a b) * 2 ^ snd (nearest a b).
Proof.
  intros Ha Hb HM HE Hle. unfold nearest. cbn [fst snd].
  destruct (lsb_exponent_spec a b Ha Hb) as (He & Hhi & Hlo).
  set (e := lsb_exponent a b) in *.
  pose proof (pow2_pos e He) as Hpe.
  destruct (Z.le_gt_cases e E) as [HeE|HeE].
  - rewrite (pow2_split E e) in * by lia.
    pose proof (pow2_pos (E - e) ltac:(lia)) as HpE.
    assert (M * 2 ^ (E - e) <= round_half_even (a * Z.pos unit) (b * 2 ^ e)) as Hm.
    { apply round_half_even_ge; [nia|].
      replace (M * 2 ^ (E - e) * (b * 2 ^ e)) with (b * (M * (2 ^ (E - e) * 2 ^ e))) by ring.
      exact Hle. }
    nia.
  - specialize (Hlo ltac:(lia)).
    assert (2 ^ 52 <= round_half_even (a * Z.pos unit) (b * 2 ^ e)) as Hm.
    { apply round_half_even_ge; [nia|]. rewrite Z.pow_add_r in Hlo by lia. lia. }
    assert (2 ^ (E + 53) <= 2 ^ (e + 52)) as Hp by (apply Z.pow_le_mono_r; lia).
    rewrite !Z.pow_add_r in Hp by lia.
    pose proof (pow2_pos E HE) as HpE.
    assert (M * 2 ^ E <= 2 ^ 52 * 2 ^ e) by nia.
    assert (2 ^ 52 * 2 ^ e <= round_half_even (a * Z.pos unit) (b * 2 ^ e) * 2 ^ e)
      by (apply Z.mul_le_mono_nonneg_r; lia).
    lia.
Qed.

Lemma unit_eq : Zpos unit = 2 ^ 1074.
Proof. reflexivity. Qed.

Lemma nearest_above a :
  0 < a < 2 ^ 53 →
  (a - 1) * Zpos unit < 1000 * (fst (nearest a 1000) * 2 ^ snd (nearest a 1000))
  ∧ fst (nearest a 1000) * 2 ^ snd (nearest a 1000) < 2 ^ 1024 * Zpos unit.
Proof.
  intros Ha. unfold nearest. cbn [fst snd].
  destruct (lsb_exponent_spec a 1000 ltac:(lia) ltac:(lia)) as (He & Hhi & Hlo).
  set (e := lsb_exponent a 1000) in *.
  pose proof (pow2_pos e He) as Hpe.
  pose proof (round_half_even_near (a * Zpos unit) (1000 * 2 ^ e) ltac:(lia)) as Hm.
  set (m := round_half_even (a * Zpos unit) (1000 * 2 ^ e)) in *.
  assert (500 * 2 ^ e < Zpos unit) as Hsmall.
  { destruct (Z.eq_dec e 0) as [->|Hne].
    - rewrite unit_eq. change (2 ^ 0) with 1. 
      assert (2 ^ 10 <= 2 ^ 1074) by (apply Z.pow_le_mono_r; lia). lia.
    - specialize (Hlo ltac:(lia)). rewrite Z.pow_add_r in Hlo by lia.
      nia. }
  split; [nia|].
  assert (Zpos unit * 2 ^ 53 <= 2 ^ 1024 * Zpos unit).
  { assert (2 ^ 53 <= 2 ^ 1024) by (apply Z.pow_le_mono_r; lia). nia. }
  nia.
Qed.

Lemma nearest_nonneg a b :
  0 < a → 0 < b → 0 <= fst (nearest a b) * 2 ^ snd (nearest a b).
Proof.
  intros Ha Hb.
  apply (nearest_ge a b 0 0); [done|done|lia|lia|]. lia.
Qed.

Lemma div_pos_value a b q :
  div_pos a b = Some q → q = value (nearest a b).
Proof. unfold div_pos. case_match; congruence. Qed.

(** The quotient does not exceed a binary64 number that the exact quotient
    does not exceed. *)
Lemma truediv_1000_le (th : Q) ms q :
  is_double th → truediv_1000 ms = Ok q →
  (ms # 1000 <= th)%Q → (q <= th)%Q.
Proof.
  intros (M & E & HM & HE & _ & Hth) Hq Hle.
  rewrite Hth in Hle |- *. unfold Qle in *. cbn [Qnum Qden value fst snd] in *.
  unfold truediv_1000 in Hq.
  destruct (div ms 1000) as [q'|] eqn:Hdiv; [|done]. injection Hq as ->.
  pose proof (pow2_pos E HE) as HpE.
  destruct ms as [|p|p]; cbn [div] in Hdiv.
  - injection Hdiv as <-. cbn [Qnum Qden]. nia.
  - apply div_pos_value in Hdiv as ->. cbn [Qnum Qden value].
    assert (0 <= M) by nia.
    pose proof (nearest_le (Zpos p) 1000 M E ltac:(lia) ltac:(lia) ltac:(lia) HE) as Hn.
    apply Z.mul_le_mono_nonneg_r; [lia|]. apply Hn. lia.
  - destruct (div_pos (- Z.neg p) 1000) as [q'|] eqn:Hd; [|done].
    cbn in Hdiv. injection Hdiv as <-.
    apply div_pos_value in Hd as ->. cbn [Qnum Qden value Qopp fst snd].
    change (- Z.neg p) with (Zpos p) in *.
    apply Z.mul_le_mono_nonneg_r; [lia|].
    pose proof (nearest_nonneg (Zpos p) 1000 ltac:(lia) ltac:(lia)) as Hnn.
    destruct (Z.le_gt_cases 0 M) as [HM0|HM0]; [nia|].
    pose proof (nearest_ge (Zpos p) 1000 (- M) E ltac:(lia) ltac:(lia) ltac:(lia) HE) as Hn.
    assert (1000 * (- M * 2 ^ E) <= Z.pos p * Z.pos unit) by lia.
    specialize (Hn ltac:(done)). lia.
Qed.

(** Below [2^53] ms the quotient exceeds the exact quotient of the
    millisecond before. *)
Lemma truediv_1000_above ms :
  0 < ms < 2 ^ 53 →
  ∃ q, truediv_1000 ms = Ok q ∧ ((ms - 1) # 1000 < q)%Q.
Proof.
  intros Hms. destruct (nearest_above ms Hms) as [Hlo Hhi].
  unfold truediv_1000, div. destruct ms as [|p|p]; [lia| |lia].
  unfold div_pos. destruct (Z.leb_spec (2 ^ 1024 * Z.pos unit)
    (fst (nearest (Z.pos p) 1000) * 2 ^ snd (nearest (Z.pos p) 1000))); [lia|].
  eexists. split; [done|]. unfold Qlt. cbn [Qnum Qden value]. lia.
Qed.

End Quotient.

(** ** Composition of effects *)

Arguments py_int : simpl never.
Arguments py_str : simpl never.
Arguments truediv_1000 : simpl never.
Arguments get : simpl never.
Arguments get_default : simpl never.
Arguments get_val : simpl never.
Arguments get_str : simpl never.
Arguments find_channel : simpl never.

Section Steps.
Context {Srv : Type} `{!TS3Connection Srv}.
Context (R : relation (IdleMover Srv)) `{!PreOrder R}.

Lemma steps_ret {A} (a : A) : steps R (mret a : M A).
Proof. intros σ. reflexivity. Qed.

Lemma steps_raise {A} e : steps R (raise e : M A).
Proof. intros σ. reflexivity. Qed.

Lemma steps_eval {A} (r : res A) : steps R (eval r).
Proof. intros σ. reflexivity. Qed.

Lemma steps_read {A} (f : IdleMover Srv → A) : steps R (read f).
Proof. intros σ. reflexivity. Qed.

Lemma steps_bind {A B} (m : M A) (f : A → M B) :
  steps R m → (∀ a, steps R (f a)) → steps R (m ≫= f).
Proof.
  intros Hm Hf σ. unfold mbind, M_bind, bind. specialize (Hm σ).
  destruct (m σ) as [[a|e] σ1]; cbn in *; [|done].
  etrans; [exact Hm|apply Hf].
Qed.

Lemma steps_try {A} (m : M A) handler :
  steps R m → (∀ e h, handler e = Some h → steps R h) →
  steps R (try_except m handler).
Proof.
  intros Hm Hh σ. unfold try_except. specialize (Hm σ).
  destruct (m σ) as [[a|e] σ1]; cbn in *; [done|].
  destruct (handler e) as [h|] eqn:He; [|done].
  etrans; [exact Hm|]. by apply (Hh e).
Qed.

Lemma steps_for_in {A B} (l : list A) (acc : B) body :
  (∀ acc x, steps R (body acc x)) → steps R (for_in l acc body).
Proof.
  intros Hb. revert acc. induction l as [|x l IH]; intros acc; cbn.
  - apply steps_ret.
  - apply (steps_bind (body acc x)); [apply Hb|]. intros a. apply IH.
Qed.

Lemma steps_for_each {A} (l : list A) body :
  (∀ x, steps R (body x)) → steps R (for_each l body).
Proof. intros Hb. apply steps_for_in. intros _ x. apply Hb. Qed.

Lemma steps_local {A} name (v : option A) : steps R (local name v).
Proof. destruct v; [apply steps_ret|apply steps_raise]. Qed.

End Steps.

Section Relations.
Context {Srv : Type}.

#[global] Instance reads_preorder : PreOrder (@reads Srv).
Proof.
  split.
  - by intros σ.
  - intros σ1 σ2 σ3 (?&?&?&?&?) (?&?&?&?&?). repeat split; congruence.
Qed.

#[global] Instance keeps_preorder : PreOrder (@keeps Srv).
Proof.
  split.
  - by intros σ.
  - intros σ1 σ2 σ3 (?&?&?) (?&?&?). repeat split; congruence.
Qed.

#[global] Instance untouched_preorder : PreOrder (@untouched Srv).
Proof.
  split.
  - by intros σ.
  - intros σ1 σ2 σ3 (?&?) (?&?). split; congruence.
Qed.

#[global] Instance only_adds_preorder : PreOrder (@only_adds Srv).
Proof.
  split.
  - intros σ. split; [done|]. exists []. rewrite app_nil_r. split; [done|]. by left.
  - intros σ1 σ2 σ3 (Ha & n1 & Hm1 & H1) (Hb & n2 & Hm2 & H2).
    split; [congruence|]. exists (n1 ++ n2).
    split; [rewrite Hm2, Hm1; by rewrite app_assoc|].
    intros k. destruct (H2 k) as [Hk|(Hs & n & Hn & Hin)].
    + rewrite Hk. destruct (H1 k) as [?|(Hs & n & Hn & Hin)]; [by left|right].
      split; [done|]. exists n. split; [done|]. apply elem_of_app. by left.
    + right. split; [done|]. exists n. split; [done|].
      apply elem_of_app. right. by rewrite <- Ha.
Qed.

#[global] Instance only_removes_preorder : PreOrder (@only_removes Srv).
Proof.
  split.
  - intros σ. split; [done|]. exists []. rewrite app_nil_r. split; [done|]. by left.
  - intros σ1 σ2 σ3 (Ha & n1 & Hm1 & H1) (Hb & n2 & Hm2 & H2).
    split; [congruence|]. exists (n1 ++ n2).
    split; [rewrite Hm2, Hm1; by rewrite app_assoc|].
    intros k. destruct (H2 k) as [Hk|(Hs & n & c & Hn & Hin)].
    + rewrite Hk. destruct (H1 k) as [?|(Hs & n & c & Hn & Hin)]; [by left|right].
      split; [done|]. exists n, c. split; [done|]. apply elem_of_app. by left.
    + right. split; [done|]. exists n, c. split; [done|].
      apply elem_of_app. by right.
Qed.

#[global] Instance reconciles_preorder : PreOrder (@reconciles Srv).
Proof.
  split.
  - intros σ. split; [done|]. exists []. rewrite app_nil_r. split; [done|]. by left.
  - intros σ1 σ2 σ3 (Ha & n1 & Hm1 & H1) (Hb & n2 & Hm2 & H2).
    split; [congruence|]. exists (n1 ++ n2).
    split; [rewrite Hm2, Hm1; by rewrite app_assoc|].
    intros k.
    destruct (H2 k) as [Hk|[(Hs & n & Hn & Hin)|(Hs & n & c & Hn & Hin)]].
    + rewrite Hk.
      destruct (H1 k) as [?|[(Hs & n & Hn & Hin)|(Hs & n & c & Hn & Hin)]].
      * by left.
      * right; left. split; [done|]. exists n. split; [done|].
        apply elem_of_app. by left.
      * right; right. split; [done|]. exists n, c. split; [done|].
        apply elem_of_app. by left.
    + right; left. split; [done|]. exists n. split; [done|].
      apply elem_of_app. right. by rewrite <- Ha.
    + right; right. split; [done|]. exists n, c. split; [done|].
      apply elem_of_app. by right.
Qed.

Lemma reads_keeps (σ σ' : IdleMover Srv) : reads σ σ' → keeps σ σ'.
Proof. intros (?&?&?&?&?). by repeat split. Qed.

Lemma keeps_untouched (σ σ' : IdleMover Srv) : keeps σ σ' → untouched σ σ'.
Proof. intros (?&?&?). by split. Qed.

Lemma keeps_only_adds (σ σ' : IdleMover Srv) : keeps σ σ' → only_adds σ σ'.
Proof.
  intros (?&Hs&Hm). split; [done|]. exists []. rewrite app_nil_r.
  split; [done|]. intros k. left. by rewrite Hs.
Qed.

Lemma keeps_only_removes (σ σ' : IdleMover Srv) : keeps σ σ' → only_removes σ σ'.
Proof.
  intros (?&Hs&Hm). split; [done|]. exists []. rewrite app_nil_r.
  split; [done|]. intros k. left. by rewrite Hs.
Qed.

Lemma only_adds_reconciles (σ σ' : IdleMover Srv) : only_adds σ σ' → reconciles σ σ'.
Proof.
  intros (?&new&?&H). split; [done|]. exists new. split; [done|].
  intros k. destruct (H k); auto.
Qed.

Lemma only_removes_reconciles (σ σ' : IdleMover Srv) : only_removes σ σ' → reconciles σ σ'.
Proof.
  intros (?&new&?&H). split; [done|]. exists new. split; [done|].
  intros k. destruct (H k); auto.
Qed.

Lemma steps_mono {A} (R R' : relation (IdleMover Srv)) (m : M A) :
  (∀ σ σ', R σ σ' → R' σ σ') → steps R m → steps R' m.
Proof. intros HR Hm σ. apply HR, Hm. Qed.

End Relations.

Ltac handler_cases :=
  let e := fresh "e" in let h := fresh "h" in let Hh := fresh "Hh" in
  intros e h Hh; cbv beta in Hh;
  repeat (case_match; try discriminate);
  try (injection Hh as <-).

(** Decompose a goal [steps R m] along the syntax of [m]; [prim] takes the
    calls and the statements that the relation at hand is about. *)
Ltac steps_with prim :=
  repeat (cbv beta;
    first
      [ prim
      | lazymatch goal with
        | |- steps _ (mret _) => apply steps_ret; apply _
        | |- steps _ (raise _) => apply steps_raise; apply _
        | |- steps _ (eval _) => apply steps_eval; apply _
        | |- steps _ (read _) => apply steps_read; apply _
        | |- steps _ (local _ _) => apply steps_local; apply _
        | |- steps _ (mbind _ _) => apply steps_bind; [apply _| |intros ?]
        | |- steps _ (try_except _ _) => apply steps_try; [apply _| |handler_cases]
        | |- steps _ (for_each _ _) => apply steps_for_each; [apply _|intros ?]
        | |- steps _ (for_in _ _ _) => apply steps_for_in; [apply _|intros ? ?]
        | |- steps _ (if ?b then _ else _) => destruct b
        | |- steps _ (match ?x with _ => _ end) => destruct x
        end ]).

Section Frames.
Context {Srv : Type} `{!TS3Connection Srv}.
Variable cfg : config.

Lemma reads_log l t : steps (@reads Srv) (log l t).
Proof. by intros σ. Qed.

Lemma reads_call {A} (op : Srv → res A * Srv) : steps (@reads Srv) (call op).
Proof. intros σ. unfold call. by destruct (op (ts3conn σ)). Qed.

Lemma keeps_log l t : steps (@keeps Srv) (log l t).
Proof. by intros σ. Qed.

Lemma keeps_call {A} (op : Srv → res A * Srv) : steps (@keeps Srv) (call op).
Proof. intros σ. unfold call. by destruct (op (ts3conn σ)). Qed.

Lemma keeps_set_idle_list f : steps (@keeps Srv) (set_idle_list f).
Proof. by intros σ. Qed.

Lemma keeps_set_servergroup_ids_to_ignore f :
  steps (@keeps Srv) (set_servergroup_ids_to_ignore f).
Proof. by intros σ. Qed.

Ltac reads_prim :=
  idtac; lazymatch goal with
  | |- steps _ (log _ _) => apply reads_log
  | |- steps _ (call _) => apply reads_call
  end.
Ltac reads_tac := steps_with reads_prim.
Ltac keeps_tac :=
  steps_with ltac:(idtac; lazymatch goal with
                   | |- steps _ (log _ _) => apply keeps_log
                   | |- steps _ (call _) => apply keeps_call
                   | |- steps _ (set_idle_list _) => apply keeps_set_idle_list
                   | |- steps _ (set_servergroup_ids_to_ignore _) =>
                       apply keeps_set_servergroup_ids_to_ignore
                   end).

Lemma get_servergroups_by_client_reads cldbid :
  steps (@reads Srv) (get_servergroups_by_client cldbid).
Proof. unfold get_servergroups_by_client. reads_tac. Qed.

Lemma client_is_in_group_reads client : steps (@reads Srv) (client_is_in_group cfg client).
Proof.
  unfold client_is_in_group. destruct (servergroups_to_exclude cfg); [|reads_tac].
  apply steps_bind; [apply _|apply get_servergroups_by_client_reads|]. intros ?. reads_tac.
Qed.

Lemma get_idle_list_body_reads acc client :
  steps (@reads Srv) (get_idle_list_body cfg acc client).
Proof.
  unfold get_idle_list_body.
  steps_with ltac:(idtac; lazymatch goal with
                   | |- steps _ (client_is_in_group _ _) => apply client_is_in_group_reads
                   | |- _ => reads_prim
                   end).
Qed.

Lemma get_idle_list_reads : steps (@reads Srv) (get_idle_list cfg).
Proof.
  unfold get_idle_list.
  steps_with ltac:(idtac; lazymatch goal with
                   | |- steps _ (get_idle_list_body _ _ _) => apply get_idle_list_body_reads
                   | |- _ => reads_prim
                   end).
Qed.

Lemma get_back_list_body_reads acc client :
  steps (@reads Srv) (get_back_list_body cfg acc client).
Proof. unfold get_back_list_body. reads_tac. Qed.

Lemma get_back_list_reads : steps (@reads Srv) (get_back_list cfg).
Proof.
  unfold get_back_list.
  steps_with ltac:(idtac; lazymatch goal with
                   | |- steps _ (get_back_list_body _ _ _) => apply get_back_list_body_reads
                   | |- _ => reads_prim
                   end).
Qed.

Lemma get_channel_by_name_reads name : steps (@reads Srv) (get_channel_by_name name).
Proof. unfold get_channel_by_name. reads_tac. Qed.

Lemma update_client_list_keeps : steps (@keeps Srv) update_client_list.
Proof. unfold update_client_list. keeps_tac. Qed.

Lemma update_servergroup_ids_list_keeps :
  steps (@keeps Srv) (update_servergroup_ids_list cfg).
Proof. unfold update_servergroup_ids_list. keeps_tac. Qed.

End Frames.

Section Loops.
Context {Srv : Type} `{!TS3Connection Srv}.

Lemma logging_app r1 r2 (σ : IdleMover Srv) :
  logging r2 (logging r1 σ) = logging (r1 ++ r2) σ.
Proof. unfold logging. cbn. f_equal. symmetry. apply app_assoc. Qed.

Lemma log_run l t (σ : IdleMover Srv) :
  log l t σ = (Ok tt, logging [{| lvl := l; msg := t |}] σ).
Proof. reflexivity. Qed.

Lemma call_run {A} (op : Srv → res A * Srv) (σ : IdleMover Srv) :
  call op σ = (fst (op (ts3conn σ)), answered (snd (op (ts3conn σ))) σ).
Proof. unfold call. by destruct (op (ts3conn σ)). Qed.


(** A loop that appends to a list the elements for which its body decides
    so: [P] is necessary and [Q] sufficient for the decision, and both
    look only at what the body leaves unchanged. *)
Lemma for_in_appends {A} (R : relation (IdleMover Srv)) `{!PreOrder R}
    (P Q : IdleMover Srv → A → Prop) (body : list A → A → M (list A)) :
  (∀ acc x, steps R (body acc x)) →
  (∀ σ σ' x, R σ σ' → (P σ' x → P σ x) ∧ (Q σ x → Q σ' x)) →
  (∀ acc x σ acc' σ', body acc x σ = (Ok acc', σ') →
     (acc' = acc ++ [x] ∧ P σ x) ∨ (acc' = acc ∧ ¬ Q σ x)) →
  ∀ l acc σ L σ', for_in l acc body σ = (Ok L, σ') →
    ∃ l', L = acc ++ l' ∧ (∀ x, x ∈ l' → x ∈ l ∧ P σ x)
          ∧ (∀ x, x ∈ l → Q σ x → x ∈ l').
Proof.
  intros Hsteps Hinv Hbody l. induction l as [|x l IH]; intros acc σ L σ' Hrun.
  - cbn in Hrun. injection Hrun as <- <-. exists []. rewrite app_nil_r.
    split; [done|]. split; intros x Hx; by apply elem_of_nil in Hx.
  - cbn in Hrun. unfold bind in Hrun.
    destruct (body acc x σ) as [[acc1|e] σ1] eqn:Hb; [|done].
    pose proof (Hsteps acc x σ) as HR. rewrite Hb in HR. cbn in HR.
    destruct (IH _ _ _ _ Hrun) as (l' & -> & Hnec & Hsuf).
    destruct (Hbody _ _ _ _ _ Hb) as [[-> HP]|[-> HQ]].
    + exists (x :: l'). split; [by rewrite <- app_assoc|]. split.
      * intros y [->|Hy]%elem_of_cons; [split; [left|done]|].
        destruct (Hnec y Hy) as [? ?]. split; [by right|].
        by apply (Hinv σ σ1 y HR).
      * intros y [->|Hy]%elem_of_cons HQ; [left|right].
        apply Hsuf; [done|]. by apply (Hinv σ σ1 y HR).
    + exists l'. split; [done|]. split.
      * intros y Hy. destruct (Hnec y Hy) as [? ?]. split; [by right|].
        by apply (Hinv σ σ1 y HR).
      * intros y [->|Hy]%elem_of_cons HQ'; [done|].
        apply Hsuf; [done|]. by apply (Hinv σ σ1 y HR).
Qed.

(** A loop returns when each round does, under an invariant of the rounds. *)
Lemma for_in_returns {A B} (I : IdleMover Srv → Prop) (l : list A)
    (body : B → A → M B) :
  (∀ x, x ∈ l → ∀ acc σ, I σ → ∃ acc' σ', body acc x σ = (Ok acc', σ') ∧ I σ') →
  ∀ acc σ, I σ → ∃ L σ', for_in l acc body σ = (Ok L, σ') ∧ I σ'.
Proof.
  induction l as [|x l IH]; intros Hbody acc σ HI.
  - exists acc, σ. by split.
  - destruct (Hbody x ltac:(left) acc σ HI) as (acc1 & σ1 & Hx & HI1).
    destruct (IH (λ y Hy, Hbody y ltac:(by right)) acc1 σ1 HI1) as (L & σ' & Hl & HI').
    exists L, σ'. split; [|done]. cbn [for_in]. unfold bind. by rewrite Hx.
Qed.

End Loops.

Ltac run_in H :=
  unfold mbind, M_bind, bind, mret, M_ret, ret, eval, read, log, raise in H;
  cbn beta iota zeta delta [fst snd] in H.

Section Classifier.
Context {Srv : Type} `{!TS3Connection Srv}.
Variable cfg : config.

Lemma get_default_present (d : dict) k v s : d !! k = Some s → get_default d k v = PStr s.
Proof. unfold get_default. by intros ->. Qed.

Lemma get_present (d : dict) k s : d !! k = Some s → get d k = PStr s.
Proof. unfold get. by intros ->. Qed.

Lemma get_back_list_body_spec acc client (σ : IdleMover Srv) acc' σ' :
  get_back_list_body cfg acc client σ = (Ok acc', σ') →
  (acc' = acc ++ [client] ∧ back_candidate cfg (afk_channel σ) client)
  ∨ (acc' = acc ∧ ¬ back_candidate cfg (afk_channel σ) client).
Proof.
  unfold get_back_list_body, back_candidate, in_keys. intros Hrun. run_in Hrun.
  destruct (client !! "cid") as [cid|] eqn:Hcid; cbn in Hrun.
  2:{ injection Hrun as <- <-. right. split; [done|].
      intros (?&?&?&?&Hc&_). unfold get in Hc. by rewrite Hcid in Hc. }
  destruct (client !! "client_idle_time") as [idle|] eqn:Hidle; cbn in Hrun.
  2:{ injection Hrun as <- <-. right. split; [done|].
      intros (?&?&?&?&_&_&_&Hc&_). unfold get in Hc. by rewrite Hidle in Hc. }
  rewrite (get_default_present _ _ _ _ Hcid) in Hrun.
  rewrite (get_present _ _ _ Hidle) in Hrun.
  rewrite (get_present _ _ _ Hcid), (get_present _ _ _ Hidle).
  destruct (py_int (PStr cid)) as [n|] eqn:Hn; [|done].
  destruct (py_int (PStr (afk_channel σ))) as [a|] eqn:Ha; [|done].
  destruct (Z.eqb_spec n a) as [->|Hne]; cbn in Hrun.
  2:{ injection Hrun as <- <-. right. split; [done|].
      intros (?&?&?&?&?&?&?&_). congruence. }
  destruct (py_int (PStr idle)) as [ms|] eqn:Hms; [|done].
  destruct (truediv_1000 ms) as [q|] eqn:Hq; [|done].
  destruct (Qle_bool q (idle_time_seconds cfg)) eqn:Hle; cbn in Hrun;
    injection Hrun as <- <-.
  - left. split; [done|]. exists a, a, ms, q. repeat split; try done.
    by apply Qle_bool_iff.
  - right. split; [done|]. intros (?&?&?&q'&?&?&?&?&Hq'&Hle').
    simplify_eq. assert (q' = q) as -> by congruence.
    apply Qle_bool_iff in Hle'. congruence.
Qed.

Lemma get_back_list_spec (σ : IdleMover Srv) L σ' :
  get_back_list cfg σ = (Ok L, σ') →
  ∀ client, client ∈ L ↔
    client ∈ default [] (idle_list σ) ∧ back_candidate cfg (afk_channel σ) client.
Proof.
  unfold get_back_list. intros Hrun. run_in Hrun.
  destruct (idle_list σ) as [clients|] eqn:Hl; cbn.
  - destruct (for_in clients [] (get_back_list_body cfg) σ) as [[L1|] σ1] eqn:Hloop;
      [|done].
    injection Hrun as <- <-.
    destruct (for_in_appends reads
                (λ (σ : IdleMover Srv) c, back_candidate cfg (afk_channel σ) c)
                (λ (σ : IdleMover Srv) c, back_candidate cfg (afk_channel σ) c)
                (get_back_list_body cfg)) with (4 := Hloop)
      as (l' & -> & Hnec & Hsuf).
    + apply get_back_list_body_reads.
    + intros σ1' σ2' x (Ha&_). rewrite Ha. done.
    + apply get_back_list_body_spec.
    + intros c. cbn. split; [apply Hnec|]. intros [? ?]. by apply Hsuf.
  - injection Hrun as <- <-. intros c. split; [by intros ?%elem_of_nil|].
    by intros [?%elem_of_nil _].
Qed.

Lemma client_is_in_group_false client (σ : IdleMover Srv) :
  not_excluded cfg (servergroup_ids_to_ignore σ) client →
  ∃ σ1, client_is_in_group cfg client σ = (Ok false, σ1).
Proof.
  unfold not_excluded, client_is_in_group. intros Hno.
  destruct (servergroups_to_exclude cfg) as [groups|]; [|by eexists].
  destruct Hno as [|Hno]; [done|]. specialize (Hno (ts3conn σ)).
  unfold get_servergroups_by_client, try_except, call.
  unfold mbind, M_bind, bind, mret, M_ret, ret, eval, read, log, raise.
  destruct (servergroupsbyclientid _ (ts3conn σ)) as [[l|e] s]; cbn in *.
  - assert (existsb (λ id, bool_decide (id ∈ servergroup_ids_to_ignore σ))
              ((λ servergroup : dict, get servergroup "sgid") <$> l) = false) as ->.
    { apply not_true_is_false. intros (id & Hid & Hin)%existsb_exists.
      apply bool_decide_eq_true in Hin.
      apply list_elem_of_In, list_elem_of_fmap in Hid as (g & -> & Hg).
      by apply (Hno g). }
    by eexists.
  - rewrite Hno. cbn. by eexists.
Qed.

Lemma get_idle_list_body_spec acc client (σ : IdleMover Srv) acc' σ' :
  get_idle_list_body cfg acc client σ = (Ok acc', σ') →
  (acc' = acc ++ [client] ∧ idle_candidate cfg (afk_channel σ) client)
  ∨ (acc' = acc ∧ ¬ (idle_candidate cfg (afk_channel σ) client
                      ∧ not_excluded cfg (servergroup_ids_to_ignore σ) client)).
Proof.
  unfold get_idle_list_body, idle_candidate, movable, idle_longer, in_keys.
  intros Hrun. run_in Hrun.
  destruct (client !! "cid") as [cid|] eqn:Hcid; cbn in Hrun.
  2:{ injection Hrun as <- <-. right. split; [done|].
      intros [[([? ?]&_) _] _]. done. }
  case_bool_decide as Htype; cbn in Hrun.
  { injection Hrun as <- <-. right. split; [done|]. by intros [[(_&?&_) _] _]. }
  set (σa := {| ts3conn := ts3conn σ; afk_channel := afk_channel σ;
                client_channels := client_channels σ;
                servergroup_ids_to_ignore := servergroup_ids_to_ignore σ;
                idle_list := idle_list σ;
                logged := logged σ ++ [{| lvl := debug; msg := "get_idle_list checking client: " |}];
                moves := moves σ |}) in *.
  pose proof (client_is_in_group_reads cfg client σa) as Hreads.
  pose proof (client_is_in_group_false client σa) as Hfalse.
  destruct (client_is_in_group cfg client σa) as [[[]|] σ1]; [| |done].
  { injection Hrun as <- <-. right. split; [done|].
    intros [_ Hno]. destruct (Hfalse Hno) as (? & ?). done. }
  clear Hfalse. cbn in Hreads. destruct Hreads as (Hafk & _). cbn in Hafk.
  destruct (client !! "client_idle_time") as [idle|] eqn:Hidle; cbn in Hrun.
  2:{ injection Hrun as <- <-. right. split; [done|].
      intros [[_ (?&?&Hc&_)] _]. unfold get in Hc. by rewrite Hidle in Hc. }
  rewrite (get_default_present _ _ _ _ Hcid) in Hrun.
  rewrite (get_present _ _ _ Hidle) in Hrun.
  rewrite (get_present _ _ _ Hcid), (get_present _ _ _ Hidle).
  destruct (py_int (PStr cid)) as [n|] eqn:Hn; [|done].
  rewrite Hafk in Hrun.
  destruct (py_int (PStr (afk_channel σ))) as [a|] eqn:Ha; [|done].
  destruct (Z.eqb_spec n a) as [->|Hne]; cbn in Hrun.
  { injection Hrun as <- <-. right. split; [done|].
    intros [[(_&_&?&?&?&?&?) _] _]. congruence. }
  destruct (py_int (PStr idle)) as [ms|] eqn:Hms; [|done].
  destruct (truediv_1000 ms) as [q|] eqn:Hq; [|done].
  destruct (Qle_bool q (idle_time_seconds cfg)) eqn:Hle; cbn in Hrun;
    injection Hrun as <- <-.
  - right. split; [done|]. intros [[_ (?&q'&?&Hq'&Hlt)] _].
    simplify_eq. assert (q' = q) as -> by congruence.
    apply Qle_bool_iff in Hle. exact (Qlt_not_le _ _ Hlt Hle).
  - left. split; [done|]. split.
    + split; [done|]. split; [done|]. by exists n, a.
    + exists ms, q. repeat split; try done.
      apply Qnot_le_lt. intros Hle'%Qle_bool_iff. congruence.
Qed.

Lemma get_idle_list_spec (σ : IdleMover Srv) L σ' :
  get_idle_list cfg σ = (Ok L, σ') →
  (∀ client, client ∈ L →
     client ∈ default [] (idle_list σ) ∧ idle_candidate cfg (afk_channel σ) client)
  ∧ (∀ client, client ∈ default [] (idle_list σ) →
       idle_candidate cfg (afk_channel σ) client →
       not_excluded cfg (servergroup_ids_to_ignore σ) client → client ∈ L).
Proof.
  unfold get_idle_list. intros Hrun. run_in Hrun.
  destruct (idle_list σ) as [clients|] eqn:Hl; cbn.
  - match type of Hrun with context [for_in clients [] _ ?s] => set (σa := s) in * end.
    destruct (for_in clients [] (get_idle_list_body cfg) σa) as [[L1|] σ1] eqn:Hloop;
      [|done].
    injection Hrun as <- <-.
    destruct (for_in_appends reads
                (λ (σ : IdleMover Srv) c, idle_candidate cfg (afk_channel σ) c)
                (λ (σ : IdleMover Srv) c, idle_candidate cfg (afk_channel σ) c
                   ∧ not_excluded cfg (servergroup_ids_to_ignore σ) c)
                (get_idle_list_body cfg)) with (4 := Hloop)
      as (l' & -> & Hnec & Hsuf).
    + apply get_idle_list_body_reads.
    + intros σ1' σ2' x (Ha&_&Hi&_). rewrite Ha, Hi. done.
    + apply get_idle_list_body_spec.
    + cbn. split; [apply Hnec|]. intros c ? ? ?. by apply Hsuf.
  - injection Hrun as <- <-. split; [by intros c ?%elem_of_nil|].
    by intros c ?%elem_of_nil.
Qed.

Lemma get_back_list_body_returns acc client (σ : IdleMover Srv) :
  readable (afk_channel σ) client →
  ∃ acc' σ', get_back_list_body cfg acc client σ = (Ok acc', σ')
             ∧ afk_channel σ' = afk_channel σ.
Proof.
  intros Hreadable.
  pose proof (get_back_list_body_reads cfg acc client σ) as (Hafk & _).
  destruct (get_back_list_body cfg acc client σ) as [[acc'|e] σ'] eqn:Hrun;
    [by exists acc', σ'|exfalso].
  revert Hrun. unfold get_back_list_body, in_keys. intros Hrun. run_in Hrun.
  destruct (client !! "cid") as [cid|] eqn:Hcid; cbn in Hrun; [|done].
  destruct (client !! "client_idle_time") as [idle|] eqn:Hidle; cbn in Hrun; [|done].
  destruct Hreadable as (n & a & ms & q & Hn & Ha & Hms & Hq); [by eexists..|].
  rewrite (get_default_present _ _ _ _ Hcid) in Hrun.
  rewrite (get_present _ _ _ Hcid) in Hn. rewrite Hn, Ha in Hrun.
  destruct (n =? a); cbn in Hrun; [|done].
  rewrite Hms, Hq in Hrun. by destruct (Qle_bool q (idle_time_seconds cfg)).
Qed.

(** [get_back_list] returns a list when the clients of the snapshot are
    readable. *)
Lemma get_back_list_returns (σ : IdleMover Srv) :
  Forall (readable (afk_channel σ)) (default [] (idle_list σ)) →
  ∃ L σ', get_back_list cfg σ = (Ok L, σ').
Proof.
  intros Hall. unfold get_back_list, mbind, M_bind, bind, read.
  destruct (idle_list σ) as [clients|]; cbn in Hall; [|by eexists _, _].
  destruct (for_in_returns (λ τ : IdleMover Srv, afk_channel τ = afk_channel σ) clients
              (get_back_list_body cfg)) with (acc := @nil dict) (σ := σ)
    as (L & σ' & -> & _); [|done|by eexists _, _].
  intros client Hin acc τ Hτ.
  destruct (get_back_list_body_returns acc client τ) as (acc' & τ' & ? & ?).
  { rewrite Hτ. by apply (proj1 (Forall_forall _ _) Hall). }
  exists acc', τ'. split; [done|congruence].
Qed.

Lemma client_is_in_group_returns client (σ : IdleMover Srv) :
  (servergroups_to_exclude cfg = None
   ∨ ∀ srv : Srv, answered_or_refused
       (fst (servergroupsbyclientid
               ("cldbid=" +:+ py_format (get client "client_database_id")) srv))) →
  ∃ b σ', client_is_in_group cfg client σ = (Ok b, σ').
Proof.
  unfold client_is_in_group. intros Hok.
  destruct (servergroups_to_exclude cfg) as [groups|]; [|by eexists _, _].
  destruct Hok as [|Hok]; [done|]. specialize (Hok (ts3conn σ)).
  unfold get_servergroups_by_client, try_except, call.
  unfold mbind, M_bind, bind, mret, M_ret, ret, eval, read, log, raise.
  destruct (servergroupsbyclientid _ (ts3conn σ)) as [[l|e] s]; cbn in *.
  - destruct (existsb _ _); by eexists _, _.
  - rewrite Hok. cbn. by eexists _, _.
Qed.

Lemma get_idle_list_body_returns acc client (σ : IdleMover Srv) :
  readable (afk_channel σ) client →
  (servergroups_to_exclude cfg = None
   ∨ ∀ srv : Srv, answered_or_refused
       (fst (servergroupsbyclientid
               ("cldbid=" +:+ py_format (get client "client_database_id")) srv))) →
  ∃ acc' σ', get_idle_list_body cfg acc client σ = (Ok acc', σ')
             ∧ afk_channel σ' = afk_channel σ.
Proof.
  intros Hreadable Hgroups.
  pose proof (get_idle_list_body_reads cfg acc client σ) as (Hafk & _).
  destruct (get_idle_list_body cfg acc client σ) as [[acc'|e] σ'] eqn:Hrun;
    [by exists acc', σ'|exfalso].
  revert Hrun. unfold get_idle_list_body, in_keys. intros Hrun. run_in Hrun.
  destruct (client !! "cid") as [cid|] eqn:Hcid; cbn in Hrun; [|done].
  case_bool_decide; cbn in Hrun; [done|].
  match type of Hrun with context [client_is_in_group cfg client ?τ] =>
    pose proof (client_is_in_group_reads cfg client τ) as (Hafk1 & _);
    destruct (client_is_in_group_returns client τ Hgroups) as (b & σ1 & Hb);
    rewrite Hb in Hrun, Hafk1
  end.
  cbn in Hafk1. destruct b; [done|].
  destruct (client !! "client_idle_time") as [idle|] eqn:Hidle; cbn in Hrun; [|done].
  destruct Hreadable as (n & a & ms & q & Hn & Ha & Hms & Hq); [by eexists..|].
  rewrite (get_default_present _ _ _ _ Hcid) in Hrun.
  rewrite (get_present _ _ _ Hcid) in Hn. rewrite Hn, Hafk1, Ha in Hrun.
  destruct (n =? a); cbn in Hrun; [done|].
  rewrite Hms, Hq in Hrun. by destruct (Qle_bool q (idle_time_seconds cfg)).
Qed.

(** [get_idle_list] returns a list when the clients of the snapshot are
    readable and, where groups are excluded, the query for the groups of a
    client is answered or refused. *)
Lemma get_idle_list_returns (σ : IdleMover Srv) :
  Forall (readable (afk_channel σ)) (default [] (idle_list σ)) →
  (servergroups_to_exclude cfg = None
   ∨ ∀ client (srv : Srv), answered_or_refused
       (fst (servergroupsbyclientid
               ("cldbid=" +:+ py_format (get client "client_database_id")) srv))) →
  ∃ L σ', get_idle_list cfg σ = (Ok L, σ').
Proof.
  intros Hall Hgroups. unfold get_idle_list, mbind, M_bind, bind, read.
  destruct (idle_list σ) as [clients|]; cbn in Hall; [|by eexists _, _].
  rewrite log_run.
  destruct (for_in_returns (λ τ : IdleMover Srv, afk_channel τ = afk_channel σ) clients
              (get_idle_list_body cfg)) with (acc := @nil dict)
       (σ := logging [{| lvl := debug; msg := "get_idle_list current awaylist: " |}] σ)
    as (L & σ' & -> & _); [|done|by eexists _, _].
  intros client Hin acc τ Hτ.
  destruct (get_idle_list_body_returns acc client τ) as (acc' & τ' & ? & ?).
  { rewrite Hτ. by apply (proj1 (Forall_forall _ _) Hall). }
  { destruct Hgroups as [|Hgroups]; [by left|right]. apply Hgroups. }
  exists acc', τ'. split; [done|congruence].
Qed.

End Classifier.

(** ** The candidate lists *)

Section Candidates.
Context {Srv : Type} `{!TS3Connection Srv}.
Variable cfg : config.

(** C8. [get_back_list] returns exactly the clients of the snapshot that
    sit in the AFK channel and whose idle time in seconds is at most
    [idle_time_seconds] (a client that lacks [cid] or [client_idle_time]
    is none of them), and it leaves every field of the object but the
    connection and the log as it was: no entry of [client_channels]
    changes and no move is issued, also when it raises.  The idle time in
    seconds is the [client_idle_time], in milliseconds, over 1000: a
    returned client that was idle for [idle] ms has
    [(idle - 1) / 1000 < idle_time_seconds], a client of the snapshot in
    the AFK channel with [idle / 1000 <= idle_time_seconds] is returned,
    and for a threshold of a whole number [k] of milliseconds the clients
    returned are exactly those of the snapshot in the AFK channel with
    [idle <= k]. *)
Theorem get_back_list_candidates :
  (∀ (σ σ' : IdleMover Srv) L,
     get_back_list cfg σ = (Ok L, σ') →
     ∀ client, client ∈ L ↔
       client ∈ default [] (idle_list σ)
       ∧ back_candidate cfg (afk_channel σ) client)
  ∧ (∀ afk client, back_candidate cfg afk client →
       is_Some (client !! "cid") ∧ is_Some (client !! "client_idle_time"))
  ∧ (∀ σ : IdleMover Srv, reads σ (snd (get_back_list cfg σ)))
  ∧ (∀ (σ σ' : IdleMover Srv) L,
       get_back_list cfg σ = (Ok L, σ') →
       (∀ client idle, client ∈ L →
          py_int (get client "client_idle_time") = Ok idle →
          0 < idle < 2 ^ 53 →
          ((idle - 1) # 1000 < idle_time_seconds cfg)%Q)
       ∧ (PyFloat.is_double (idle_time_seconds cfg) →
          ∀ client cid idle, client ∈ default [] (idle_list σ) →
            py_int (get client "cid") = Ok cid →
            py_int (PStr (afk_channel σ)) = Ok cid →
            py_int (get client "client_idle_time") = Ok idle →
            0 <= idle < 2 ^ 53 →
            (idle # 1000 <= idle_time_seconds cfg)%Q →
            client ∈ L)
       ∧ (PyFloat.is_double (idle_time_seconds cfg) →
          ∀ k client cid afk idle,
            (idle_time_seconds cfg == k # 1000)%Q →
            py_int (get client "cid") = Ok cid →
            py_int (PStr (afk_channel σ)) = Ok afk →
            py_int (get client "client_idle_time") = Ok idle →
            0 <= idle < 2 ^ 53 →
            (client ∈ L ↔
               client ∈ default [] (idle_list σ) ∧ cid = afk ∧ idle <= k))).
Proof.
  split; [|split; [|split]].
  - intros σ σ' L Hrun. by apply get_back_list_spec with σ'.
  - intros afk client (cid & a & idle & q & Hcid & _ & _ & Hidle & _).
    unfold get in *. split.
    + destruct (client !! "cid"); [by eexists|done].
    + destruct (client !! "client_idle_time"); [by eexists|done].
  - apply get_back_list_reads.
  - intros σ σ' L Hrun. pose proof (get_back_list_spec cfg σ L σ' Hrun) as Hspec.
    assert (∀ client idle, client ∈ L →
              py_int (get client "client_idle_time") = Ok idle →
              0 < idle < 2 ^ 53 →
              ((idle - 1) # 1000 < idle_time_seconds cfg)%Q) as Habove.
    { intros client idle Hin Hidle Hrange.
      apply Hspec in Hin as [_ (cid & a & idle' & q & _ & _ & _ & Hidle' & Hq & Hle)].
      assert (idle' = idle) as -> by congruence.
      destruct (truediv_1000_above idle Hrange) as (q' & Hq' & Hlt).
      assert (q' = q) as -> by congruence.
      by apply Qlt_le_trans with q. }
    assert (PyFloat.is_double (idle_time_seconds cfg) →
            ∀ client cid idle, client ∈ default [] (idle_list σ) →
              py_int (get client "cid") = Ok cid →
              py_int (PStr (afk_channel σ)) = Ok cid →
              py_int (get client "client_idle_time") = Ok idle →
              0 <= idle < 2 ^ 53 →
              (idle # 1000 <= idle_time_seconds cfg)%Q →
              client ∈ L) as Hbelow.
    { intros Hdouble client cid idle Hin Hcid Hafk Hidle Hrange Hle.
      apply Hspec. split; [done|].
      assert (∃ q, truediv_1000 idle = Ok q) as [q Hq].
      { destruct (decide (idle = 0)) as [->|Hne]; [by eexists|].
        destruct (truediv_1000_above idle ltac:(lia)) as (q & Hq & _). by exists q. }
      exists cid, cid, idle, q. repeat split; try done.
      by apply truediv_1000_le with idle. }
    split; [done|]. split; [done|].
    intros Hdouble k client cid afk idle Hk Hcid Hafk Hidle Hrange. split.
    + intros Hin. pose proof (Hin) as Hin'.
      apply Hspec in Hin' as [Hsnap (cid' & afk' & idle' & q & Hcid' & Hafk' & Heq & Hidle'
                                       & Hq & Hle)].
      split; [done|]. split; [congruence|].
      assert (idle' = idle) as -> by congruence.
      destruct (decide (idle = 0)) as [->|Hne].
      * assert (q = 0 # 1)%Q as -> by (cbv in Hq; congruence).
        rewrite Hk in Hle. unfold Qle in Hle. cbn [Qnum Qden] in Hle. lia.
      * specialize (Habove client idle Hin Hidle ltac:(lia)).
        rewrite Hk in Habove. unfold Qlt in Habove. cbn [Qnum Qden] in Habove. lia.
    + intros (Hsnap & -> & Hle).
      apply (Hbelow Hdouble client afk idle); try done.
      rewrite Hk. unfold Qle. cbn [Qnum Qden]. lia.
Qed.

(** C10. No client is both in the list of [get_idle_list] and in the list
    of [get_back_list] when the two are computed with the same AFK
    channel, whatever the snapshots are: the first keeps clients outside
    that channel only, the second clients inside it only. *)
Theorem candidate_lists_disjoint (σ σ' τ τ' : IdleMover Srv) idle_clients back_clients :
  afk_channel τ = afk_channel σ →
  get_idle_list cfg σ = (Ok idle_clients, σ') →
  get_back_list cfg τ = (Ok back_clients, τ') →
  ∀ client, client ∈ idle_clients → client ∈ back_clients → False.
Proof.
  intros Hafk Hidle Hback client Hi Hb.
  apply get_idle_list_spec in Hidle as [Hnec _].
  apply (get_back_list_spec cfg) with (client := client) in Hback.
  destruct (Hnec client Hi) as [_ [(_ & _ & cid & a & Hcid & Ha & Hne) _]].
  apply Hback in Hb as [_ (cid' & a' & _ & _ & Hcid' & Ha' & Heq & _)].
  rewrite Hafk in Ha'. congruence.
Qed.

(** C2. A client is in the list of [get_idle_list] only if its idle time
    in milliseconds, divided by 1000, exceeds [idle_time_seconds]: it is
    not in the list when the two are equal, and it is in the list when it
    is one millisecond above the threshold (below [2^53] ms, where the
    [float] quotient tells two neighbouring milliseconds apart) and meets
    the other conditions. *)
Theorem idle_threshold_is_strict (σ σ' : IdleMover Srv) L :
  PyFloat.is_double (idle_time_seconds cfg) →
  get_idle_list cfg σ = (Ok L, σ') →
  (∀ client, client ∈ L →
     idle_longer cfg client
     ∧ ∃ idle, py_int (get client "client_idle_time") = Ok idle
               ∧ (idle_time_seconds cfg < idle # 1000)%Q)
  ∧ (∀ client idle, client ∈ L →
       py_int (get client "client_idle_time") = Ok idle →
       ¬ (idle # 1000 == idle_time_seconds cfg)%Q)
  ∧ (∀ client idle, client ∈ default [] (idle_list σ) →
       movable (afk_channel σ) client →
       not_excluded cfg (servergroup_ids_to_ignore σ) client →
       py_int (get client "client_idle_time") = Ok idle →
       0 < idle < 2 ^ 53 →
       ((idle - 1) # 1000 == idle_time_seconds cfg)%Q →
       client ∈ L).
Proof.
  intros Hdouble Hrun. apply get_idle_list_spec in Hrun as [Hnec Hsuf].
  assert (∀ client, client ∈ L →
     idle_longer cfg client
     ∧ ∃ idle, py_int (get client "client_idle_time") = Ok idle
               ∧ (idle_time_seconds cfg < idle # 1000)%Q) as Hstrict.
  { intros client Hin. destruct (Hnec client Hin) as [_ [_ Hlong]].
    split; [done|]. destruct Hlong as (idle & q & Hidle & Hq & Hlt).
    exists idle. split; [done|]. apply Qnot_le_lt. intros Hle.
    apply (Qlt_not_le _ _ Hlt). by apply truediv_1000_le with idle. }
  split; [done|]. split.
  - intros client idle Hin Hidle Heq.
    destruct (Hstrict client Hin) as [_ (idle' & Hidle' & Hlt)].
    assert (idle' = idle) as -> by congruence.
    rewrite Heq in Hlt. by apply Qlt_irrefl in Hlt.
  - intros client idle Hin Hmov Hno Hidle Hrange Heq.
    apply Hsuf; [done| |done]. split; [done|].
    destruct (truediv_1000_above idle Hrange) as (q & Hq & Hlt).
    exists idle, q. split; [done|]. split; [done|]. by rewrite <- Heq.
Qed.

End Candidates.


(** ** Moves and the entries of [client_channels] *)

Section Moves.
Context {Srv : Type} `{!TS3Connection Srv}.
Variable cfg : config.

Lemma steps_keeps_untouched {A} (m : M A) : steps (@keeps Srv) m → steps untouched m.
Proof. apply steps_mono, keeps_untouched. Qed.

Lemma steps_keeps_only_adds {A} (m : M A) : steps (@keeps Srv) m → steps only_adds m.
Proof. apply steps_mono, keeps_only_adds. Qed.

Lemma steps_keeps_only_removes {A} (m : M A) :
  steps (@keeps Srv) m → steps only_removes m.
Proof. apply steps_mono, keeps_only_removes. Qed.

Lemma steps_reads_keeps {A} (m : M A) : steps (@reads Srv) m → steps keeps m.
Proof. apply steps_mono, reads_keeps. Qed.

Lemma get_default_str (client : dict) k s :
  get_default client k (PStr s) = PStr (get_str client k s).
Proof. unfold get_default, get_str. by destruct (client !! k). Qed.

Lemma do_clientmove_run cid clid (σ : IdleMover Srv) :
  do_clientmove cid clid σ
  = (fst (clientmove cid clid (ts3conn σ)),
     moved σ (snd (clientmove cid clid (ts3conn σ)))
       {| to_cid := cid; moved_clid := clid;
          returned := match fst (clientmove cid clid (ts3conn σ)) with
                      | Ok _ => true | Raise _ => false end |}).
Proof.
  unfold do_clientmove, call. by destruct (clientmove cid clid (ts3conn σ)) as [[[]|] s].
Qed.

(** The two statements of the [try] block of [move_back] and of
    [fallback_action]. *)
Lemma move_then_del_removes cid n :
  steps (@only_removes Srv) (do_clientmove cid n ;; del_client_channels (py_str n)).
Proof.
  intros σ. unfold mbind, M_bind, bind. rewrite do_clientmove_run.
  destruct (clientmove cid n (ts3conn σ)) as [[[]|e] s]; cbn [fst snd].
  - unfold del_client_channels, mbind, M_bind, bind, read, set_client_channels, raise.
    cbn [client_channels moved]. unfold only_removes.
    case_bool_decide as Hk; cbn [fst snd client_channels afk_channel moves moved].
    + split; [done|]. eexists. split; [done|]. intros k.
      destruct (decide (k = py_str n)) as [->|Hne].
      * right. split; [apply lookup_delete_eq|]. exists n, cid.
        split; [done|]. apply list_elem_of_here.
      * left. by apply lookup_delete_ne.
    + split; [done|]. eexists. split; [done|]. by left.
  - split; [done|]. eexists. split; [done|]. by left.
Qed.

(** The [try] block of [move_to_afk]. *)
Lemma move_then_insert_adds (client : dict) :
  steps (@only_adds Srv)
    (afk ← read afk_channel;
     clid ← eval (py_int (get_default client "clid" (PStr "-1")));
     do_clientmove (PStr afk) clid ;;
     set_client_channels
       (insert (get_str client "clid" "-1") (get_str client "cid" "0"))).
Proof.
  intros σ. unfold mbind, M_bind, bind, read, eval. rewrite get_default_str.
  destruct (py_int (PStr (get_str client "clid" "-1"))) as [n|] eqn:Hn; [|reflexivity].
  rewrite do_clientmove_run.
  destruct (clientmove (PStr (afk_channel σ)) n (ts3conn σ)) as [[[]|e] s]; cbn [fst snd].
  - unfold set_client_channels, only_adds.
    cbn [fst snd client_channels afk_channel moves moved].
    split; [done|]. eexists. split; [done|]. intros k.
    destruct (decide (k = get_str client "clid" "-1")) as [->|Hne].
    + right. rewrite lookup_insert_eq. split; [by eexists|]. exists n.
      split; [done|]. apply list_elem_of_here.
    + left. by apply lookup_insert_ne.
  - split; [done|]. eexists. split; [done|]. by left.
Qed.

Ltac keeps_prim :=
  idtac; lazymatch goal with
  | |- steps _ (log _ _) => apply keeps_log
  | |- steps _ (call _) => apply keeps_call
  | |- steps _ (set_idle_list _) => apply keeps_set_idle_list
  | |- steps _ (set_servergroup_ids_to_ignore _) =>
      apply keeps_set_servergroup_ids_to_ignore
  | |- steps _ (get_idle_list _) => apply steps_reads_keeps, get_idle_list_reads
  | |- steps _ (get_back_list _) => apply steps_reads_keeps, get_back_list_reads
  | |- steps _ (get_channel_by_name _) =>
      apply steps_reads_keeps, get_channel_by_name_reads
  | |- steps _ update_client_list => apply update_client_list_keeps
  end.

Lemma move_to_afk_dry_run_keeps :
  dry_run cfg = true → steps (@keeps Srv) (move_to_afk cfg).
Proof.
  intros Hdry. unfold move_to_afk, move_to_afk_body. rewrite Hdry.
  steps_with keeps_prim.
Qed.

Ltac adds_prim :=
  idtac; lazymatch goal with
  | |- steps _ (mbind _ (read afk_channel)) => apply move_then_insert_adds
  | |- _ => apply steps_keeps_only_adds; keeps_prim
  end.

Lemma move_to_afk_only_adds : steps (@only_adds Srv) (move_to_afk cfg).
Proof. unfold move_to_afk, move_to_afk_body. steps_with adds_prim. Qed.

Lemma move_all_afk_only_adds : steps (@only_adds Srv) (move_all_afk cfg).
Proof.
  unfold move_all_afk.
  steps_with ltac:(idtac; lazymatch goal with
                   | |- steps _ (move_to_afk _) => apply move_to_afk_only_adds
                   | |- _ => adds_prim
                   end).
Qed.

Ltac removes_prim :=
  idtac; lazymatch goal with
  | |- steps _ (mbind _ (do_clientmove _ _)) => apply move_then_del_removes
  | |- _ => apply steps_keeps_only_removes; keeps_prim
  end.

Lemma fallback_action_only_removes n :
  steps (@only_removes Srv) (fallback_action cfg n).
Proof. unfold fallback_action. steps_with removes_prim. Qed.

Ltac removes_calls :=
  idtac; lazymatch goal with
  | |- steps _ (fallback_action _ _) => apply fallback_action_only_removes
  | |- _ => removes_prim
  end.

Lemma move_back_only_removes channel_id n :
  steps (@only_removes Srv) (move_back cfg channel_id n).
Proof. unfold move_back. steps_with removes_calls. Qed.

Lemma channel_forbids_only_removes channel_info channel_details n :
  steps (@only_removes Srv) (channel_forbids cfg channel_info channel_details n).
Proof. unfold channel_forbids. steps_with removes_calls. Qed.

Lemma move_all_back_only_removes : steps (@only_removes Srv) (move_all_back cfg).
Proof.
  unfold move_all_back, move_all_back_body, move_back_checked.
  steps_with ltac:(idtac; lazymatch goal with
                   | |- steps _ (move_back _ _ _) => apply move_back_only_removes
                   | |- steps _ (channel_forbids _ _ _ _) =>
                       apply channel_forbids_only_removes
                   | |- _ => removes_prim
                   end).
Qed.

Lemma tick_reconciles : steps (@reconciles Srv) (tick cfg).
Proof.
  unfold tick.
  steps_with ltac:(idtac; lazymatch goal with
    | |- steps _ (move_all_back _) =>
        apply (steps_mono only_removes), move_all_back_only_removes;
        apply only_removes_reconciles
    | |- steps _ (move_all_afk _) =>
        apply (steps_mono only_adds), move_all_afk_only_adds;
        apply only_adds_reconciles
    | |- _ =>
        apply (steps_mono keeps);
        [ intros ? ? ?; by apply only_adds_reconciles, keeps_only_adds
        | keeps_prim ]
    end).
Qed.

(** A pass of the loop catches whatever its steps raise. *)
Lemma tick_returns (σ : IdleMover Srv) : fst (tick cfg σ) = Ok tt.
Proof.
  unfold tick. unfold mbind at 1. unfold M_bind, bind.
  rewrite log_run. cbv beta iota. unfold try_except.
  match goal with |- context [match ?m with _ => _ end] =>
    destruct m as [[[]|e] τ1] end; [done|].
  unfold mbind, M_bind, bind. by rewrite !log_run.
Qed.

(** The loop returns, whatever its passes met, and leaves no entry. *)
Lemma auto_move_all_clears timeouts (σ : IdleMover Srv) :
  fst (auto_move_all cfg timeouts σ) = Ok tt
  ∧ client_channels (snd (auto_move_all cfg timeouts σ)) = ∅.
Proof.
  revert σ. induction timeouts as [|n IH]; intros σ; cbn [auto_move_all].
  - done.
  - unfold mbind, M_bind, bind. pose proof (tick_returns σ) as Htick.
    destruct (tick cfg σ) as [[[]|e] σ1]; [|done]. apply IH.
Qed.

(** C1. Entries of [client_channels] are written by [move_to_afk] only,
    and only for a client whose [clientmove] to the AFK channel returned;
    an entry is deleted by [move_all_back] and [fallback_action] only for
    a client whose [clientmove] (back to its channel, or to the fall-back
    channel) returned, and by [client_left] for the client that left.
    [update_client_list], [update_servergroup_ids_list], [get_idle_list]
    and [get_back_list] change no entry, and a pass of the loop changes
    entries in these ways only.  (The loop empties the dictionary when it
    stops, see [auto_move_all_clears].) *)
Theorem client_channels_single_owner :
  steps (@only_adds Srv) (move_to_afk cfg)
  ∧ steps (@only_adds Srv) (move_all_afk cfg)
  ∧ steps (@only_removes Srv) (move_all_back cfg)
  ∧ (∀ client_id, steps (@only_removes Srv) (fallback_action cfg client_id))
  ∧ steps (@untouched Srv) update_client_list
  ∧ steps (@untouched Srv) (update_servergroup_ids_list cfg)
  ∧ steps (@untouched Srv) (get_idle_list cfg)
  ∧ steps (@untouched Srv) (get_back_list cfg)
  ∧ steps (@reconciles Srv) (tick cfg)
  ∧ (∀ (σ : IdleMover Srv) client_id,
       ∃ σ', client_left (Some σ) client_id = Some σ'
             ∧ client_channels σ' = delete (py_str client_id) (client_channels σ)
             ∧ moves σ' = moves σ)
  ∧ (∀ client_id, client_left (None : option (IdleMover Srv)) client_id = None).
Proof.
  split; [apply move_to_afk_only_adds|].
  split; [apply move_all_afk_only_adds|].
  split; [apply move_all_back_only_removes|].
  split; [apply fallback_action_only_removes|].
  split; [apply steps_keeps_untouched, update_client_list_keeps|].
  split; [apply steps_keeps_untouched, update_servergroup_ids_list_keeps|].
  split; [apply steps_keeps_untouched, steps_reads_keeps, get_idle_list_reads|].
  split; [apply steps_keeps_untouched, steps_reads_keeps, get_back_list_reads|].
  split; [apply tick_reconciles|].
  split; [|done].
  intros σ client_id. unfold client_left. case_bool_decide as Hk.
  - eexists. split; [done|]. done.
  - exists σ. split; [done|]. split; [|done].
    symmetry. apply delete_id. by apply eq_None_not_Some.
Qed.

(** C7. With [dry_run] set, [move_to_afk] (and [move_all_afk] around it)
    issues no [clientmove] and leaves [client_channels] as it was,
    whatever the snapshot and with it the list of idle clients is. *)
Theorem dry_run_moves_nothing :
  dry_run cfg = true →
  ∀ σ : IdleMover Srv,
    untouched σ (snd (move_to_afk cfg σ)) ∧ untouched σ (snd (move_all_afk cfg σ)).
Proof.
  intros Hdry σ.
  pose proof (move_to_afk_dry_run_keeps Hdry) as Hkeeps. split.
  - apply keeps_untouched, Hkeeps.
  - apply keeps_untouched. revert σ. change (steps (@keeps Srv) (move_all_afk cfg)).
    unfold move_all_afk.
    steps_with ltac:(idtac; lazymatch goal with
                     | |- steps _ (move_to_afk _) => exact Hkeeps
                     | |- _ => keeps_prim
                     end).
Qed.

End Moves.

(** ** Moving back *)

Section Outcomes.
Context {Srv : Type} `{!TS3Connection Srv}.
Variable cfg : config.

(** C3. When the [clientmove] of [move_back] returns, the entry of the
    client is deleted (the client being tracked under [str(client_id)]);
    when it raises a query error, whatever its code, at least one record
    is logged and [fallback_action] is run for the client. *)
Theorem move_back_outcomes channel_id client_id (σ : IdleMover Srv) s :
  (clientmove (PInt channel_id) client_id (ts3conn σ) = (Ok tt, s) →
   is_Some (client_channels σ !! py_str client_id) →
   ∃ σ', move_back cfg channel_id client_id σ = (Ok tt, σ')
         ∧ client_channels σ' = delete (py_str client_id) (client_channels σ))
  ∧ (∀ id message,
       clientmove (PInt channel_id) client_id (ts3conn σ)
       = (Raise (TS3QueryException id message), s) →
       ∃ records, records ≠ []
         ∧ Forall (λ r, lvl r = error ∨ lvl r = exception) records
         ∧ move_back cfg channel_id client_id σ
           = fallback_action cfg client_id
               (logging records
                  (moved σ s {| to_cid := PInt channel_id; moved_clid := client_id;
                                returned := false |}))).
Proof.
  split.
  - intros Hmove Htracked. unfold move_back, try_except, mbind, M_bind, bind.
    rewrite do_clientmove_run, Hmove. cbn [fst snd].
    unfold del_client_channels, mbind, M_bind, bind, read, set_client_channels.
    cbn [client_channels moved]. rewrite bool_decide_eq_true_2 by done.
    eexists. split; [done|]. done.
  - intros id message Hmove. unfold move_back, try_except, mbind, M_bind, bind.
    rewrite do_clientmove_run, Hmove. cbn [fst snd].
    set (σ1 := moved σ s _).
    unfold mret, M_ret, ret.
    destruct (id =? 768) eqn:H768; destruct ((id =? 777) || (id =? 778)) eqn:H777;
      destruct (id =? 781) eqn:H781;
      repeat (rewrite log_run; cbv beta iota); cbv beta iota;
      rewrite ?logging_app; cbn [app]; eexists; (split; [|split; [|reflexivity]]);
      try done;
      repeat match goal with
             | |- Forall _ _ => constructor
             | |- _ ∨ _ => cbn; first [by left | by right]
             end.
Qed.

(** C4. When groups are excluded by the configuration and the query for
    the list of server groups raises a query error, the error is logged and
    the list of ignored group ids is empty, but
    [update_servergroup_ids_list] does not return: reading the local
    variable [servergroup_list], which the handler left unassigned, raises
    [UnboundLocalError]. *)
Theorem servergrouplist_failure_escapes groups (σ : IdleMover Srv) id message s :
  servergroups_to_exclude cfg = Some groups →
  servergrouplist (ts3conn σ) = (Raise (TS3QueryException id message), s) →
  ∃ σ', update_servergroup_ids_list cfg σ
        = (Raise (UnboundLocalError "servergroup_list"), σ')
        ∧ servergroup_ids_to_ignore σ' = []
        ∧ logged σ' = logged σ ++ [{| lvl := exception;
               msg := "Failed to get the list of available servergroups." |}].
Proof.
  intros Hgroups Hquery. unfold update_servergroup_ids_list. rewrite Hgroups.
  unfold try_except, mbind, M_bind, bind, set_servergroup_ids_to_ignore.
  rewrite call_run. cbn [ts3conn]. rewrite Hquery. cbn [fst snd is_TS3QueryException].
  rewrite log_run. cbn. eexists. split; [done|]. done.
Qed.

(** C5. When the [channelinfo] query for the channel a tracked client came
    from raises the query error 768 (the channel is gone), the round of
    [move_all_back] logs the error and goes on to the next client:
    [fallback_action] is not run, no [clientmove] is issued and the entry
    of the client stays. *)
Theorem channelinfo_gone_skips_fallback channel_list channel_info client
    (σ : IdleMover Srv) clid origin channel_id client_id message s :
  client !! "clid" = Some clid →
  client_channels σ !! clid = Some origin →
  py_int (PStr origin) = Ok channel_id →
  py_int (PStr clid) = Ok client_id →
  channelinfo ("cid=" +:+ py_str channel_id) (ts3conn σ)
  = (Raise (TS3QueryException 768 message), s) →
  move_all_back_body cfg channel_list channel_info client σ
  = (Ok channel_info,
     logging [{| lvl := error;
                 msg := "Failed to get channelinfo as the channel does not exist anymore: " |}]
       (answered s
          (logging [{| lvl := info; msg := "Moving a client back!" |};
                    {| lvl := debug; msg := "Client: " |};
                    {| lvl := debug; msg := "Saved channel list keys:" |}] σ))).
Proof.
  intros Hclid Htracked Horigin Hid Hquery.
  unfold move_all_back_body, mbind, M_bind, bind, read, eval.
  unfold get_default, get_val, get, in_keys. rewrite Hclid, Htracked.
  rewrite bool_decide_eq_true_2 by done. cbn [negb].
  rewrite !log_run, !logging_app. cbn [app client_channels logging].
  rewrite Htracked, Horigin, Hid.
  unfold try_except, mbind, M_bind, bind. rewrite call_run. cbn [ts3conn logging].
  rewrite Hquery. cbn [fst snd Z.eqb Pos.eqb]. rewrite log_run. reflexivity.
Qed.




(** C9, as amended. The handler of the [channelinfo] query neither raises
    again nor assigns [channel_info] when the error code is not 768.  When
    moreover [resp_channel_settings] is set, the channel the client came
    from is in the channel list of the pass and no earlier round of the
    pass has assigned [channel_info], the round raises [UnboundLocalError]
    where it reads the variable; the rounds for the remaining clients are
    not run, [move_all_back] raises the exception in turn, and [tick]
    catches it and returns. *)
Theorem unassigned_channel_info_escapes channel_list client rest
    (σ : IdleMover Srv) clid origin channel_id client_id id message s details :
  resp_channel_settings cfg = true →
  client !! "clid" = Some clid →
  client_channels σ !! clid = Some origin →
  py_int (PStr origin) = Ok channel_id →
  py_int (PStr clid) = Ok client_id →
  channelinfo ("cid=" +:+ py_str channel_id) (ts3conn σ)
  = (Raise (TS3QueryException id message), s) →
  id ≠ 768 →
  find_channel channel_list channel_id = Ok (Some details) →
  let σ' := answered s
              (logging [{| lvl := info; msg := "Moving a client back!" |};
                        {| lvl := debug; msg := "Client: " |};
                        {| lvl := debug; msg := "Saved channel list keys:" |}] σ) in
  move_all_back_body cfg channel_list None client σ
  = (Raise (UnboundLocalError "channel_info"), σ')
  ∧ for_in (client :: rest) None (move_all_back_body cfg channel_list) σ
    = (Raise (UnboundLocalError "channel_info"), σ')
  ∧ (∀ τ τ1 s1,
       get_back_list cfg τ = (Ok (client :: rest), τ1) →
       channellist (ts3conn τ1) = (Ok channel_list, s1) →
       σ = answered s1
             (logging [{| lvl := debug; msg := "Moving clients back" |};
                       {| lvl := debug; msg := "Backlist is: %s" |};
                       {| lvl := debug; msg := "Saved channel list keys are: %s\n" |}] τ1) →
       move_all_back cfg τ = (Raise (UnboundLocalError "channel_info"), σ'))
  ∧ (∀ τ : IdleMover Srv, fst (tick cfg τ) = Ok tt).
Proof.
  intros Hresp Hclid Htracked Horigin Hid Hquery Hcode Hfind σ'.
  assert (move_all_back_body cfg channel_list None client σ
          = (Raise (UnboundLocalError "channel_info"), σ')) as Hbody.
  { unfold move_all_back_body, mbind, M_bind, bind, read, eval.
    unfold get_default, get_val, get, in_keys. rewrite Hclid, Htracked.
    rewrite bool_decide_eq_true_2 by done. cbn [negb].
    rewrite !log_run, !logging_app. cbn [app client_channels logging].
    rewrite Htracked, Horigin, Hid.
    unfold try_except, mbind, M_bind, bind. rewrite call_run. cbn [ts3conn logging].
    rewrite Hquery. cbn [fst snd].
    destruct (Z.eqb_spec id 768) as [|_]; [done|].
    unfold mret, M_ret, ret, move_back_checked, channel_forbids, mbind, M_bind, bind, eval.
    rewrite Hfind, Hresp. reflexivity. }
  split; [done|]. split.
  { cbn [for_in]. unfold bind. by rewrite Hbody. }
  split.
  - intros τ τ1 s1 Hback Hlist ->. unfold move_all_back, mbind, M_bind, bind.
    rewrite Hback. rewrite !log_run, !logging_app. cbn [app].
    unfold try_except, mbind, M_bind, bind. rewrite call_run. cbn [ts3conn logging].
    rewrite Hlist. cbn [fst snd mret M_ret ret].
    cbn [for_in]. unfold bind. rewrite Hbody. reflexivity.
  - apply tick_returns.
Qed.

End Outcomes.

Lemma is_double_600 : PyFloat.is_double (600 # 1).
Proof.
  exists 600, 1074. split; [reflexivity|]. split; [discriminate|].
  split; reflexivity.
Qed.

(** A run whose result is known determines the pair it returns. *)
Lemma run_fst {A S} (p : res A * S) (a : A) : fst p = Ok a → p = (Ok a, snd p).
Proof. destruct p as [r s]. cbn. by intros ->. Qed.

(** Closed decidable statements are settled by evaluating their decision. *)
Ltac by_computation := apply (bool_decide_eq_true_1 _); vm_compute; reflexivity.

Ltac run_by_computation := apply run_fst; by_computation.

(** With the groups Admin and Guest excluded, the refresh of the ignored
    group ids finds the ids 6 and 8, and the idle client of group 6 is not
    in the list of [get_idle_list]. *)
Example excluded_group_is_skipped :
  servergroup_ids_to_ignore
    (snd (update_servergroup_ids_list Scenario.with_exclusion
            (Scenario.mover Scenario.server_with_groups "10" (Some Scenario.snapshot))))
  = [PStr "6"; PStr "8"]
  ∧ fst (get_idle_list Scenario.with_exclusion
           (snd (update_servergroup_ids_list Scenario.with_exclusion
                   (Scenario.mover Scenario.server_with_groups "10"
                      (Some Scenario.snapshot)))))
    = Ok [Scenario.erin].
Proof. split; by_computation. Qed.

Lemma get_back_list_candidates_witness :
  (Scenario.bob ∈ [Scenario.bob; Scenario.carol] ↔
     Scenario.bob ∈ default [] (idle_list Scenario.watching)
     ∧ back_candidate Scenario.defaults (afk_channel Scenario.watching) Scenario.bob)
  ∧ fst (get_back_list Scenario.defaults Scenario.resting)
    = Ok [Scenario.bob; Scenario.frank]
  ∧ (Scenario.frank ∈ [Scenario.bob; Scenario.frank] ↔
       Scenario.frank ∈ default [] (idle_list Scenario.resting)
       ∧ 2 = 2 ∧ 600000 <= 600000)
  ∧ (Scenario.grace ∈ [Scenario.bob; Scenario.frank] ↔
       Scenario.grace ∈ default [] (idle_list Scenario.resting)
       ∧ 2 = 2 ∧ 600001 <= 600000).
Proof.
  destruct (get_back_list_candidates (Srv := Scenario.scripted) Scenario.defaults)
    as (Hiff & _ & _ & Hms).
  split.
  { apply (Hiff Scenario.watching (snd (get_back_list Scenario.defaults Scenario.watching))).
    run_by_computation. }
  split; [by_computation|].
  destruct (Hms Scenario.resting
              (snd (get_back_list Scenario.defaults Scenario.resting))
              [Scenario.bob; Scenario.frank]) as (_ & _ & Hexact).
  { run_by_computation. }
  split.
  - apply (Hexact is_double_600 600000 Scenario.frank 2 2 600000);
      [reflexivity|by_computation..|].
    split; [discriminate|reflexivity].
  - apply (Hexact is_double_600 600000 Scenario.grace 2 2 600001);
      [reflexivity|by_computation..|].
    split; [discriminate|reflexivity].
Defined.

Lemma candidate_lists_disjoint_witness :
  Scenario.alice ∈ [Scenario.alice; Scenario.erin]
  ∧ Scenario.alice ∉ [Scenario.bob; Scenario.carol].
Proof.
  split; [apply list_elem_of_here|]. intros Hback.
  refine (candidate_lists_disjoint Scenario.defaults
            Scenario.watching (snd (get_idle_list Scenario.defaults Scenario.watching))
            Scenario.watching (snd (get_back_list Scenario.defaults Scenario.watching))
            [Scenario.alice; Scenario.erin] [Scenario.bob; Scenario.carol]
            eq_refl _ _ Scenario.alice _ Hback).
  - run_by_computation.
  - run_by_computation.
  - apply list_elem_of_here.
Defined.

Lemma idle_threshold_is_strict_witness :
  (Scenario.dave ∉ [Scenario.alice; Scenario.erin])
  ∧ Scenario.erin ∈ [Scenario.alice; Scenario.erin].
Proof.
  destruct (idle_threshold_is_strict Scenario.defaults Scenario.watching
              (snd (get_idle_list Scenario.defaults Scenario.watching))
              [Scenario.alice; Scenario.erin])
    as (_ & Hequal & Habove).
  - exact is_double_600.
  - run_by_computation.
  - split.
    + intros Hin. apply (Hequal Scenario.dave 600000 Hin); [by_computation|reflexivity].
    + apply (Habove Scenario.erin 600001).
      * do 4 apply list_elem_of_further. apply list_elem_of_here.
      * split; [by eexists|]. split; [discriminate|]. exists 10, 2.
        split; [by_computation|]. split; [by_computation|discriminate].
      * by left.
      * by_computation.
      * split; reflexivity.
      * reflexivity.
Defined.

Lemma client_channels_single_owner_witness :
  reconciles (Scenario.mover Scenario.server "10" None)
    (snd (tick Scenario.defaults (Scenario.mover Scenario.server "10" None))).
Proof.
  destruct (client_channels_single_owner (Srv := Scenario.scripted) Scenario.defaults)
    as (_ & _ & _ & _ & _ & _ & _ & _ & Htick & _).
  apply Htick.
Defined.

Lemma dry_run_moves_nothing_witness :
  untouched Scenario.watching (snd (move_to_afk Scenario.with_dry_run Scenario.watching))
  ∧ untouched Scenario.watching (snd (move_all_afk Scenario.with_dry_run Scenario.watching)).
Proof. apply (dry_run_moves_nothing Scenario.with_dry_run). reflexivity. Defined.

Lemma move_back_outcomes_witness :
  (∃ σ', move_back Scenario.defaults 10 6 (Scenario.mover Scenario.server "10" None)
         = (Ok tt, σ')
         ∧ client_channels σ'
           = delete (py_str 6)
               (client_channels (Scenario.mover Scenario.server "10" None)))
  ∧ (∃ records, records ≠ []
       ∧ Forall (λ r, lvl r = error ∨ lvl r = exception) records
       ∧ move_back Scenario.with_fallback 10 6
           (Scenario.mover Scenario.server_channel_gone "10" None)
         = fallback_action Scenario.with_fallback 6
             (logging records
                (moved (Scenario.mover Scenario.server_channel_gone "10" None)
                   Scenario.server_channel_gone
                   {| to_cid := PInt 10; moved_clid := 6; returned := false |}))).
Proof.
  split.
  - apply (move_back_outcomes Scenario.defaults 10 6
             (Scenario.mover Scenario.server "10" None) Scenario.server).
    + reflexivity.
    + by_computation.
  - apply (proj2 (move_back_outcomes Scenario.with_fallback 10 6
                    (Scenario.mover Scenario.server_channel_gone "10" None)
                    Scenario.server_channel_gone) 768 "invalid channelID").
    reflexivity.
Defined.

Lemma servergrouplist_failure_escapes_witness :
  ∃ σ', update_servergroup_ids_list Scenario.with_exclusion
          (Scenario.mover Scenario.server_without_grouplist "10" None)
        = (Raise (UnboundLocalError "servergroup_list"), σ')
        ∧ servergroup_ids_to_ignore σ' = []
        ∧ logged σ'
          = logged (Scenario.mover Scenario.server_without_grouplist "10" None)
            ++ [{| lvl := exception;
                   msg := "Failed to get the list of available servergroups." |}].
Proof.
  apply (servergrouplist_failure_escapes Scenario.with_exclusion "Admin,Guest"
           (Scenario.mover Scenario.server_without_grouplist "10" None)
           2568 "insufficient client permissions" Scenario.server_without_grouplist);
    reflexivity.
Defined.

(** [__init__] on that server: the constructor raises, so that
    [start_plugin] leaves [idleMover] unset. *)
Example init_raises_without_grouplist :
  fst (init Scenario.with_exclusion (blank Scenario.server_without_grouplist [] []))
  = Raise (UnboundLocalError "servergroup_list").
Proof. by_computation. Qed.

Lemma channelinfo_gone_skips_fallback_witness :
  move_all_back_body Scenario.with_fallback [] None Scenario.bob
    (Scenario.mover Scenario.server_channel_gone "10" (Some Scenario.snapshot))
  = (Ok None,
     logging [{| lvl := error;
                 msg := "Failed to get channelinfo as the channel does not exist anymore: " |}]
       (answered Scenario.server_channel_gone
          (logging [{| lvl := info; msg := "Moving a client back!" |};
                    {| lvl := debug; msg := "Client: " |};
                    {| lvl := debug; msg := "Saved channel list keys:" |}]
             (Scenario.mover Scenario.server_channel_gone "10" (Some Scenario.snapshot))))).
Proof.
  apply (channelinfo_gone_skips_fallback Scenario.with_fallback [] None Scenario.bob
           (Scenario.mover Scenario.server_channel_gone "10" (Some Scenario.snapshot))
           "6" "10" 10 6 "invalid channelID" Scenario.server_channel_gone).
  - by_computation.
  - by_computation.
  - by_computation.
  - by_computation.
  - reflexivity.
Defined.

(** The whole pass on that server, with a fall-back channel configured:
    both entries stay and no client is moved. *)
Example move_all_back_channel_gone :
  fst (move_all_back Scenario.with_fallback
         (Scenario.mover Scenario.server_channel_gone "10" (Some Scenario.snapshot)))
  = Ok tt
  ∧ moves (snd (move_all_back Scenario.with_fallback
                  (Scenario.mover Scenario.server_channel_gone "10"
                     (Some Scenario.snapshot)))) = []
  ∧ client_channels
      (snd (move_all_back Scenario.with_fallback
              (Scenario.mover Scenario.server_channel_gone "10" (Some Scenario.snapshot))))
    = client_channels
        (Scenario.mover Scenario.server_channel_gone "10" (Some Scenario.snapshot)).
Proof.
  split; [|split]; by_computation.
Qed.


Lemma unassigned_channel_info_escapes_witness :
  move_all_back_body Scenario.defaults [Scenario.channel "10" "1"] None Scenario.bob
    Scenario.refused_at_once
  = (Raise (UnboundLocalError "channel_info"),
     answered Scenario.server_info_refused
       (logging [{| lvl := info; msg := "Moving a client back!" |};
                 {| lvl := debug; msg := "Client: " |};
                 {| lvl := debug; msg := "Saved channel list keys:" |}]
          Scenario.refused_at_once)).
Proof.
  apply (unassigned_channel_info_escapes Scenario.defaults [Scenario.channel "10" "1"]
           Scenario.bob [Scenario.carol] Scenario.refused_at_once
           "6" "10" 10 6 2568 "insufficient client permissions"
           Scenario.server_info_refused (Scenario.channel "10" "1")).
  - reflexivity.
  - by_computation.
  - by_computation.
  - by_computation.
  - by_computation.
  - reflexivity.
  - discriminate.
  - by_computation.
Defined.

(** The pass and the round of the loop on that server. *)
Example move_all_back_unassigned :
  fst (move_all_back Scenario.defaults Scenario.refused_at_once)
  = Raise (UnboundLocalError "channel_info")
  ∧ fst (tick Scenario.defaults (Scenario.mover Scenario.server_info_refused "10" None))
    = Ok tt.
Proof. split; by_computation. Qed.

(** C9, as stated, fails.  With [resp_channel_settings] unset the variable
    [channel_info] is never read: clients 6 and 7 are tracked return
    candidates whose [channelinfo] query raises the query error 2568, and
    the pass moves both back and returns.  With [resp_channel_settings] set,
    client 7 is such a candidate as well, its channel is in the channel
    list, and still nothing is raised: the round before it assigned
    [channel_info] (for channel 11), the check reads that value, and the pass
    returns after moving both clients back. *)
Lemma channel_info_counterexample :
  (fst (get_back_list Scenario.without_limits Scenario.refused_at_once)
   = Ok [Scenario.bob; Scenario.carol]
   ∧ Scenario.bob !! "clid" = Some "6"
   ∧ client_channels Scenario.refused_at_once !! "6" = Some "10"
   ∧ fst (channelinfo ("cid=" +:+ py_str 10) (ts3conn Scenario.refused_at_once))
     = Raise (TS3QueryException 2568 "insufficient client permissions")
   ∧ fst (move_all_back Scenario.without_limits Scenario.refused_at_once) = Ok tt
   ∧ moves (snd (move_all_back Scenario.without_limits Scenario.refused_at_once))
     = [{| to_cid := PInt 10; moved_clid := 6; returned := true |};
        {| to_cid := PInt 10; moved_clid := 7; returned := true |}])
  ∧ (fst (get_back_list Scenario.defaults Scenario.refused_after_answer)
     = Ok [Scenario.bob; Scenario.carol]
     ∧ Scenario.carol !! "clid" = Some "7"
     ∧ client_channels Scenario.refused_after_answer !! "7" = Some "10"
     ∧ fst (channelinfo ("cid=" +:+ py_str 10) (ts3conn Scenario.refused_after_answer))
       = Raise (TS3QueryException 2568 "insufficient client permissions")
     ∧ resp_channel_settings Scenario.defaults = true
     ∧ find_channel [Scenario.channel "2" "2"; Scenario.channel "3" "0";
                     Scenario.channel "10" "1"; Scenario.channel "11" "4"] 10
       = Ok (Some (Scenario.channel "10" "1"))
     ∧ fst (move_all_back Scenario.defaults Scenario.refused_after_answer) = Ok tt
     ∧ moves (snd (move_all_back Scenario.defaults Scenario.refused_after_answer))
       = [{| to_cid := PInt 11; moved_clid := 6; returned := true |};
          {| to_cid := PInt 10; moved_clid := 7; returned := true |}]).
Proof.
  repeat split; by_computation.
Qed.


(** * Further properties *)

(** ** Numerals *)

Section Numerals.
Import PyInt.

Lemma digit_pretty_N_char (d : N) :
  (d < 10)%N → digit (pretty_N_char d) = Some (Z.of_N d).
Proof.
  intros Hd.
  assert (d = 0 ∨ d = 1 ∨ d = 2 ∨ d = 3 ∨ d = 4 ∨ d = 5 ∨ d = 6 ∨ d = 7 ∨ d = 8
          ∨ d = 9)%N as Hcases by lia.
  repeat destruct Hcases as [->|Hcases]; try reflexivity. by subst.
Qed.

Lemma is_space_pretty_N_char (d : N) : is_space (pretty_N_char d) = false.
Proof. unfold pretty_N_char. by repeat case_match. Qed.

Lemma sign_pretty_N_char (d : N) :
  pretty_N_char d ≠ "-"%char ∧ pretty_N_char d ≠ "+"%char.
Proof. unfold pretty_N_char. by repeat case_match. Qed.

(** The numeral of [x] in front of [s] reads as [x] in front of [s]. *)
Lemma digits_pretty_N_go (x : N) :
  (0 < x)%N → ∀ s, ∃ k : Z, 0 <= k ∧ ∀ acc b,
    digits acc b (list_ascii_of_string (pretty_N_go x s))
    = digits (acc * 10 ^ k + Z.of_N x) true (list_ascii_of_string s).
Proof.
  induction (N.lt_wf_0 x) as [x _ IH]. intros Hx s.
  rewrite pretty_N_go_step by done.
  assert (x `mod` 10 < 10)%N as Hmod by (apply N.mod_lt; lia).
  pose proof (N.div_mod x 10 ltac:(lia)) as Hdiv.
  destruct (decide (x `div` 10 = 0)%N) as [Hz|Hnz].
  - rewrite Hz, pretty_N_go_0. exists 1. split; [lia|]. intros acc b.
    cbn [list_ascii_of_string digits]. rewrite digit_pretty_N_char by done.
    f_equal. lia.
  - destruct (IH (x `div` 10)%N) with (s := String (pretty_N_char (x `mod` 10)) s)
      as (k & Hk & Heq).
    { apply N.div_lt; lia. }
    { lia. }
    exists (k + 1). split; [lia|]. intros acc b. rewrite Heq.
    cbn [list_ascii_of_string digits]. rewrite digit_pretty_N_char by done.
    f_equal. rewrite Z.pow_add_r by lia. lia.
Qed.

(** The numeral of a positive number starts and ends with a digit. *)
Lemma pretty_N_go_chars (x : N) s :
  Forall (λ a, is_space a = false ∧ a ≠ "-"%char ∧ a ≠ "+"%char)
    (list_ascii_of_string s) →
  Forall (λ a, is_space a = false ∧ a ≠ "-"%char ∧ a ≠ "+"%char)
    (list_ascii_of_string (pretty_N_go x s)).
Proof.
  revert s. induction (N.lt_wf_0 x) as [x _ IH]. intros s Hs.
  destruct (decide (x = 0)%N) as [->|Hx]; [by rewrite pretty_N_go_0|].
  rewrite pretty_N_go_step by lia. apply IH; [apply N.div_lt; lia|].
  cbn [list_ascii_of_string]. constructor; [|done].
  split; [apply is_space_pretty_N_char|apply sign_pretty_N_char].
Qed.

Lemma lstrip_no_space l :
  match l with a :: _ => is_space a = false | [] => True end → lstrip l = l.
Proof. destruct l as [|a l]; [done|]. cbn. by intros ->. Qed.

Lemma strip_no_space l :
  Forall (λ a, is_space a = false) l → strip l = l.
Proof.
  intros Hl. unfold strip. rewrite (lstrip_no_space l).
  2:{ destruct Hl; done. }
  rewrite lstrip_no_space; [apply rev_involutive|].
  apply Forall_rev in Hl. change (@rev ascii) with (@List.rev ascii) in *.
  destruct Hl; done.
Qed.

Lemma of_string_pretty_pos (p : positive) :
  of_string (pretty (Npos p)) = Some (Zpos p)
  ∧ digits 0 false (list_ascii_of_string (pretty (Npos p))) = Some (Zpos p)
  ∧ Forall (λ a, is_space a = false) (list_ascii_of_string (pretty (Npos p))).
Proof.
  unfold pretty, pretty_N. rewrite decide_False by done.
  pose proof (pretty_N_go_chars (Npos p) "" ltac:(constructor)) as Hchars.
  assert (Forall (λ a, is_space a = false) (list_ascii_of_string (pretty_N_go (N.pos p) "")))
    as Hsp by (eapply Forall_impl; [done|by intros ? [? ?]]).
  destruct (digits_pretty_N_go (Npos p) ltac:(lia) "") as (k & Hk & Heq).
  assert (digits 0 false (list_ascii_of_string (pretty_N_go (N.pos p) "")) = Some (Zpos p))
    as Hd by (rewrite Heq; cbn; f_equal).
  split; [|done].
  unfold of_string. rewrite strip_no_space by done.
  destruct (list_ascii_of_string (pretty_N_go (N.pos p) "")) as [|a l]; [done|].
  apply Forall_cons in Hchars as [(_ & Hm & Hp) _].
  clear -Hd Hm Hp.
  destruct a as [[] [] [] [] [] [] [] []]; try done.
Qed.

End Numerals.

(** [int(str(n)) == n] for every [int]. *)
Lemma py_int_py_str (n : Z) : py_int (PStr (py_str n)) = Ok n.
Proof.
  unfold py_int, py_str, pretty, pretty_Z. destruct n as [|p|p].
  - reflexivity.
  - change (pretty p) with (pretty (Npos p)).
    by rewrite (proj1 (of_string_pretty_pos p)).
  - change (pretty p) with (pretty (Npos p)).
    destruct (of_string_pretty_pos p) as (_ & Hd & Hsp).
    unfold PyInt.of_string.
    assert (list_ascii_of_string ("-" +:+ pretty (N.pos p))
            = "-"%char :: list_ascii_of_string (pretty (N.pos p))) as -> by done.
    rewrite strip_no_space by (constructor; done).
    by rewrite Hd.
Qed.

Lemma py_str_inj (m n : Z) : py_str m = py_str n → m = n.
Proof.
  intros Heq. pose proof (py_int_py_str m) as Hm.
  rewrite Heq, py_int_py_str in Hm. congruence.
Qed.

(** ** Quotients of small idle times *)

Lemma truediv_1000_small idle :
  0 <= idle < 2 ^ 53 →
  ∃ seconds, truediv_1000 idle = Ok seconds
             ∧ (idle = 0 → seconds = (0 # 1)%Q)
             ∧ (0 < idle → ((idle - 1) # 1000 < seconds)%Q).
Proof.
  intros Hrange. destruct (decide (idle = 0)) as [->|Hne].
  - exists (0 # 1)%Q. split; [done|]. split; [done|lia].
  - destruct (truediv_1000_above idle ltac:(lia)) as (q & Hq & Hlt).
    exists q. split; [done|]. split; [lia|done].
Qed.

Lemma readable_numerals afk (client : dict) cid afk_cid idle :
  py_int (get client "cid") = Ok cid →
  py_int (PStr afk) = Ok afk_cid →
  py_int (get client "client_idle_time") = Ok idle →
  0 <= idle < 2 ^ 53 →
  readable afk client.
Proof.
  intros Hcid Hafk Hidle Hrange _ _.
  destruct (truediv_1000_small idle Hrange) as (q & Hq & _).
  by exists cid, afk_cid, idle, q.
Qed.

(** [int] skips the blanks around a numeral and no other control
    character: [int('\t5 ')] is 5, [int('\x1c5')] and [int('5\x1f')]
    raise. *)
Example int_skips_blanks_only :
  py_int (PStr (String (ascii_of_nat 9) "5 ")) = Ok 5
  ∧ py_int (PStr (String (ascii_of_nat 28) "5")) = Raise ValueError
  ∧ py_int (PStr (String "5" (String (ascii_of_nat 31) EmptyString))) = Raise ValueError.
Proof. repeat split; by_computation. Qed.

(** ** The snapshot and the ignored groups *)

Ltac run_goal :=
  unfold mbind, M_bind, bind, mret, M_ret, ret, eval, read, log, raise;
  cbn beta iota zeta delta [fst snd].

Section Snapshot.
Context {Srv : Type} `{!TS3Connection Srv}.
Variable cfg : config.

(** The loop of [update_client_list] appends to the snapshot the clients
    whose [client_type] is not 1, in the order of the answer. *)
Lemma update_client_list_loop (clients : list dict) :
  Forall (λ client, ∃ t, py_int (get client "client_type") = Ok t) clients →
  ∀ (τ : IdleMover Srv) l0, idle_list τ = Some l0 →
  ∃ τ', for_each clients (λ client : dict,
          client_type ← eval (py_int (get client "client_type"));
          if client_type =? 1
          then log debug "update_client_list ignoring ServerQuery client: "
          else set_idle_list (fmap (λ l : list dict, l ++ [client]))) τ = (Ok tt, τ')
        ∧ idle_list τ'
          = Some (l0 ++ filter (λ client, py_int (get client "client_type") ≠ Ok 1) clients)
        ∧ ts3conn τ' = ts3conn τ ∧ keeps τ τ'
        ∧ servergroup_ids_to_ignore τ' = servergroup_ids_to_ignore τ.
Proof.
  induction 1 as [|client clients [t Ht] _ IH]; intros τ l0 Hl0.
  - exists τ. rewrite app_nil_r. by repeat split.
  - unfold for_each in *. cbn [for_in]. unfold bind at 1.
    unfold mbind, M_bind, bind, eval. rewrite Ht.
    rewrite filter_cons. destruct (Z.eqb_spec t 1) as [->|Hne].
    + rewrite log_run. destruct (IH (logging [{| lvl := debug;
        msg := "update_client_list ignoring ServerQuery client: " |}] τ) l0 Hl0)
        as (τ' & Hrun & Hlist & Hconn & Hkeeps & Hignore).
      exists τ'. split; [done|]. rewrite decide_False by (intros Hc; by apply Hc).
      by repeat split; try apply Hkeeps.
    + unfold set_idle_list at 1. cbn beta iota.
      match goal with |- context [for_in clients tt _ ?s] =>
        destruct (IH s (l0 ++ [client])) as (τ' & Hrun & Hlist & Hconn & Hkeeps & Hignore)
      end.
      { cbn. by rewrite Hl0. }
      exists τ'. split; [done|]. rewrite decide_True by congruence.
      rewrite Hlist, <- app_assoc. by repeat split; try apply Hkeeps.
Qed.

Lemma update_client_list_answered (σ : IdleMover Srv) clients s :
  clientlist ["times"] (ts3conn σ) = (Ok clients, s) →
  Forall (λ client, ∃ t, py_int (get client "client_type") = Ok t) clients →
  ∃ σ', update_client_list σ = (Ok tt, σ')
        ∧ idle_list σ'
          = Some (filter (λ client, py_int (get client "client_type") ≠ Ok 1) clients)
        ∧ ts3conn σ' = s ∧ keeps σ σ'
        ∧ servergroup_ids_to_ignore σ' = servergroup_ids_to_ignore σ.
Proof.
  intros Hquery Hall. unfold update_client_list, try_except.
  unfold mbind at 1. unfold M_bind, bind. unfold set_idle_list at 1. cbv beta iota.
  unfold mbind at 1. unfold M_bind, bind. rewrite call_run. cbn [ts3conn].
  rewrite Hquery. cbn [fst snd]. unfold mbind at 1. unfold M_bind, bind.
  match goal with |- context [for_each clients ?body ?τ] =>
    destruct (update_client_list_loop clients Hall τ [])
      as (τ' & Hrun & Hlist & Hconn & Hk & Hignore);
      [done|];
    assert (for_each clients body τ = (Ok tt, τ')) as -> by exact Hrun
  end.
  rewrite log_run. eexists. split; [done|]. cbn [idle_list logging ts3conn].
  rewrite Hlist. cbn [app default]. split; [done|]. split; [done|].
  destruct Hk as (? & ? & ?). split; [by repeat split|]. done.
Qed.

(** X1. When the server answers the [clientlist] query and every client of
    the answer has a [client_type] that [int] reads, [update_client_list]
    returns and the snapshot holds the clients of the answer whose
    [client_type] is not 1, in the order of the answer: a ServerQuery client
    is in no snapshot, whatever its other fields are. *)
Theorem update_client_list_snapshot (σ : IdleMover Srv) clients s :
  clientlist ["times"] (ts3conn σ) = (Ok clients, s) →
  Forall (λ client, ∃ t, py_int (get client "client_type") = Ok t) clients →
  ∃ σ', update_client_list σ = (Ok tt, σ')
        ∧ idle_list σ'
          = Some (filter (λ client, py_int (get client "client_type") ≠ Ok 1) clients)
        ∧ (∀ client, client ∈ default [] (idle_list σ') →
             client ∈ clients ∧ py_int (get client "client_type") ≠ Ok 1)
        ∧ ts3conn σ' = s ∧ untouched σ σ'.
Proof.
  intros Hquery Hall.
  destruct (update_client_list_answered σ clients s Hquery Hall)
    as (σ' & Hrun & Hlist & Hconn & Hkeeps & _).
  exists σ'. split; [done|]. split; [done|]. split.
  { rewrite Hlist. intros client [? ?]%list_elem_of_filter. done. }
  split; [done|]. by apply keeps_untouched.
Qed.

Lemma update_client_list_refused (σ : IdleMover Srv) e s :
  clientlist ["times"] (ts3conn σ) = (Raise e, s) →
  is_TS3Exception e = true →
  ∃ σ', update_client_list σ = (Ok tt, σ') ∧ idle_list σ' = Some [] ∧ keeps σ σ'
        ∧ logged σ' = logged σ ++ [{| lvl := exception; msg := "Error getting away list!" |}].
Proof.
  intros Hquery He. unfold update_client_list, try_except.
  unfold mbind at 1. unfold M_bind, bind. unfold set_idle_list at 1. cbv beta iota.
  unfold mbind at 1. unfold M_bind, bind. rewrite call_run. cbn [ts3conn].
  rewrite Hquery. cbn [fst snd]. rewrite He.
  unfold mbind, M_bind, bind. rewrite log_run. eexists. split; [done|]. done.
Qed.

(** With an empty snapshot the two steps of a pass move nobody. *)
Lemma move_all_back_empty (τ : IdleMover Srv) :
  idle_list τ = Some [] →
  keeps τ (snd (move_all_back cfg τ)) ∧ idle_list (snd (move_all_back cfg τ)) = Some [].
Proof.
  intros Hempty.
  assert (get_back_list cfg τ
          = (Ok [], logging [{| lvl := debug;
                                msg := "get_back_list updated client list: " |}] τ))
    as Hlist.
  { unfold get_back_list, mbind, M_bind, bind, read. rewrite Hempty. cbn [for_in].
    unfold ret. by rewrite log_run. }
  cut (∃ σ', snd (move_all_back cfg τ) = σ' ∧ keeps τ σ' ∧ idle_list σ' = Some []).
  { by intros (σ' & -> & ?). }
  unfold move_all_back. unfold mbind at 1. unfold M_bind, bind. rewrite Hlist.
  unfold mbind, M_bind, bind. rewrite !log_run, !logging_app. cbn [app].
  unfold try_except. rewrite call_run.
  destruct (channellist _) as [[l|e] s]; cbn [fst snd mret M_ret ret for_in].
  - eexists. split; [done|]. done.
  - destruct (is_TS3QueryException e); [rewrite log_run|]; eexists; (split; [done|]); done.
Qed.

Lemma move_all_afk_empty (τ : IdleMover Srv) :
  idle_list τ = Some [] → keeps τ (snd (move_all_afk cfg τ)).
Proof.
  intros Hempty. unfold move_all_afk, move_to_afk, get_idle_list, try_except, for_each.
  run_goal. rewrite Hempty. cbn. done.
Qed.

(** X2. When the [clientlist] query raises a [TS3Exception],
    [update_client_list] logs it, leaves an empty snapshot and returns;
    the pass of the loop that met the failure returns as well, issues no
    [clientmove] and changes no entry of [client_channels]. *)
Theorem clientlist_failure_moves_nobody (σ : IdleMover Srv) e s :
  clientlist ["times"] (ts3conn σ) = (Raise e, s) →
  is_TS3Exception e = true →
  (∃ σ', update_client_list σ = (Ok tt, σ') ∧ idle_list σ' = Some []
         ∧ logged σ' = logged σ ++ [{| lvl := exception; msg := "Error getting away list!" |}])
  ∧ fst (tick cfg σ) = Ok tt
  ∧ untouched σ (snd (tick cfg σ)).
Proof.
  intros Hquery He. split.
  { destruct (update_client_list_refused σ e s Hquery He) as (σ' & ? & ? & _ & ?).
    by exists σ'. }
  split; [apply tick_returns|].
  apply keeps_untouched.
  unfold tick. unfold mbind at 1. unfold M_bind, bind. rewrite log_run. cbv beta iota.
  set (σ0 := logging _ σ).
  destruct (update_client_list_refused σ0 e s Hquery He) as (σ1 & Hup & Hempty & Hk1 & _).
  assert (keeps σ σ0) as Hk0 by done.
  unfold try_except. unfold mbind at 1. unfold M_bind, bind. rewrite Hup.
  unfold mbind at 1. unfold M_bind, bind.
  assert (∃ σ2, keeps σ1 σ2 ∧ idle_list σ2 = Some []
                ∧ snd ((if enable_auto_move_back cfg then move_all_back cfg else mret tt) σ1)
                  = σ2) as (σ2 & Hk2 & Hempty2 & Hσ2).
  { destruct (enable_auto_move_back cfg).
    - eexists. destruct (move_all_back_empty σ1 Hempty). done.
    - exists σ1. done. }
  destruct ((if enable_auto_move_back cfg then move_all_back cfg else mret tt) σ1)
    as [[[]|e2] σ2'] eqn:Hback; cbn [snd] in Hσ2; subst σ2'.
  - pose proof (move_all_afk_empty σ2 Hempty2) as Hk3.
    destruct (move_all_afk cfg σ2) as [[[]|e3] σ3]; cbn [snd] in Hk3.
    + cbn [snd]. etrans; [exact Hk0|]. etrans; [exact Hk1|]. by etrans.
    + run_goal. etrans; [exact Hk0|]. etrans; [exact Hk1|]. etrans; [exact Hk2|].
      etrans; [exact Hk3|]. done.
  - run_goal. etrans; [exact Hk0|]. etrans; [exact Hk1|]. etrans; [exact Hk2|]. done.
Qed.

(** The loop of [update_servergroup_ids_list] appends the [sgid] of the
    groups whose name is in the list. *)
Lemma update_servergroup_ids_list_loop (names : list pyval) (l : list dict) :
  ∀ (τ : IdleMover Srv),
  ∃ τ', for_each l (λ servergroup : dict,
          if bool_decide (get servergroup "name" ∈ names)
          then set_servergroup_ids_to_ignore
                 (λ ids : list pyval, ids ++ [get servergroup "sgid"])
          else mret tt) τ = (Ok tt, τ')
        ∧ servergroup_ids_to_ignore τ'
          = servergroup_ids_to_ignore τ
            ++ ((λ g : dict, get g "sgid") <$> filter (λ g : dict, get g "name" ∈ names) l)
        ∧ ts3conn τ' = ts3conn τ ∧ keeps τ τ' ∧ logged τ' = logged τ.
Proof.
  induction l as [|g l IH]; intros τ.
  - exists τ. cbn. rewrite app_nil_r. by repeat split.
  - unfold for_each in *. cbn [for_in]. unfold bind at 1. rewrite filter_cons.
    case_bool_decide as Hin.
    + unfold set_servergroup_ids_to_ignore at 1. cbv beta iota.
      match goal with |- context [for_in l tt _ ?s] =>
        destruct (IH s) as (τ' & Hrun & Hlist & Hconn & Hkeeps & Hlog)
      end.
      exists τ'. split; [done|]. rewrite decide_True by done.
      rewrite Hlist. cbn [servergroup_ids_to_ignore fmap list_fmap].
      rewrite <- app_assoc. by repeat split; try apply Hkeeps.
    + unfold mret at 1. unfold M_ret, ret. cbv beta iota.
      destruct (IH τ) as (τ' & Hrun & Hlist & Hconn & Hkeeps & Hlog).
      exists τ'. split; [done|]. rewrite decide_False by done. done.
Qed.

(** X3. With no group excluded by the configuration,
    [update_servergroup_ids_list] empties the list of ignored ids without
    a query.  With groups excluded and the [servergrouplist] query
    answered, it returns and the list holds the [sgid] of exactly the
    groups of the answer whose [name] is one of the parts of
    [servergroups_to_exclude] between its commas, in the order of the
    answer; what the list held before is dropped. *)
Theorem update_servergroup_ids_list_selects (σ : IdleMover Srv) :
  (servergroups_to_exclude cfg = None →
     ∃ σ', update_servergroup_ids_list cfg σ = (Ok tt, σ')
           ∧ servergroup_ids_to_ignore σ' = [] ∧ ts3conn σ' = ts3conn σ)
  ∧ (∀ groups l s,
       servergroups_to_exclude cfg = Some groups →
       servergrouplist (ts3conn σ) = (Ok l, s) →
       ∃ σ', update_servergroup_ids_list cfg σ = (Ok tt, σ')
             ∧ servergroup_ids_to_ignore σ'
               = (λ g : dict, get g "sgid")
                 <$> filter (λ g : dict, get g "name" ∈ PStr <$> split_comma groups) l
             ∧ ts3conn σ' = s ∧ logged σ' = logged σ ∧ untouched σ σ').
Proof.
  split.
  - intros Hnone. unfold update_servergroup_ids_list. rewrite Hnone.
    unfold mbind, M_bind, bind, set_servergroup_ids_to_ignore. rewrite log_run.
    eexists. split; [done|]. done.
  - intros groups l s Hgroups Hquery. unfold update_servergroup_ids_list. rewrite Hgroups.
    unfold try_except.
    unfold mbind at 1. unfold M_bind, bind. unfold set_servergroup_ids_to_ignore at 1.
    cbv beta iota.
    unfold mbind at 1. unfold M_bind, bind.
    unfold mbind at 1. unfold M_bind, bind. rewrite call_run. cbn [ts3conn].
    rewrite Hquery. cbn [fst snd]. unfold mret at 1. unfold M_ret, ret. cbv beta iota.
    unfold mbind at 1. unfold M_bind, bind. unfold set_servergroup_ids_to_ignore at 1.
    cbv beta iota. unfold mbind at 1. unfold M_bind, bind. cbn [local].
    unfold mret at 1. unfold M_ret, ret. cbv beta iota.
    match goal with |- context [for_each l ?body ?τ] =>
      destruct (update_servergroup_ids_list_loop (PStr <$> split_comma groups) l τ)
        as (τ' & Hrun & Hlist & Hconn & Hk & Hlog);
      assert (for_each l body τ = (Ok tt, τ')) as -> by exact Hrun
    end.
    exists τ'. split; [done|]. split; [by rewrite Hlist|]. split; [done|].
    split; [done|]. destruct Hk as (_ & ? & ?). by split.
Qed.

End Snapshot.

(** ** The candidates *)

Section Exclusion.
Context {Srv : Type} `{!TS3Connection Srv}.
Variable cfg : config.

Lemma client_is_in_group_true client (σ : IdleMover Srv) :
  servergroups_to_exclude cfg ≠ None →
  excluded (servergroup_ids_to_ignore σ) client →
  ∃ σ1, client_is_in_group cfg client σ = (Ok true, σ1).
Proof.
  unfold excluded, client_is_in_group. intros Hsome Hex.
  destruct (servergroups_to_exclude cfg) as [groups|]; [|done].
  destruct (Hex (ts3conn σ)) as (l & Hl & g & Hg & Hin).
  unfold get_servergroups_by_client, try_except, call.
  unfold mbind, M_bind, bind, mret, M_ret, ret, eval, read, log, raise.
  destruct (servergroupsbyclientid _ (ts3conn σ)) as [[l'|e] s]; cbn in *; [|done].
  injection Hl as ->.
  assert (existsb (λ id, bool_decide (id ∈ servergroup_ids_to_ignore σ))
            ((λ servergroup : dict, get servergroup "sgid") <$> l) = true) as ->.
  { apply existsb_exists. exists (get g "sgid"). split.
    - apply list_elem_of_In, list_elem_of_fmap. by exists g.
    - by apply bool_decide_eq_true. }
  by eexists.
Qed.

Lemma get_idle_list_body_excluded acc client (σ : IdleMover Srv) acc' σ' :
  get_idle_list_body cfg acc client σ = (Ok acc', σ') →
  servergroups_to_exclude cfg ≠ None →
  excluded (servergroup_ids_to_ignore σ) client →
  acc' = acc.
Proof.
  unfold get_idle_list_body, in_keys. intros Hrun Hsome Hex. run_in Hrun.
  destruct (client !! "cid") as [cid|] eqn:Hcid; cbn in Hrun; [|congruence].
  case_bool_decide as Htype; cbn in Hrun; [congruence|].
  match type of Hrun with context [client_is_in_group cfg client ?τ] =>
    destruct (client_is_in_group_true client τ Hsome Hex) as (σ1 & Hin)
  end.
  rewrite Hin in Hrun. congruence.
Qed.

(** X4. The list of [get_idle_list] holds clients of the snapshot that
    have a channel other than the AFK channel, are no ServerQuery clients
    and have been idle for longer than the threshold, and no others.  Such
    a client is in the list when no group is excluded by the configuration
    or the query for its groups names no ignored group; a query that is
    refused with a query error counts as naming none, so that the client is
    moved.  With groups excluded, a client for which the query names an
    ignored group is not in the list. *)
Theorem get_idle_list_candidates (σ σ' : IdleMover Srv) L :
  get_idle_list cfg σ = (Ok L, σ') →
  (∀ client, client ∈ L →
     client ∈ default [] (idle_list σ) ∧ idle_candidate cfg (afk_channel σ) client)
  ∧ (∀ client, client ∈ default [] (idle_list σ) →
       idle_candidate cfg (afk_channel σ) client →
       servergroups_to_exclude cfg = None
       ∨ (∀ srv : Srv, names_no_group (servergroup_ids_to_ignore σ)
            (fst (servergroupsbyclientid
                    ("cldbid=" +:+ py_format (get client "client_database_id")) srv))) →
       client ∈ L)
  ∧ (∀ client, servergroups_to_exclude cfg ≠ None →
       excluded (servergroup_ids_to_ignore σ) client → client ∉ L).
Proof.
  intros Hrun. destruct (get_idle_list_spec cfg σ L σ' Hrun) as [Hnec Hsuf].
  split; [done|]. split; [done|].
  intros client Hsome Hex Hin.
  revert Hrun. unfold get_idle_list. intros Hrun. run_in Hrun.
  destruct (idle_list σ) as [clients|] eqn:Hl.
  2:{ injection Hrun as <- <-. by apply elem_of_nil in Hin. }
  match type of Hrun with context [for_in clients [] _ ?s] => set (σa := s) in * end.
  destruct (for_in clients [] (get_idle_list_body cfg) σa) as [[L1|] σ1] eqn:Hloop;
    [|done].
  injection Hrun as <- <-.
  destruct (for_in_appends reads
              (λ (τ : IdleMover Srv) c, ¬ excluded (servergroup_ids_to_ignore τ) c)
              (λ (τ : IdleMover Srv) (c : dict), False)
              (get_idle_list_body cfg)) with (4 := Hloop)
    as (l' & -> & Hnot & _).
  - apply get_idle_list_body_reads.
  - intros τ τ' x (_&_&Hi&_). rewrite Hi. done.
  - intros acc x τ acc' τ' Hbody.
    destruct (get_idle_list_body_spec cfg acc x τ acc' τ' Hbody) as [[-> _]|[-> _]].
    + left. split; [done|]. intros Hx.
      pose proof (get_idle_list_body_excluded _ _ _ _ _ Hbody Hsome Hx) as Heq.
      apply (f_equal length) in Heq. rewrite length_app in Heq. cbn in Heq. lia.
    + right. split; [done|]. tauto.
  - destruct (Hnot client Hin) as [_ Hno]. by apply Hno.
Qed.

(** X5. [get_idle_list] and [get_back_list] return a list, and raise
    nothing, when [int] reads the AFK channel and, for every client of the
    snapshot that has both a channel and an idle time, the two fields (the
    quotient of the idle time being in the range of [float]), and when the
    query for the groups of a client, where groups are excluded, is answered
    or refused with a query error. *)
Theorem candidate_lists_return (σ : IdleMover Srv) :
  Forall (readable (afk_channel σ)) (default [] (idle_list σ)) →
  (servergroups_to_exclude cfg = None
   ∨ ∀ client (srv : Srv), answered_or_refused
       (fst (servergroupsbyclientid
               ("cldbid=" +:+ py_format (get client "client_database_id")) srv))) →
  (∃ L σ', get_idle_list cfg σ = (Ok L, σ')
           ∧ ∀ client, client ∈ L → client ∈ default [] (idle_list σ))
  ∧ (∃ L σ', get_back_list cfg σ = (Ok L, σ')
             ∧ ∀ client, client ∈ L → client ∈ default [] (idle_list σ)).
Proof.
  intros Hall Hgroups. split.
  - destruct (get_idle_list_returns cfg σ Hall Hgroups) as (L & σ' & Hrun).
    exists L, σ'. split; [done|]. intros client Hin.
    by apply (proj1 (get_idle_list_spec cfg σ L σ' Hrun)).
  - destruct (get_back_list_returns cfg σ Hall) as (L & σ' & Hrun).
    exists L, σ'. split; [done|]. intros client Hin.
    by apply (get_back_list_spec cfg σ L σ' Hrun).
Qed.

End Exclusion.

(** X6. For a threshold of a whole number [k] of milliseconds that a
    [float] holds exactly (600.0 and every other whole number of seconds
    in use), the comparison of [get_idle_list] and [get_back_list], made
    on the [float] quotient, decides exactly as the integers do: for an
    idle time below [2^53] ms the client counts as idle when its idle time
    exceeds [k] ms and as back when it is at most [k] ms. *)
Theorem threshold_test_is_exact (cfg : config) (client : dict) k idle :
  PyFloat.is_double (idle_time_seconds cfg) →
  (idle_time_seconds cfg == k # 1000)%Q →
  py_int (get client "client_idle_time") = Ok idle →
  0 <= idle < 2 ^ 53 →
  (idle_longer cfg client ↔ k < idle)
  ∧ ((∃ seconds, truediv_1000 idle = Ok seconds
                 ∧ (seconds <= idle_time_seconds cfg)%Q) ↔ idle <= k)
  ∧ ∃ seconds, truediv_1000 idle = Ok seconds
               ∧ Qle_bool seconds (idle_time_seconds cfg) = (idle <=? k).
Proof.
  intros Hdouble Hk Hidle Hrange.
  destruct (truediv_1000_small idle Hrange) as (q & Hq & Hzero & Hpos).
  assert ((q <= idle_time_seconds cfg)%Q ↔ idle <= k) as Hle.
  { split.
    - intros Hle. destruct (Z.le_gt_cases idle k) as [|Hgt]; [done|exfalso].
      rewrite Hk in Hle. destruct (decide (idle = 0)) as [Hz|Hnz].
      + rewrite (Hzero Hz) in Hle. unfold Qle in Hle. cbn [Qnum Qden] in Hle. lia.
      + specialize (Hpos ltac:(lia)). unfold Qle, Qlt in Hle, Hpos.
        cbn [Qnum Qden] in Hle, Hpos.
        assert (idle - 1 < k); [|lia].
        apply (Z.mul_lt_mono_pos_r (Zpos (Qden q))); lia.
    - intros Hle. apply truediv_1000_le with idle; [done|done|].
      rewrite Hk. unfold Qle. cbn [Qnum Qden]. lia. }
  split; [|split].
  - unfold idle_longer. split.
    + intros (idle' & q' & Hidle' & Hq' & Hlt).
      assert (idle' = idle) as -> by congruence. assert (q' = q) as -> by congruence.
      destruct (Z.le_gt_cases idle k) as [Hc|Hc]; [|lia].
      apply Hle in Hc. by apply Qlt_not_le in Hlt.
    + intros Hlt. exists idle, q. split; [done|]. split; [done|].
      apply Qnot_le_lt. intros Hc%Hle. lia.
  - split.
    + intros (q' & Hq' & Hle'). assert (q' = q) as -> by congruence. by apply Hle.
    + intros Hc. exists q. split; [done|]. by apply Hle.
  - exists q. split; [done|]. destruct (Z.leb_spec idle k) as [Hc|Hc].
    + by apply Qle_bool_iff, Hle.
    + apply not_true_is_false. intros Hc'%Qle_bool_iff%Hle. lia.
Qed.

(** ** The fall-back action *)

Section Lookup.
Context {Srv : Type} `{!TS3Connection Srv}.
Variable cfg : config.

(** X7. Without a fall-back channel ([fallback_action] unset or the text
    "None"), [fallback_action] does nothing.  It never raises a [KeyError]
    or a [TS3Exception].  When the channel is found and the [clientmove]
    to it returns, the entry of the client is deleted (a client without an
    entry is moved all the same).  When [channelfind] answers the empty
    list for the fall-back channel, the [IndexError] of
    [get_channel_by_name] leaves [fallback_action]. *)
Theorem fallback_action_outcomes client_id (σ : IdleMover Srv) :
  (fallback_channel cfg = None ∨ fallback_channel cfg = Some "None" →
   fallback_action cfg client_id σ = (Ok tt, σ))
  ∧ (∀ e, fst (fallback_action cfg client_id σ) = Raise e →
       is_KeyError e = false ∧ is_TS3Exception e = false)
  ∧ (∀ name channel σ1 s,
       fallback_channel cfg = Some name → name ≠ "None" →
       get_channel_by_name name σ = (Ok channel, σ1) →
       clientmove (PStr channel) client_id (ts3conn σ1) = (Ok tt, s) →
       ∃ σ', fallback_action cfg client_id σ = (Ok tt, σ')
             ∧ client_channels σ' = delete (py_str client_id) (client_channels σ)
             ∧ moves σ' = moves σ ++ [{| to_cid := PStr channel; moved_clid := client_id;
                                         returned := true |}])
  ∧ (∀ name s,
       fallback_channel cfg = Some name → name ≠ "None" →
       channelfind name (ts3conn σ) = (Ok [], s) →
       fallback_action cfg client_id σ = (Raise IndexError, answered s σ)).
Proof.
  unfold fallback_action. split; [|split; [|split]].
  - intros [->| ->]; [done|]. by rewrite bool_decide_eq_true_2.
  - intros e. destruct (fallback_channel cfg) as [name|]; [|done].
    case_bool_decide; [done|]. unfold try_except.
    match goal with |- context [match ?m with _ => _ end] =>
      destruct m as [[[]|e'] τ] end; [done|].
    destruct (is_KeyError e') eqn:Hk; [done|].
    destruct (is_TS3Exception e') eqn:Ht; [done|].
    cbn. by intros [= <-].
  - intros name channel σ1 s -> Hname Hfind Hmove.
    rewrite bool_decide_eq_false_2 by done.
    pose proof (get_channel_by_name_reads name σ) as Hreads. rewrite Hfind in Hreads.
    destruct Hreads as (_ & Hstore & _ & _ & Hmoves). cbn in Hstore, Hmoves.
    unfold try_except. unfold mbind at 1. unfold M_bind, bind. rewrite Hfind.
    unfold mbind, M_bind, bind. rewrite do_clientmove_run, Hmove. cbn [fst snd].
    unfold del_client_channels, mbind, M_bind, bind, read, set_client_channels, raise.
    cbn [client_channels moved]. case_bool_decide as Htracked; cbn.
    + eexists. split; [done|]. by rewrite Hstore, Hmoves.
    + eexists. split; [done|]. cbn. rewrite Hmoves, <- Hstore. split; [|done].
      symmetry. apply delete_id. by apply eq_None_not_Some.
  - intros name s -> Hname Hfind. rewrite bool_decide_eq_false_2 by done.
    unfold try_except. unfold mbind at 1. unfold M_bind, bind.
    unfold get_channel_by_name, try_except. unfold mbind at 1. unfold M_bind, bind.
    rewrite call_run, Hfind. reflexivity.
Qed.

End Lookup.

(** ** Moving to the AFK channel *)

Section ToAfk.
Context {Srv : Type} `{!TS3Connection Srv}.
Variable cfg : config.

Lemma move_to_afk_body_run (client : dict) (τ : IdleMover Srv) n :
  dry_run cfg = false →
  py_int (PStr (get_str client "clid" "-1")) = Ok n →
  moved_or_refused (fst (clientmove (PStr (afk_channel τ)) n (ts3conn τ))) →
  ∃ τ', move_to_afk_body cfg client τ = (Ok tt, τ')
        ∧ afk_channel τ' = afk_channel τ
        ∧ (client_channels τ' = client_channels τ
           ∨ client_channels τ'
             = <[get_str client "clid" "-1" := get_str client "cid" "0"]> (client_channels τ))
        ∧ (fst (clientmove (PStr (afk_channel τ)) n (ts3conn τ)) = Ok tt →
           client_channels τ'
           = <[get_str client "clid" "-1" := get_str client "cid" "0"]> (client_channels τ)
           ∧ moves τ' = moves τ ++ [{| to_cid := PStr (afk_channel τ); moved_clid := n;
                                       returned := true |}]).
Proof.
  intros Hdry Hn Hmove. unfold move_to_afk_body. rewrite Hdry.
  unfold try_except. rewrite get_default_str.
  unfold mbind at 1. unfold M_bind, bind.
  unfold mbind at 1. unfold M_bind, bind. rewrite log_run. cbv beta iota.
  unfold mbind at 1. unfold M_bind, bind. rewrite log_run. cbv beta iota.
  rewrite logging_app. cbn [app].
  unfold mbind at 1. unfold M_bind, bind, read. cbv beta iota.
  unfold mbind at 1. unfold M_bind, bind, eval. rewrite Hn. cbv beta iota.
  unfold mbind at 1. unfold M_bind, bind. rewrite do_clientmove_run.
  cbn [afk_channel ts3conn logging fst snd].
  destruct (clientmove (PStr (afk_channel τ)) n (ts3conn τ)) as [[[]|e] s];
    cbn [fst snd] in *.
  - unfold set_client_channels. rewrite log_run. eexists. split; [done|].
    cbn. split; [done|]. split; [by right|]. done.
  - rewrite Hmove. rewrite !log_run. eexists. split; [done|].
    cbn. split; [done|]. split; [by left|]. done.
Qed.

Lemma move_to_afk_loop (afk : string) (L : list dict) :
  dry_run cfg = false →
  (∀ client, client ∈ L → can_move_to_afk afk client) →
  ∀ τ : IdleMover Srv, afk_channel τ = afk →
  ∃ τ', for_each L (move_to_afk_body cfg) τ = (Ok tt, τ')
        ∧ (∀ k, client_channels τ' !! k = client_channels τ !! k
                ∨ ∃ client, client ∈ L ∧ get_str client "clid" "-1" = k
                            ∧ client_channels τ' !! k = Some (get_str client "cid" "0"))
        ∧ (∀ client n, client ∈ L →
             py_int (PStr (get_str client "clid" "-1")) = Ok n →
             (∀ srv : Srv, fst (clientmove (PStr afk) n srv) = Ok tt) →
             ∃ client', client' ∈ L
               ∧ get_str client' "clid" "-1" = get_str client "clid" "-1"
               ∧ client_channels τ' !! get_str client "clid" "-1"
                 = Some (get_str client' "cid" "0")).
Proof.
  intros Hdry. induction L as [|c L IH]; intros Hall τ Hafk.
  - exists τ. split; [done|]. split; [by left|]. by intros ? ? ?%elem_of_nil.
  - destruct (Hall c ltac:(left)) as (n & Hn & Hmove).
    destruct (move_to_afk_body_run c τ n Hdry Hn) as (τ1 & Hbody & Hafk1 & Hstore & Hok).
    { rewrite Hafk. apply Hmove. }
    destruct (IH (λ x Hx, Hall x ltac:(by right)) τ1 ltac:(congruence))
      as (τ' & Hloop & Hkeys & Hmoved).
    exists τ'. split; [|split].
    + unfold for_each in *. cbn [for_in]. unfold bind. by rewrite Hbody.
    + intros k. destruct (Hkeys k) as [Hk|(c' & Hc' & Hkey & Hv)].
      2:{ right. exists c'. split; [by right|done]. }
      rewrite Hk. destruct Hstore as [->| ->]; [by left|].
      destruct (decide (get_str c "clid" "-1" = k)) as [<-|Hne].
      * right. exists c. split; [left|]. by rewrite lookup_insert_eq.
      * left. by apply lookup_insert_ne.
    + intros c0 n0 [->|Hin]%elem_of_cons Hn0 Hret.
      * assert (n0 = n) as -> by congruence.
        destruct Hok as [Hins _]; [rewrite Hafk; apply Hret|].
        destruct (Hkeys (get_str c "clid" "-1")) as [Hk|(c' & Hc' & Hkey & Hv)].
        -- exists c. split; [left|]. split; [done|].
           by rewrite Hk, Hins, lookup_insert_eq.
        -- exists c'. split; [by right|done].
      * destruct (Hmoved c0 n0 Hin Hn0 Hret) as (c' & Hc' & Hkey & Hv).
        exists c'. split; [by right|done].
Qed.

(** X8. Outside a dry run, when [int] reads the [clid] of every client
    of the idle list and [clientmove] returns or raises a [TS3Exception]
    for it, [move_to_afk] (and [move_all_afk]) returns: a move that the
    server refuses is logged and the clients after it are still moved.
    Afterwards a client whose move the server carries out has an entry under
    its [clid], and the entry holds the channel that the snapshot gave for a
    client of the list with that [clid]; every other entry is as before. *)
Theorem move_to_afk_tracks_moved (σ σ1 : IdleMover Srv) L :
  dry_run cfg = false →
  get_idle_list cfg σ = (Ok L, σ1) →
  (∀ client, client ∈ L → can_move_to_afk (afk_channel σ) client) →
  ∃ σ', move_to_afk cfg σ = (Ok tt, σ') ∧ move_all_afk cfg σ = (Ok tt, σ')
        ∧ (∀ client n, client ∈ L →
             py_int (PStr (get_str client "clid" "-1")) = Ok n →
             (∀ srv : Srv, fst (clientmove (PStr (afk_channel σ)) n srv) = Ok tt) →
             ∃ client', client' ∈ L
               ∧ get_str client' "clid" "-1" = get_str client "clid" "-1"
               ∧ client_channels σ' !! get_str client "clid" "-1"
                 = Some (get_str client' "cid" "0"))
        ∧ (∀ k, (∀ client, client ∈ L → get_str client "clid" "-1" ≠ k) →
             client_channels σ' !! k = client_channels σ !! k).
Proof.
  intros Hdry Hlist Hall.
  pose proof (get_idle_list_reads cfg σ) as Hreads. rewrite Hlist in Hreads.
  destruct Hreads as (Hafk & Hstore & _). cbn in Hafk, Hstore.
  destruct (move_to_afk_loop (afk_channel σ) L Hdry Hall
              (logging [{| lvl := debug; msg := "Moving clients to afk!" |}] σ1))
    as (σ' & Hloop & Hkeys & Hmoved); [done|].
  assert (move_to_afk cfg σ = (Ok tt, σ')) as Hrun.
  { unfold move_to_afk. unfold mbind at 1. unfold M_bind, bind. rewrite Hlist.
    unfold mbind at 1. unfold M_bind, bind. by rewrite log_run. }
  exists σ'. split; [done|]. split.
  { unfold move_all_afk, try_except. by rewrite Hrun. }
  split; [done|].
  intros k Hk. destruct (Hkeys k) as [->|(c & Hc & Hkey & _)].
  - cbn. by rewrite Hstore.
  - by destruct (Hk c Hc).
Qed.

End ToAfk.

(** ** Moving back *)

Section Back.
Context {Srv : Type} `{!TS3Connection Srv}.
Variable cfg : config.

Lemma channel_forbids_permits info details n (τ : IdleMover Srv) :
  permits cfg info details →
  channel_forbids cfg (Some info) details n τ = (Ok false, τ).
Proof.
  unfold channel_forbids. intros [->|[->|(d & m & -> & Hm & Hroom & Hpw)]]; [done| |].
  - by destruct (resp_channel_settings cfg).
  - destruct (resp_channel_settings cfg); [|done].
    unfold local. run_goal. rewrite Hm.
    destruct Hroom as [->|(total & Ht & Hlt)].
    + cbn. by rewrite Hpw.
    + destruct (Z.eqb_spec m (-1)); cbn; [by rewrite Hpw|].
      rewrite Ht. cbn. rewrite (proj2 (Z.leb_gt m total)) by done. by rewrite Hpw.
Qed.

(** A round of [move_all_back] for a tracked client whose channel permits
    the move and whose move the server carries out. *)
Lemma move_all_back_body_moves channel_list channel_info (client : dict)
    (τ : IdleMover Srv) n origin ch info details s1 s2 :
  client !! "clid" = Some (py_str n) →
  client_channels τ !! py_str n = Some origin →
  py_int (PStr origin) = Ok ch →
  channelinfo ("cid=" +:+ py_str ch) (ts3conn τ) = (Ok info, s1) →
  find_channel channel_list ch = Ok details →
  permits cfg info details →
  clientmove (PInt ch) n s1 = (Ok tt, s2) →
  ∃ τ', move_all_back_body cfg channel_list channel_info client τ = (Ok (Some info), τ')
        ∧ client_channels τ' = delete (py_str n) (client_channels τ)
        ∧ moves τ' = moves τ ++ [{| to_cid := PInt ch; moved_clid := n; returned := true |}].
Proof.
  intros Hclid Htracked Horigin Hquery Hfind Hpermits Hmove.
  unfold move_all_back_body, mbind, M_bind, bind, read, eval.
  unfold get_default, get_val, get, in_keys. rewrite Hclid, Htracked.
  rewrite bool_decide_eq_true_2 by done. cbn [negb].
  rewrite !log_run, !logging_app. cbn [app client_channels logging].
  rewrite Htracked, Horigin, py_int_py_str.
  unfold try_except, mbind, M_bind, bind. rewrite call_run. cbn [ts3conn logging].
  rewrite Hquery. cbn [fst snd mret M_ret ret].
  unfold move_back_checked, mbind, M_bind, bind, eval. rewrite Hfind.
  rewrite channel_forbids_permits by done.
  unfold move_back, try_except, mbind, M_bind, bind.
  rewrite do_clientmove_run. cbn [ts3conn answered]. rewrite Hmove. cbn [fst snd].
  unfold del_client_channels, mbind, M_bind, bind, read, set_client_channels.
  cbn [client_channels moved answered logging]. rewrite bool_decide_eq_true_2 by done.
  eexists. split; [done|]. done.
Qed.

(** A round for a client without an entry does nothing. *)
Lemma move_all_back_body_untracked channel_list channel_info (client : dict)
    (τ : IdleMover Srv) :
  (∀ clid, client !! "clid" = Some clid → client_channels τ !! clid = None) →
  move_all_back_body cfg channel_list channel_info client τ = (Ok channel_info, τ).
Proof.
  intros Hun. unfold move_all_back_body, mbind, M_bind, bind, read.
  unfold get_default, in_keys. destruct (client !! "clid") as [clid|]; [|done].
  rewrite (Hun clid eq_refl). by rewrite bool_decide_eq_false_2 by by intros [? ?].
Qed.

(** X9. A client that [move_to_afk] moved is tracked under its [clid]
    with the channel of the snapshot, and the round of [move_all_back] for
    that client moves it to this channel: it reads the entry, asks the
    server for the channel, and, the settings permitting and the server
    carrying the move out, issues the one [clientmove] to the channel the
    client came from and deletes the entry. *)
Theorem moved_client_returns_to_origin (σ : IdleMover Srv) (client : dict) n origin ch s :
  dry_run cfg = false →
  client !! "clid" = Some (py_str n) →
  client !! "cid" = Some origin →
  py_int (PStr origin) = Ok ch →
  clientmove (PStr (afk_channel σ)) n (ts3conn σ) = (Ok tt, s) →
  fst (move_to_afk_body cfg client σ) = Ok tt
  ∧ client_channels (snd (move_to_afk_body cfg client σ)) !! py_str n = Some origin
  ∧ ∀ (τ : IdleMover Srv) (client' : dict) channel_list channel_info info details s1 s2,
      client_channels τ !! py_str n = Some origin →
      client' !! "clid" = Some (py_str n) →
      channelinfo ("cid=" +:+ py_str ch) (ts3conn τ) = (Ok info, s1) →
      find_channel channel_list ch = Ok details →
      permits cfg info details →
      clientmove (PInt ch) n s1 = (Ok tt, s2) →
      ∃ τ', move_all_back_body cfg channel_list channel_info client' τ
            = (Ok (Some info), τ')
            ∧ client_channels τ' !! py_str n = None
            ∧ client_channels τ' = delete (py_str n) (client_channels τ)
            ∧ moves τ' = moves τ ++ [{| to_cid := PInt ch; moved_clid := n;
                                         returned := true |}].
Proof.
  intros Hdry Hclid Hcid Horigin Hmove.
  assert (get_str client "clid" "-1" = py_str n) as Hkey
    by (unfold get_str; by rewrite Hclid).
  assert (get_str client "cid" "0" = origin) as Hval
    by (unfold get_str; by rewrite Hcid).
  destruct (move_to_afk_body_run cfg client σ n Hdry) as (σ1 & Hbody & _ & _ & Hok).
  { rewrite Hkey. apply py_int_py_str. }
  { by rewrite Hmove. }
  rewrite Hbody. cbn [fst snd]. split; [done|]. split.
  { destruct Hok as [-> _]; [by rewrite Hmove|]. by rewrite Hkey, Hval, lookup_insert_eq. }
  intros τ client' channel_list channel_info info details s1 s2
    Htracked Hclid' Hquery Hfind Hpermits Hback.
  destruct (move_all_back_body_moves channel_list channel_info client' τ n origin ch
              info details s1 s2) as (τ' & Hrun & Hstore & Hmoves); try done.
  exists τ'. split; [done|]. split; [|done]. rewrite Hstore. apply lookup_delete_eq.
Qed.

(** The loop of [move_all_back] over clients that can all be moved back. *)
Lemma move_all_back_loop (store0 : gmap string string) channel_list (L : list dict) :
  (∀ client, client ∈ L → can_move_back cfg store0 channel_list client) →
  ∀ (τ : IdleMover Srv) channel_info,
  client_channels τ ⊆ store0 →
  ∃ τ' channel_info',
    for_in L channel_info (move_all_back_body cfg channel_list) τ = (Ok channel_info', τ')
    ∧ (∀ client n, client ∈ L → client !! "clid" = Some (py_str n) →
         client_channels τ' !! py_str n = None)
    ∧ (∀ k, client_channels τ' !! k = client_channels τ !! k
            ∨ (client_channels τ' !! k = None
               ∧ ∃ client, client ∈ L ∧ client !! "clid" = Some k))
    ∧ ∃ new, moves τ' = moves τ ++ new
        ∧ ∀ client n origin, client ∈ L → client !! "clid" = Some (py_str n) →
            client_channels τ !! py_str n = Some origin →
            ∃ ch, py_int (PStr origin) = Ok ch
                  ∧ {| to_cid := PInt ch; moved_clid := n; returned := true |} ∈ new.
Proof.
  induction L as [|c L IH]; intros Hall τ channel_info Hsub.
  - exists τ, channel_info. split; [done|]. split; [by intros ? ? ?%elem_of_nil|].
    split; [by left|]. exists []. rewrite app_nil_r. split; [done|].
    by intros ? ? ? ?%elem_of_nil.
  - destruct (Hall c ltac:(left)) as (n & Hclid & Hc).
    assert (∃ τ1 ci1,
      move_all_back_body cfg channel_list channel_info c τ = (Ok ci1, τ1)
      ∧ client_channels τ1 = delete (py_str n) (client_channels τ)
      ∧ ∃ new1, moves τ1 = moves τ ++ new1
          ∧ ∀ origin, client_channels τ !! py_str n = Some origin →
              ∃ ch, py_int (PStr origin) = Ok ch
                    ∧ {| to_cid := PInt ch; moved_clid := n; returned := true |} ∈ new1)
      as (τ1 & ci1 & Hbody & Hstore1 & new1 & Hmoves1 & Hnew1).
    { destruct (client_channels τ !! py_str n) as [origin|] eqn:Htracked.
      - destruct (Hc origin) as (ch & details & Horigin & Hfind & Hinfo & Hmove).
        { by apply (lookup_weaken _ _ _ _ Htracked). }
        destruct (Hinfo (ts3conn τ)) as (info & s1 & Hquery & Hpermits).
        destruct (move_all_back_body_moves channel_list channel_info c τ n origin ch
                    info details s1 (snd (clientmove (PInt ch) n s1)))
          as (τ1 & Hrun & Hst & Hmv); try done.
        { specialize (Hmove s1). by destruct (clientmove (PInt ch) n s1) as [[[]|] ?]. }
        exists τ1, (Some info). split; [done|]. split; [done|].
        eexists. split; [done|]. intros o [= <-]. exists ch. split; [done|].
        apply list_elem_of_here.
      - exists τ, channel_info. split.
        { apply move_all_back_body_untracked. intros clid Hclid'. congruence. }
        split; [by rewrite delete_id|]. exists []. rewrite app_nil_r. done. }
    destruct (IH (λ x Hx, Hall x ltac:(by right)) τ1 ci1)
      as (τ' & ci' & Hloop & Hnone & Hkeys & new & Hmoves & Hnew).
    { rewrite Hstore1. etrans; [apply delete_subseteq|done]. }
    exists τ', ci'. split; [|split; [|split]].
    + cbn [for_in]. unfold bind. by rewrite Hbody.
    + intros c0 n0 [->|Hin]%elem_of_cons Hclid0; [|by apply (Hnone c0)].
      assert (py_str n0 = py_str n) as -> by congruence.
      destruct (Hkeys (py_str n)) as [->|[? _]]; [|done].
      rewrite Hstore1. apply lookup_delete_eq.
    + intros k. destruct (decide (k = py_str n)) as [->|Hne].
      * right. split; [|exists c; split; [left|done]].
        destruct (Hkeys (py_str n)) as [->|[? _]]; [|done].
        rewrite Hstore1. apply lookup_delete_eq.
      * destruct (Hkeys k) as [->|[? (c' & ? & ?)]].
        -- left. rewrite Hstore1. by apply lookup_delete_ne.
        -- right. split; [done|]. exists c'. split; [by right|done].
    + exists (new1 ++ new). split; [by rewrite Hmoves, Hmoves1, app_assoc|].
      intros c0 n0 origin Hin Hclid0 Htracked.
      destruct (decide (n0 = n)) as [->|Hne].
      * destruct (Hnew1 origin Htracked) as (ch & ? & ?). exists ch. split; [done|].
        apply elem_of_app. by left.
      * apply elem_of_cons in Hin as [->|Hin];
          [exfalso; apply Hne, py_str_inj; congruence|].
        destruct (Hnew c0 n0 origin Hin Hclid0) as (ch & ? & ?).
        { rewrite Hstore1. rewrite lookup_delete_ne; [done|].
          intros Heq. by apply py_str_inj in Heq. }
        exists ch. split; [done|]. apply elem_of_app. by right.
Qed.

(** X10. When the list of channels of the pass is answered, every tracked
    client of the back list has an origin whose settings permit the move,
    and the server answers [channelinfo] and carries out the moves, then
    [move_all_back] returns, every client of the back list is without an
    entry afterwards, each tracked one has been moved to the channel that
    its entry held, and the entries of all other clients are as before. *)
Theorem move_all_back_restores (σ σ1 : IdleMover Srv) L channel_list s :
  get_back_list cfg σ = (Ok L, σ1) →
  channellist (ts3conn σ1) = (Ok channel_list, s) →
  (∀ client, client ∈ L →
     can_move_back cfg (client_channels σ) channel_list client) →
  ∃ σ', move_all_back cfg σ = (Ok tt, σ')
    ∧ (∀ client n, client ∈ L → client !! "clid" = Some (py_str n) →
         client_channels σ' !! py_str n = None)
    ∧ (∀ k, (∀ client, client ∈ L → client !! "clid" ≠ Some k) →
         client_channels σ' !! k = client_channels σ !! k)
    ∧ ∃ new, moves σ' = moves σ ++ new
        ∧ ∀ client n origin, client ∈ L → client !! "clid" = Some (py_str n) →
            client_channels σ !! py_str n = Some origin →
            ∃ ch, py_int (PStr origin) = Ok ch
                  ∧ {| to_cid := PInt ch; moved_clid := n; returned := true |} ∈ new.
Proof.
  intros Hlist Hchannels Hall.
  pose proof (get_back_list_reads cfg σ) as Hreads. rewrite Hlist in Hreads.
  destruct Hreads as (_ & Hstore & _ & _ & Hmoves). cbn in Hstore, Hmoves.
  set (τ := answered s
              (logging [{| lvl := debug; msg := "Moving clients back" |};
                        {| lvl := debug; msg := "Backlist is: %s" |};
                        {| lvl := debug; msg := "Saved channel list keys are: %s\n" |}] σ1)).
  destruct (move_all_back_loop (client_channels σ) channel_list L Hall τ None)
    as (σ' & ci & Hloop & Hnone & Hkeys & new & Hnewmoves & Hnew).
  { cbn. by rewrite Hstore. }
  exists σ'. split; [|split; [|split]].
  - unfold move_all_back. unfold mbind at 1. unfold M_bind, bind. rewrite Hlist.
    unfold mbind, M_bind, bind. rewrite !log_run, !logging_app. cbn [app].
    unfold try_except. rewrite call_run. cbn [ts3conn logging]. rewrite Hchannels.
    cbn [fst snd mret M_ret ret]. fold τ. by rewrite Hloop.
  - done.
  - intros k Hk. destruct (Hkeys k) as [->|[_ (c & Hc & Hclid)]].
    + cbn. by rewrite Hstore.
    + by destruct (Hk c Hc).
  - exists new. split; [by rewrite Hnewmoves; cbn; rewrite Hmoves|].
    intros c n origin Hin Hclid Htracked. apply (Hnew c n origin Hin Hclid).
    cbn. by rewrite Hstore.
Qed.

(** X11. When the [channellist] query of a pass is refused with a query
    error, [move_all_back] logs the error and returns: no client is moved
    back in that pass and every entry stays. *)
Theorem channellist_failure_moves_nobody (σ σ1 : IdleMover Srv) L id message s :
  get_back_list cfg σ = (Ok L, σ1) →
  channellist (ts3conn σ1) = (Raise (TS3QueryException id message), s) →
  ∃ σ', move_all_back cfg σ = (Ok tt, σ')
        ∧ untouched σ σ'
        ∧ last (logged σ')
          = Some {| lvl := error; msg := "Failed to get the current channellist: " |}.
Proof.
  intros Hlist Hquery.
  pose proof (get_back_list_reads cfg σ) as Hreads. rewrite Hlist in Hreads.
  destruct Hreads as (_ & Hstore & _ & _ & Hmoves). cbn in Hstore, Hmoves.
  unfold move_all_back. unfold mbind at 1. unfold M_bind, bind. rewrite Hlist.
  unfold mbind, M_bind, bind. rewrite !log_run, !logging_app. cbn [app].
  unfold try_except. rewrite call_run. cbn [ts3conn logging]. rewrite Hquery.
  cbn [fst snd is_TS3QueryException]. rewrite log_run.
  eexists. split; [done|]. split; [by split|]. cbn. apply last_snoc.
Qed.

End Back.

(** X12. [find_channel], the search of [move_all_back] in the channel
    list of the pass, returns the first channel whose [cid] reads as the
    wanted id, every channel before it having a [cid] that reads as another
    id; it finds none exactly when every channel of the list has a [cid]
    that reads as another id. *)
Theorem find_channel_first_match channel_list channel_id :
  (∀ channel, find_channel channel_list channel_id = Ok (Some channel) ↔
     ∃ before after, channel_list = before ++ channel :: after
       ∧ py_int (get channel "cid") = Ok channel_id
       ∧ Forall (λ c : dict, ∃ n, py_int (get c "cid") = Ok n ∧ n ≠ channel_id) before)
  ∧ (find_channel channel_list channel_id = Ok None ↔
       Forall (λ c : dict, ∃ n, py_int (get c "cid") = Ok n ∧ n ≠ channel_id)
         channel_list).
Proof.
  induction channel_list as [|c l [IHsome IHnone]].
  - split.
    + intros channel. split; [done|]. intros ([|? ?] & ? & ? & _); done.
    + done.
  - assert (find_channel (c :: l) channel_id
            = match c !! "cid" with
              | None => Raise (KeyError "cid")
              | Some s =>
                  match py_int (PStr s) with
                  | Raise e => Raise e
                  | Ok n => if n =? channel_id then Ok (Some c)
                            else find_channel l channel_id
                  end
              end) as -> by done.
    unfold get in *. split.
    + intros channel. split.
      * destruct (c !! "cid") as [s|] eqn:Hs; [|done].
        destruct (py_int (PStr s)) as [n|] eqn:Hn; [|done].
        destruct (Z.eqb_spec n channel_id) as [->|Hne].
        -- intros [= <-]. exists [], l. rewrite Hs. by repeat split.
        -- intros (before & after & -> & ? & ?)%IHsome.
           exists (c :: before), after. split; [done|]. split; [done|].
           constructor; [|done]. exists n. by rewrite Hs.
      * intros ([|c' before] & after & Heq & Hcid & Hbefore); simplify_eq/=.
        -- destruct (channel !! "cid") as [s|]; [|done]. rewrite Hcid.
           by rewrite Z.eqb_refl.
        -- apply Forall_cons in Hbefore as [(n & Hn & Hne) Hbefore].
           destruct (c' !! "cid") as [s|]; [|done]. rewrite Hn.
           rewrite (proj2 (Z.eqb_neq _ _) Hne). apply IHsome. by exists before, after.
    + split.
      * destruct (c !! "cid") as [s|] eqn:Hs; [|done].
        destruct (py_int (PStr s)) as [n|] eqn:Hn; [|done].
        destruct (Z.eqb_spec n channel_id) as [->|Hne]; [done|].
        intros Hl%IHnone. constructor; [|done]. exists n. by rewrite Hs.
      * intros [(n & Hn & Hne) Hl]%Forall_cons.
        destruct (c !! "cid") as [s|]; [|done]. rewrite Hn.
        rewrite (proj2 (Z.eqb_neq _ _) Hne). by apply IHnone.
Qed.

(** ** The events, the thread and the constructor *)

Section Lifecycle.
Context {Srv : Type} `{!TS3Connection Srv}.
Variable cfg : config.

(** X13. When a client leaves, [client_left] deletes the entry under
    [str(client_id)] and no other: the entry of a client with another id
    is as before, since [str] gives different ids different keys.  If a
    client with that id is in a later back list, the round of
    [move_all_back] for it does nothing; a second event for the same id
    changes nothing. *)
Theorem client_left_forgets (σ : IdleMover Srv) client_id :
  ∃ σ', client_left (Some σ) client_id = Some σ'
        ∧ client_channels σ' !! py_str client_id = None
        ∧ (∀ other, other ≠ client_id →
             client_channels σ' !! py_str other = client_channels σ !! py_str other)
        ∧ moves σ' = moves σ ∧ idle_list σ' = idle_list σ
        ∧ (∀ channel_list channel_info (client : dict),
             client !! "clid" = Some (py_str client_id) →
             move_all_back_body cfg channel_list channel_info client σ'
             = (Ok channel_info, σ'))
        ∧ client_left (Some σ') client_id = Some σ'.
Proof.
  unfold client_left. case_bool_decide as Hk.
  - eexists. split; [done|]. cbn [snd set_client_channels client_channels moves idle_list].
    split; [apply lookup_delete_eq|]. split.
    { intros other Hne. apply lookup_delete_ne. intros Heq. by apply py_str_inj in Heq. }
    split; [done|]. split; [done|]. split.
    + intros channel_list channel_info client Hclid.
      apply move_all_back_body_untracked. intros clid Hclid'. cbn.
      assert (clid = py_str client_id) as -> by congruence. apply lookup_delete_eq.
    + rewrite bool_decide_eq_false_2; [done|]. rewrite lookup_delete_eq. by intros [? ?].
  - exists σ. apply eq_None_not_Some in Hk. split; [done|]. split; [done|].
    split; [done|]. split; [done|]. split; [done|]. split.
    + intros channel_list channel_info client Hclid.
      apply move_all_back_body_untracked. intros clid Hclid'. congruence.
    + rewrite bool_decide_eq_false_2; [done|]. rewrite Hk. by intros [? ?].
Qed.

Lemma auto_move_all_last_record timeouts (σ : IdleMover Srv) :
  last (logged (snd (auto_move_all cfg timeouts σ)))
  = Some {| lvl := warning; msg := "AFKMover stopped!" |}.
Proof.
  revert σ. induction timeouts as [|n IH]; intros σ; cbn [auto_move_all].
  - unfold mbind, M_bind, bind. rewrite log_run. cbn. apply last_snoc.
  - unfold mbind, M_bind, bind. pose proof (tick_returns cfg σ) as Htick.
    destruct (tick cfg σ) as [[[]|e] σ1]; [|done]. apply IH.
Qed.

#[local] Instance keeps_if_empty_preorder : PreOrder (@keeps_if_empty Srv).
Proof.
  split.
  - by intros σ _.
  - intros σ1 σ2 σ3 H12 H23 Hempty. etrans; [by apply H12|]. apply H23.
    destruct (H12 Hempty) as (_ & -> & _). done.
Qed.

Lemma steps_keeps_if_empty {A} (m : M A) :
  steps (@keeps Srv) m → steps keeps_if_empty m.
Proof. intros Hm σ _. apply Hm. Qed.

Lemma move_all_back_body_if_empty channel_list channel_info client :
  steps (@keeps_if_empty Srv) (move_all_back_body cfg channel_list channel_info client).
Proof.
  intros σ Hempty. rewrite move_all_back_body_untracked; [done|].
  intros clid _. by rewrite Hempty.
Qed.

Ltac quiet_prim :=
  idtac; lazymatch goal with
  | |- steps _ (move_all_back_body _ _ _ _) => apply move_all_back_body_if_empty
  | |- steps _ (log _ _) => apply steps_keeps_if_empty, keeps_log
  | |- steps _ (call _) => apply steps_keeps_if_empty, keeps_call
  | |- steps _ (get_back_list _) =>
      apply steps_keeps_if_empty, steps_reads_keeps, get_back_list_reads
  | |- steps _ update_client_list =>
      apply steps_keeps_if_empty, update_client_list_keeps
  end.

Lemma move_all_back_if_empty : steps (@keeps_if_empty Srv) (move_all_back cfg).
Proof. unfold move_all_back. steps_with quiet_prim. Qed.

Lemma move_all_afk_dry_run_keeps :
  dry_run cfg = true → steps (@keeps Srv) (move_all_afk cfg).
Proof.
  intros Hdry. unfold move_all_afk.
  steps_with ltac:(idtac; lazymatch goal with
                   | |- steps _ (move_to_afk _) => by apply move_to_afk_dry_run_keeps
                   | |- steps _ (log _ _) => apply keeps_log
                   end).
Qed.

Lemma tick_dry_run_if_empty :
  dry_run cfg = true → steps (@keeps_if_empty Srv) (tick cfg).
Proof.
  intros Hdry. unfold tick.
  steps_with ltac:(idtac; lazymatch goal with
    | |- steps _ (move_all_back _) => apply move_all_back_if_empty
    | |- steps _ (move_all_afk _) =>
        apply steps_keeps_if_empty; by apply move_all_afk_dry_run_keeps
    | |- _ => quiet_prim
    end).
Qed.

(** X14. In a dry run a mover that starts without entries, as [__init__]
    leaves it, never issues a [clientmove]: not in [move_to_afk], which
    logs what it would do, and not in [move_all_back] and
    [fallback_action], which have no entry to act on.  This holds for every
    pass of the loop and for the whole run of the thread. *)
Theorem dry_run_issues_no_move (σ : IdleMover Srv) :
  dry_run cfg = true →
  client_channels σ = ∅ →
  untouched σ (snd (tick cfg σ))
  ∧ ∀ timeouts, moves (snd (run cfg timeouts σ)) = moves σ.
Proof.
  intros Hdry Hempty. split.
  { apply keeps_untouched. by apply tick_dry_run_if_empty. }
  intros timeouts.
  assert (∀ n (τ : IdleMover Srv), client_channels τ = ∅ →
            moves (snd (auto_move_all cfg n τ)) = moves τ) as Hloop.
  { induction n as [|n IH]; intros τ Hτ; cbn [auto_move_all].
    - done.
    - unfold mbind, M_bind, bind. pose proof (tick_returns cfg τ) as Htick.
      pose proof (tick_dry_run_if_empty Hdry τ Hτ) as (_ & Hstore & Hmoves).
      destruct (tick cfg τ) as [[[]|e] τ1]; [|done]. cbn in Hstore, Hmoves.
      rewrite IH by congruence. done. }
  unfold run, try_except. unfold mbind, M_bind, bind. rewrite log_run. cbv beta iota.
  set (σ0 := logging _ σ).
  destruct (auto_move_all_clears cfg timeouts σ0) as [Hret _].
  pose proof (Hloop timeouts σ0 Hempty) as Hmoves.
  destruct (auto_move_all cfg timeouts σ0) as [[[]|e] σ1]; [|done]. done.
Qed.

#[local] Instance only_to_afk_preorder : PreOrder (@only_to_afk Srv).
Proof.
  split.
  - intros σ. split; [done|]. split; [done|]. exists []. by rewrite app_nil_r.
  - intros σ1 σ2 σ3 (Ha1 & Hk1 & new1 & Hm1 & Hf1) (Ha2 & Hk2 & new2 & Hm2 & Hf2).
    split; [congruence|]. split; [by intros k ?%Hk1%Hk2|].
    exists (new1 ++ new2). split; [by rewrite Hm2, Hm1, app_assoc|].
    apply Forall_app. split; [done|]. by rewrite Ha1 in Hf2.
Qed.

Lemma keeps_only_to_afk (σ σ' : IdleMover Srv) : keeps σ σ' → only_to_afk σ σ'.
Proof.
  intros (Ha & Hs & Hm). split; [done|]. split; [by rewrite Hs|].
  exists []. by rewrite app_nil_r.
Qed.

Lemma move_then_insert_only_to_afk (client : dict) :
  steps (@only_to_afk Srv)
    (afk ← read afk_channel;
     clid ← eval (py_int (get_default client "clid" (PStr "-1")));
     do_clientmove (PStr afk) clid ;;
     set_client_channels
       (insert (get_str client "clid" "-1") (get_str client "cid" "0"))).
Proof.
  intros σ. unfold mbind, M_bind, bind, read, eval.
  destruct (py_int (get_default client "clid" (PStr "-1"))) as [n|]; [|reflexivity].
  rewrite do_clientmove_run.
  destruct (clientmove (PStr (afk_channel σ)) n (ts3conn σ)) as [[[]|e] s]; cbn [fst snd].
  - unfold set_client_channels, only_to_afk.
    cbn [fst snd client_channels afk_channel moves moved].
    split; [done|]. split.
    + intros k Hk. destruct (decide (k = get_str client "clid" "-1")) as [->|Hne].
      * by rewrite lookup_insert_eq.
      * by rewrite lookup_insert_ne.
    + eexists. split; [done|]. by repeat constructor.
  - split; [done|]. split; [done|]. eexists. split; [done|]. by repeat constructor.
Qed.

Ltac to_afk_prim :=
  idtac; lazymatch goal with
  | |- steps _ (mbind _ (read afk_channel)) => apply move_then_insert_only_to_afk
  | |- steps _ (log _ _) => apply (steps_mono keeps), keeps_log; apply keeps_only_to_afk
  | |- steps _ (get_idle_list _) =>
      apply (steps_mono keeps), steps_reads_keeps, get_idle_list_reads;
      apply keeps_only_to_afk
  | |- steps _ update_client_list =>
      apply (steps_mono keeps), update_client_list_keeps; apply keeps_only_to_afk
  end.

(** X15. With [enable_auto_move_back] unset, a pass of the loop moves
    clients to the AFK channel and nowhere else, and deletes no entry of
    [client_channels]: whoever was moved stays tracked until the client
    leaves or the mover stops. *)
Theorem without_move_back_only_to_afk :
  enable_auto_move_back cfg = false →
  ∀ σ : IdleMover Srv, only_to_afk σ (snd (tick cfg σ)).
Proof.
  intros Hoff. change (steps (@only_to_afk Srv) (tick cfg)).
  unfold tick. rewrite Hoff. unfold move_all_afk, move_to_afk, move_to_afk_body.
  steps_with to_afk_prim.
Qed.

(** X16. [__init__] asks the server for the channel named
    [channel_name] and raises what [get_channel_by_name] raises: the
    exception of the query, or [IndexError] when no channel is found, so
    that no mover exists without an AFK channel.  When the channel is found
    and no group is excluded, the new mover has the [cid] of the first
    channel found as its AFK channel, no entry, no ignored group and no
    snapshot, and until the first snapshot both candidate lists are empty. *)
Theorem init_outcomes conn records history :
  (∀ channel rest s,
     channelfind (channel_name cfg) conn = (Ok (channel :: rest), s) →
     servergroups_to_exclude cfg = None →
     ∃ σ', init cfg (blank conn records history) = (Ok tt, σ')
           ∧ afk_channel σ' = get_str channel "cid" "-1"
           ∧ client_channels σ' = ∅ ∧ servergroup_ids_to_ignore σ' = []
           ∧ idle_list σ' = None ∧ moves σ' = history
           ∧ fst (get_idle_list cfg σ') = Ok []
           ∧ fst (get_back_list cfg σ') = Ok [])
  ∧ (∀ s, channelfind (channel_name cfg) conn = (Ok [], s) →
       fst (init cfg (blank conn records history)) = Raise IndexError)
  ∧ (∀ e s, channelfind (channel_name cfg) conn = (Raise e, s) →
       fst (init cfg (blank conn records history)) = Raise e).
Proof.
  unfold init. split; [|split].
  - intros channel rest s Hfind Hnone.
    unfold mbind at 1. unfold M_bind, bind.
    unfold get_channel_by_name, try_except. unfold mbind at 1. unfold M_bind, bind.
    rewrite call_run. cbn [ts3conn blank]. rewrite Hfind. cbn [fst snd].
    unfold mret at 1. unfold M_ret, ret. cbv beta iota.
    unfold update_servergroup_ids_list. rewrite Hnone.
    unfold mbind, M_bind, bind, set_afk_channel, set_client_channels,
      set_servergroup_ids_to_ignore, set_idle_list. rewrite log_run.
    cbv beta iota. eexists. split; [done|]. cbn. done.
  - intros s Hfind. unfold mbind at 1. unfold M_bind, bind.
    unfold get_channel_by_name, try_except. unfold mbind at 1. unfold M_bind, bind.
    rewrite call_run. cbn [ts3conn blank]. by rewrite Hfind.
  - intros e s Hfind. unfold mbind at 1. unfold M_bind, bind.
    unfold get_channel_by_name, try_except. unfold mbind at 1. unfold M_bind, bind.
    rewrite call_run. cbn [ts3conn blank]. rewrite Hfind. cbn [fst snd].
    destruct (is_TS3Exception e); [|done].
    unfold mbind, M_bind, bind. by rewrite log_run.
Qed.

End Lifecycle.

(** ** The thread and a whole pass *)

Section Frame.
Context {Srv : Type} `{!TS3Connection Srv}.
Variable cfg : config.

#[local] Instance keeps_snapshot_preorder : PreOrder (@keeps_snapshot Srv).
Proof.
  split.
  - by intros σ.
  - intros σ1 σ2 σ3 (?&?&?) (?&?&?). repeat split; congruence.
Qed.

Lemma reads_keeps_snapshot (σ σ' : IdleMover Srv) : reads σ σ' → keeps_snapshot σ σ'.
Proof. by intros (?&?&?&?&?). Qed.

Lemma keeps_snapshot_do_clientmove cid n :
  steps (@keeps_snapshot Srv) (do_clientmove cid n).
Proof. intros σ. rewrite do_clientmove_run. done. Qed.

Lemma keeps_snapshot_del k : steps (@keeps_snapshot Srv) (del_client_channels k).
Proof.
  intros σ. unfold del_client_channels, mbind, M_bind, bind, read.
  by destruct (bool_decide _).
Qed.

Ltac snapshot_prim :=
  idtac; lazymatch goal with
  | |- steps _ (log _ _) => apply (steps_mono reads), reads_log; apply reads_keeps_snapshot
  | |- steps _ (call _) => apply (steps_mono reads), reads_call; apply reads_keeps_snapshot
  | |- steps _ (get_back_list _) =>
      apply (steps_mono reads), get_back_list_reads; apply reads_keeps_snapshot
  | |- steps _ (get_channel_by_name _) =>
      apply (steps_mono reads), get_channel_by_name_reads; apply reads_keeps_snapshot
  | |- steps _ (do_clientmove _ _) => apply keeps_snapshot_do_clientmove
  | |- steps _ (del_client_channels _) => apply keeps_snapshot_del
  end.

Lemma move_all_back_keeps_snapshot : steps (@keeps_snapshot Srv) (move_all_back cfg).
Proof.
  unfold move_all_back, move_all_back_body, move_back_checked, channel_forbids, move_back,
    fallback_action.
  steps_with snapshot_prim.
Qed.

Ltac snapshot_afk_prim :=
  idtac; lazymatch goal with
  | |- steps _ (log _ _) => apply (steps_mono reads), reads_log; apply reads_keeps_snapshot
  | |- steps _ (get_idle_list _) =>
      apply (steps_mono reads), get_idle_list_reads; apply reads_keeps_snapshot
  | |- steps _ (do_clientmove _ _) => apply keeps_snapshot_do_clientmove
  | |- steps _ (set_client_channels _) => by intros ?
  end.

Lemma move_all_afk_keeps_snapshot : steps (@keeps_snapshot Srv) (move_all_afk cfg).
Proof.
  unfold move_all_afk, move_to_afk, move_to_afk_body.
  steps_with snapshot_afk_prim.
Qed.

End Frame.

Section Thread.
Context {Srv : Type} `{!TS3Connection Srv}.
Variable cfg : config.

#[local] Instance keeps_setup_preorder : PreOrder (@keeps_setup Srv).
Proof.
  split.
  - intros σ. split; [done|]. split; [done|]. exists []. by rewrite app_nil_r.
  - intros σ1 σ2 σ3 (Ha1 & Hi1 & new1 & Hm1) (Ha2 & Hi2 & new2 & Hm2).
    split; [congruence|]. split; [congruence|].
    exists (new1 ++ new2). by rewrite Hm2, Hm1, app_assoc.
Qed.

Lemma keeps_keeps_setup (σ σ' : IdleMover Srv) :
  keeps σ σ' → servergroup_ids_to_ignore σ' = servergroup_ids_to_ignore σ →
  keeps_setup σ σ'.
Proof.
  intros (Ha & _ & Hm) Hi. split; [done|]. split; [done|].
  exists []. by rewrite app_nil_r.
Qed.

Ltac setup_prim :=
  idtac; lazymatch goal with
  | |- steps _ (log _ _) => intros ?; by apply keeps_keeps_setup
  | |- steps _ (call _) =>
      let σ := fresh in intros σ; apply keeps_keeps_setup;
        [apply keeps_call|rewrite call_run; done]
  | |- steps _ (set_idle_list _) => intros ?; by apply keeps_keeps_setup
  | |- steps _ (set_client_channels _) =>
      intros ?; split; [done|]; split; [done|]; exists []; by rewrite app_nil_r
  end.

Lemma update_client_list_keeps_setup : steps (@keeps_setup Srv) update_client_list.
Proof. unfold update_client_list. steps_with setup_prim. Qed.

Lemma move_all_back_keeps_setup : steps (@keeps_setup Srv) (move_all_back cfg).
Proof.
  intros σ. destruct (move_all_back_keeps_snapshot cfg σ) as (? & ? & _).
  destruct (move_all_back_only_removes cfg σ) as (_ & new & ? & _).
  split; [done|]. split; [done|]. by exists new.
Qed.

Lemma move_all_afk_keeps_setup : steps (@keeps_setup Srv) (move_all_afk cfg).
Proof.
  intros σ. destruct (move_all_afk_keeps_snapshot cfg σ) as (? & ? & _).
  destruct (move_all_afk_only_adds cfg σ) as (_ & new & ? & _).
  split; [done|]. split; [done|]. by exists new.
Qed.

Ltac setup_calls :=
  idtac; lazymatch goal with
  | |- steps _ update_client_list => apply update_client_list_keeps_setup
  | |- steps _ (move_all_back _) => apply move_all_back_keeps_setup
  | |- steps _ (move_all_afk _) => apply move_all_afk_keeps_setup
  | |- _ => setup_prim
  end.

Lemma tick_keeps_setup : steps (@keeps_setup Srv) (tick cfg).
Proof. unfold tick. steps_with setup_calls. Qed.

Lemma auto_move_all_keeps_setup timeouts :
  steps (@keeps_setup Srv) (auto_move_all cfg timeouts).
Proof.
  induction timeouts as [|n IH]; cbn [auto_move_all].
  - steps_with setup_prim.
  - apply steps_bind; [apply _|apply tick_keeps_setup|]. intros _. apply IH.
Qed.

(** X17. The body of the thread returns, whatever the server does and
    however many passes the loop makes before the stop event is set: no
    exception leaves [run], whose [except] clause is never entered.  At
    the end no entry is left in [client_channels], and the last record of
    the log is the warning that the mover stopped.  The AFK channel and
    the ignored group ids are those that [__init__] found: no pass looks
    them up again. *)
Theorem run_returns_and_clears timeouts (σ : IdleMover Srv) :
  fst (run cfg timeouts σ) = Ok tt
  ∧ client_channels (snd (run cfg timeouts σ)) = ∅
  ∧ last (logged (snd (run cfg timeouts σ)))
    = Some {| lvl := warning; msg := "AFKMover stopped!" |}
  ∧ keeps_setup σ (snd (run cfg timeouts σ)).
Proof.
  unfold run, try_except. unfold mbind, M_bind, bind. rewrite log_run. cbv beta iota.
  set (σ0 := logging _ σ).
  destruct (auto_move_all_clears cfg timeouts σ0) as [Hret Hclear].
  pose proof (auto_move_all_last_record cfg timeouts σ0) as Hlast.
  pose proof (auto_move_all_keeps_setup timeouts σ0) as Hsetup.
  destruct (auto_move_all cfg timeouts σ0) as [[[]|e] σ1]; [|done]. done.
Qed.

End Thread.

Section Pass.
Context {Srv : Type} `{!TS3Connection Srv}.
Variable cfg : config.

(** X18. One pass of the loop on a server that answers.  When the
    snapshot can be read, the channel list is answered, every returning
    client can be moved back and the move of every idle client is carried
    out or refused, the pass returns; the snapshot is the answer to
    [clientlist] without its ServerQuery clients; every idle client of it
    that is not excluded and whose move is carried out is tracked afterwards,
    with the channel the snapshot gave for it; every tracked returning
    client has been moved to the channel its entry held and is tracked no
    more; and the entries of the clients that are neither are as before. *)
Theorem pass_moves_idle_and_returning (σ : IdleMover Srv) clients s channel_list snapshot :
  dry_run cfg = false →
  enable_auto_move_back cfg = true →
  clientlist ["times"] (ts3conn σ) = (Ok clients, s) →
  Forall (λ client, ∃ t, py_int (get client "client_type") = Ok t) clients →
  snapshot = filter (λ client, py_int (get client "client_type") ≠ Ok 1) clients →
  Forall (readable (afk_channel σ)) snapshot →
  (servergroups_to_exclude cfg = None
   ∨ ∀ client (srv : Srv), answered_or_refused
       (fst (servergroupsbyclientid
               ("cldbid=" +:+ py_format (get client "client_database_id")) srv))) →
  (∀ srv : Srv, fst (channellist srv) = Ok channel_list) →
  (∀ client, client ∈ snapshot → back_candidate cfg (afk_channel σ) client →
     can_move_back cfg (client_channels σ) channel_list client) →
  (∀ client, client ∈ snapshot → idle_candidate cfg (afk_channel σ) client →
     can_move_to_afk (afk_channel σ) client) →
  ∃ σ' new,
    tick cfg σ = (Ok tt, σ')
    ∧ idle_list σ' = Some snapshot
    ∧ moves σ' = moves σ ++ new
    ∧ (∀ client n, client ∈ snapshot →
         idle_candidate cfg (afk_channel σ) client →
         not_excluded cfg (servergroup_ids_to_ignore σ) client →
         py_int (PStr (get_str client "clid" "-1")) = Ok n →
         (∀ srv : Srv, fst (clientmove (PStr (afk_channel σ)) n srv) = Ok tt) →
         ∃ client', client' ∈ snapshot
           ∧ idle_candidate cfg (afk_channel σ) client'
           ∧ get_str client' "clid" "-1" = get_str client "clid" "-1"
           ∧ client_channels σ' !! get_str client "clid" "-1"
             = Some (get_str client' "cid" "0"))
    ∧ (∀ client n origin, client ∈ snapshot →
         back_candidate cfg (afk_channel σ) client →
         client !! "clid" = Some (py_str n) →
         client_channels σ !! py_str n = Some origin →
         (∃ ch, py_int (PStr origin) = Ok ch
                ∧ {| to_cid := PInt ch; moved_clid := n; returned := true |} ∈ new)
         ∧ ((∀ other, other ∈ snapshot → idle_candidate cfg (afk_channel σ) other →
               get_str other "clid" "-1" ≠ py_str n) →
            client_channels σ' !! py_str n = None))
    ∧ (∀ k, (∀ client, client ∈ snapshot → idle_candidate cfg (afk_channel σ) client →
               get_str client "clid" "-1" ≠ k) →
            (∀ client, client ∈ snapshot → back_candidate cfg (afk_channel σ) client →
               client !! "clid" ≠ Some k) →
         client_channels σ' !! k = client_channels σ !! k).
Proof.
  intros Hdry Hback Hquery Htypes -> Hreadable Hgroups Hchannels Hcan_back Hcan_afk.
  set (snapshot := filter _ clients) in *.
  set (σ0 := logging [{| lvl := debug; msg := "Afkmover running!" |}] σ).
  (* the snapshot *)
  destruct (update_client_list_answered σ0 clients s Hquery Htypes)
    as (σ1 & Hup & Hsnap1 & _ & (Hafk1 & Hstore1 & Hmoves1) & Hignore1).
  fold snapshot in Hsnap1. cbn in Hafk1, Hstore1, Hmoves1, Hignore1.
  (* the clients that return *)
  destruct (get_back_list_returns cfg σ1) as (Lb & σ2 & Hbl).
  { by rewrite Hafk1, Hsnap1. }
  pose proof (get_back_list_spec cfg σ1 Lb σ2 Hbl) as Hbspec.
  rewrite Hsnap1, Hafk1 in Hbspec. cbn [default] in Hbspec.
  pose proof (get_back_list_reads cfg σ1) as Hreads2. rewrite Hbl in Hreads2.
  destruct Hreads2 as (Hafk2 & Hstore2 & Hignore2 & Hsnap2 & Hmoves2).
  cbn in Hafk2, Hstore2, Hignore2, Hsnap2, Hmoves2.
  set (τa := logging [{| lvl := debug; msg := "Moving clients back" |};
                      {| lvl := debug; msg := "Backlist is: %s" |};
                      {| lvl := debug; msg := "Saved channel list keys are: %s\n" |}] σ2).
  pose proof (Hchannels (ts3conn τa)) as Hcl.
  set (τ := answered (snd (channellist (ts3conn τa))) τa).
  destruct (move_all_back_loop cfg (client_channels σ) channel_list Lb) with
    (τ := τ) (channel_info := @None dict)
    as (σ3 & ci & Hloop & Hnone & Hkeys & new_b & Hmoves3 & Hnew_b).
  { intros c Hc. apply Hbspec in Hc as [? ?]. by apply Hcan_back. }
  { cbn. by rewrite Hstore2, Hstore1. }
  assert (move_all_back cfg σ1 = (Ok tt, σ3)) as Hmb.
  { unfold move_all_back. unfold mbind at 1. unfold M_bind, bind. rewrite Hbl.
    unfold mbind, M_bind, bind. rewrite !log_run, !logging_app. cbn [app].
    unfold try_except. rewrite call_run. fold τa. rewrite Hcl.
    cbn [fst snd mret M_ret ret]. fold τ. by rewrite Hloop. }
  pose proof (move_all_back_keeps_snapshot cfg σ1) as Hks. rewrite Hmb in Hks.
  destruct Hks as (Hafk3 & Hignore3 & Hsnap3). cbn in Hafk3, Hignore3, Hsnap3.
  (* the clients that are idle *)
  destruct (get_idle_list_returns cfg σ3) as (Li & σ4 & Hil).
  { by rewrite Hafk3, Hafk1, Hsnap3, Hsnap1. }
  { done. }
  destruct (get_idle_list_spec cfg σ3 Li σ4 Hil) as [Hinec Hisuf].
  rewrite Hsnap3, Hsnap1, Hafk3, Hafk1 in Hinec, Hisuf.
  rewrite Hignore3, Hignore1 in Hisuf.
  cbn [default] in Hinec, Hisuf.
  pose proof (get_idle_list_reads cfg σ3) as Hreads4. rewrite Hil in Hreads4.
  destruct Hreads4 as (Hafk4 & Hstore4 & _ & Hsnap4 & Hmoves4).
  cbn in Hafk4, Hstore4, Hsnap4, Hmoves4.
  destruct (move_to_afk_loop cfg (afk_channel σ) Li Hdry) with
    (τ := logging [{| lvl := debug; msg := "Moving clients to afk!" |}] σ4)
    as (σ5 & Hloop5 & Hkeys5 & Hmoved5).
  { intros c Hc. destruct (Hinec c Hc) as [? ?]. by apply Hcan_afk. }
  { cbn. congruence. }
  assert (move_all_afk cfg σ3 = (Ok tt, σ5)) as Hma.
  { unfold move_all_afk, try_except, move_to_afk.
    unfold mbind at 1. unfold M_bind, bind. rewrite Hil.
    unfold mbind at 1. unfold M_bind, bind. rewrite log_run. by rewrite Hloop5. }
  pose proof (move_all_afk_only_adds cfg σ3) as Hadds. rewrite Hma in Hadds.
  destruct Hadds as (_ & new_i & Hmoves5 & _). cbn in Hmoves5.
  pose proof (move_all_afk_keeps_snapshot cfg σ3) as Hks5. rewrite Hma in Hks5.
  destruct Hks5 as (_ & _ & Hsnap5). cbn in Hsnap5.
  exists σ5, (new_b ++ new_i). split; [|split; [|split; [|split; [|split]]]].
  - unfold tick. unfold mbind at 1. unfold M_bind, bind. rewrite log_run. cbv beta iota.
    fold σ0. unfold try_except. unfold mbind, M_bind, bind. rewrite Hup, Hback, Hmb.
    by rewrite Hma.
  - congruence.
  - rewrite Hmoves5, Hmoves3. cbn. rewrite Hmoves2, Hmoves1. cbn.
    by rewrite app_assoc.
  - intros c n Hc Hidle Hnot Hn Hcarry.
    destruct (Hmoved5 c n) as (c' & Hc' & Hkey & Hentry); [by apply Hisuf|done|done|].
    destruct (Hinec c' Hc') as [? ?]. by exists c'.
  - intros c n origin Hc Hcand Hclid Htracked.
    assert (c ∈ Lb) as HcLb by by apply Hbspec. split.
    + destruct (Hnew_b c n origin HcLb Hclid) as (ch & Hch & Hin).
      { cbn. by rewrite Hstore2, Hstore1. }
      exists ch. split; [done|]. apply elem_of_app. by left.
    + intros Hother.
      destruct (Hkeys5 (py_str n)) as [->|(c' & Hc' & Hkey & _)].
      * cbn. rewrite Hstore4. by apply (Hnone c).
      * destruct (Hinec c' Hc') as [? ?]. by destruct (Hother c').
  - intros k Hno_idle Hno_back.
    destruct (Hkeys5 k) as [->|(c' & Hc' & Hkey & _)].
    + cbn. rewrite Hstore4.
      destruct (Hkeys k) as [->|[_ (c' & Hc' & Hclid)]].
      * cbn. by rewrite Hstore2, Hstore1.
      * apply Hbspec in Hc' as [? ?]. by destruct (Hno_back c').
    + destruct (Hinec c' Hc') as [? ?]. by destruct (Hno_idle c').
Qed.

End Pass.

(** ** The properties on the servers of the scenario *)

Lemma update_client_list_snapshot_witness :
  ∃ σ', update_client_list
          (Scenario.mover Incidents.server_with_query_client "10" None) = (Ok tt, σ')
        ∧ idle_list σ'
          = Some (filter (λ client, py_int (get client "client_type") ≠ Ok 1)
                    [Scenario.alice; Incidents.serveradmin; Scenario.bob])
        ∧ (∀ client, client ∈ default [] (idle_list σ') →
             client ∈ [Scenario.alice; Incidents.serveradmin; Scenario.bob]
             ∧ py_int (get client "client_type") ≠ Ok 1)
        ∧ ts3conn σ' = Incidents.server_with_query_client
        ∧ untouched (Scenario.mover Incidents.server_with_query_client "10" None) σ'.
Proof.
  apply (update_client_list_snapshot
           (Scenario.mover Incidents.server_with_query_client "10" None)
           [Scenario.alice; Incidents.serveradmin; Scenario.bob]
           Incidents.server_with_query_client); [reflexivity|].
  constructor; [exists 0; by_computation|].
  constructor; [exists 1; by_computation|].
  constructor; [exists 0; by_computation|]. constructor.
Defined.

(** The snapshot taken on that server. *)
Example snapshot_without_query_client :
  idle_list (snd (update_client_list
                    (Scenario.mover Incidents.server_with_query_client "10" None)))
  = Some [Scenario.alice; Scenario.bob].
Proof. by_computation. Qed.

Lemma clientlist_failure_moves_nobody_witness :
  (∃ σ', update_client_list
           (Scenario.mover Incidents.server_without_clientlist "10"
              (Some Scenario.snapshot)) = (Ok tt, σ')
         ∧ idle_list σ' = Some []
         ∧ logged σ'
           = logged (Scenario.mover Incidents.server_without_clientlist "10"
                       (Some Scenario.snapshot))
             ++ [{| lvl := exception; msg := "Error getting away list!" |}])
  ∧ fst (tick Scenario.defaults
           (Scenario.mover Incidents.server_without_clientlist "10"
              (Some Scenario.snapshot))) = Ok tt
  ∧ untouched (Scenario.mover Incidents.server_without_clientlist "10"
                 (Some Scenario.snapshot))
      (snd (tick Scenario.defaults
              (Scenario.mover Incidents.server_without_clientlist "10"
                 (Some Scenario.snapshot)))).
Proof.
  apply (clientlist_failure_moves_nobody Scenario.defaults
           (Scenario.mover Incidents.server_without_clientlist "10"
              (Some Scenario.snapshot))
           (TS3QueryException 2568 "insufficient client permissions")
           Incidents.server_without_clientlist); reflexivity.
Defined.

Lemma update_servergroup_ids_list_selects_witness :
  ∃ σ', update_servergroup_ids_list Scenario.with_exclusion
          (Scenario.mover Scenario.server_with_groups "10" None) = (Ok tt, σ')
        ∧ servergroup_ids_to_ignore σ'
          = (λ g : dict, get g "sgid")
            <$> filter (λ g : dict, get g "name" ∈ PStr <$> split_comma "Admin,Guest")
                  [Scenario.group "6" "Admin"; Scenario.group "7" "Normal";
                   Scenario.group "8" "Guest"]
        ∧ ts3conn σ' = Scenario.server_with_groups
        ∧ logged σ' = logged (Scenario.mover Scenario.server_with_groups "10" None)
        ∧ untouched (Scenario.mover Scenario.server_with_groups "10" None) σ'.
Proof.
  apply (proj2 (update_servergroup_ids_list_selects Scenario.with_exclusion
                  (Scenario.mover Scenario.server_with_groups "10" None))
           "Admin,Guest"
           [Scenario.group "6" "Admin"; Scenario.group "7" "Normal";
            Scenario.group "8" "Guest"]
           Scenario.server_with_groups); reflexivity.
Defined.

(** Alice, an Admin, is not in the idle list of a mover that ignores the
    groups 6 and 8. *)
Lemma get_idle_list_candidates_witness :
  Scenario.alice ∉ [Scenario.erin].
Proof.
  refine (proj2 (proj2 (get_idle_list_candidates Scenario.with_exclusion
            (Incidents.steady_mover Scenario.server_with_groups [PStr "6"; PStr "8"] [])
            (snd (get_idle_list Scenario.with_exclusion
                    (Incidents.steady_mover Scenario.server_with_groups
                       [PStr "6"; PStr "8"] [])))
            [Scenario.erin] _)) Scenario.alice _ _).
  - run_by_computation.
  - discriminate.
  - intros []. exists [Scenario.group "6" "Admin"]. split; [reflexivity|].
    exists (Scenario.group "6" "Admin"). split; [apply list_elem_of_here|].
    by_computation.
Defined.

Lemma candidate_lists_return_witness :
  (∃ L σ', get_idle_list Scenario.defaults Scenario.watching = (Ok L, σ')
           ∧ ∀ client, client ∈ L → client ∈ default [] (idle_list Scenario.watching))
  ∧ (∃ L σ', get_back_list Scenario.defaults Scenario.watching = (Ok L, σ')
             ∧ ∀ client, client ∈ L → client ∈ default [] (idle_list Scenario.watching)).
Proof.
  apply (candidate_lists_return Scenario.defaults Scenario.watching); [|by left].
  constructor; [apply (readable_numerals _ _ 10 2 700000); [by_computation..|done]|].
  constructor; [apply (readable_numerals _ _ 2 2 1000); [by_computation..|done]|].
  constructor; [apply (readable_numerals _ _ 2 2 2000); [by_computation..|done]|].
  constructor; [apply (readable_numerals _ _ 10 2 600000); [by_computation..|done]|].
  constructor; [apply (readable_numerals _ _ 10 2 600001); [by_computation..|done]|].
  constructor.
Defined.

Lemma fallback_action_outcomes_witness :
  ∃ σ', fallback_action Scenario.with_fallback 6
          (Scenario.mover Scenario.server "10" None) = (Ok tt, σ')
        ∧ client_channels σ'
          = delete (py_str 6) (client_channels (Scenario.mover Scenario.server "10" None))
        ∧ moves σ'
          = moves (Scenario.mover Scenario.server "10" None)
            ++ [{| to_cid := PStr "3"; moved_clid := 6; returned := true |}].
Proof.
  destruct (fallback_action_outcomes Scenario.with_fallback 6
              (Scenario.mover Scenario.server "10" None)) as (_ & _ & Hmoved & _).
  apply (Hmoved "Lobby" "3" (answered Scenario.server (Scenario.mover Scenario.server "10" None))
           Scenario.server); [reflexivity|discriminate|reflexivity|reflexivity].
Defined.

Lemma move_to_afk_tracks_moved_witness :
  ∃ σ', move_to_afk Scenario.defaults
          (Incidents.steady_mover Incidents.server_keeps_alice [] []) = (Ok tt, σ')
        ∧ move_all_afk Scenario.defaults
            (Incidents.steady_mover Incidents.server_keeps_alice [] []) = (Ok tt, σ')
        ∧ (∀ client n, client ∈ [Scenario.alice; Scenario.erin] →
             py_int (PStr (get_str client "clid" "-1")) = Ok n →
             (∀ srv : Incidents.steady Incidents.server_keeps_alice,
                fst (clientmove
                       (PStr (afk_channel
                                (Incidents.steady_mover Incidents.server_keeps_alice [] [])))
                       n srv) = Ok tt) →
             ∃ client', client' ∈ [Scenario.alice; Scenario.erin]
               ∧ get_str client' "clid" "-1" = get_str client "clid" "-1"
               ∧ client_channels σ' !! get_str client "clid" "-1"
                 = Some (get_str client' "cid" "0"))
        ∧ (∀ k, (∀ client, client ∈ [Scenario.alice; Scenario.erin] →
                   get_str client "clid" "-1" ≠ k) →
             client_channels σ' !! k
             = client_channels
                 (Incidents.steady_mover Incidents.server_keeps_alice [] []) !! k).
Proof.
  apply (move_to_afk_tracks_moved Scenario.defaults
           (Incidents.steady_mover Incidents.server_keeps_alice [] [])
           (snd (get_idle_list Scenario.defaults
                   (Incidents.steady_mover Incidents.server_keeps_alice [] [])))
           [Scenario.alice; Scenario.erin]).
  - reflexivity.
  - run_by_computation.
  - intros client Hin.
    apply elem_of_cons in Hin as [->|Hin];
      [exists 5; split; [by_computation|intros []; reflexivity]|].
    apply elem_of_cons in Hin as [->|Hin];
      [exists 9; split; [by_computation|intros []; exact I]|].
    by apply elem_of_nil in Hin.
Defined.

(** On that server Erin is tracked after the pass and Alice, whose move
    was refused, is not. *)
Example refused_move_is_passed_over :
  client_channels
    (snd (move_all_afk Scenario.defaults
            (Incidents.steady_mover Incidents.server_keeps_alice [] [])))
  = {[ "9" := "10" ]}.
Proof. by_computation. Qed.

Lemma moved_client_returns_to_origin_witness :
  fst (move_to_afk_body Scenario.defaults Scenario.alice Scenario.watching) = Ok tt
  ∧ client_channels
      (snd (move_to_afk_body Scenario.defaults Scenario.alice Scenario.watching))
      !! py_str 5 = Some "10"
  ∧ ∀ (τ : IdleMover Scenario.scripted) (client' : dict) channel_list channel_info
      info details s1 s2,
      client_channels τ !! py_str 5 = Some "10" →
      client' !! "clid" = Some (py_str 5) →
      channelinfo ("cid=" +:+ py_str 10) (ts3conn τ) = (Ok info, s1) →
      find_channel channel_list 10 = Ok details →
      permits Scenario.defaults info details →
      clientmove (PInt 10) 5 s1 = (Ok tt, s2) →
      ∃ τ', move_all_back_body Scenario.defaults channel_list channel_info client' τ
            = (Ok (Some info), τ')
            ∧ client_channels τ' !! py_str 5 = None
            ∧ client_channels τ' = delete (py_str 5) (client_channels τ)
            ∧ moves τ' = moves τ ++ [{| to_cid := PInt 10; moved_clid := 5;
                                         returned := true |}].
Proof.
  apply (moved_client_returns_to_origin Scenario.defaults Scenario.watching
           Scenario.alice 5 "10" 10 Scenario.server).
  - reflexivity.
  - by_computation.
  - by_computation.
  - by_computation.
  - reflexivity.
Defined.

Lemma move_all_back_restores_witness :
  ∃ σ', move_all_back Scenario.defaults
          (Incidents.steady_mover Scenario.server []
             [Scenario.entry "6" "11"; Scenario.entry "7" "10"]) = (Ok tt, σ')
    ∧ (∀ client n, client ∈ [Scenario.bob; Scenario.carol] →
         client !! "clid" = Some (py_str n) →
         client_channels σ' !! py_str n = None)
    ∧ (∀ k, (∀ client, client ∈ [Scenario.bob; Scenario.carol] →
               client !! "clid" ≠ Some k) →
         client_channels σ' !! k
         = client_channels
             (Incidents.steady_mover Scenario.server []
                [Scenario.entry "6" "11"; Scenario.entry "7" "10"]) !! k)
    ∧ ∃ new, moves σ'
             = moves (Incidents.steady_mover Scenario.server []
                        [Scenario.entry "6" "11"; Scenario.entry "7" "10"]) ++ new
        ∧ ∀ client n origin, client ∈ [Scenario.bob; Scenario.carol] →
            client !! "clid" = Some (py_str n) →
            client_channels
              (Incidents.steady_mover Scenario.server []
                 [Scenario.entry "6" "11"; Scenario.entry "7" "10"]) !! py_str n
            = Some origin →
            ∃ ch, py_int (PStr origin) = Ok ch
                  ∧ {| to_cid := PInt ch; moved_clid := n; returned := true |} ∈ new.
Proof.
  apply (move_all_back_restores Scenario.defaults
           (Incidents.steady_mover Scenario.server []
              [Scenario.entry "6" "11"; Scenario.entry "7" "10"])
           (snd (get_back_list Scenario.defaults
                   (Incidents.steady_mover Scenario.server []
                      [Scenario.entry "6" "11"; Scenario.entry "7" "10"])))
           [Scenario.bob; Scenario.carol]
           [Scenario.channel "2" "2"; Scenario.channel "3" "0";
            Scenario.channel "10" "1"; Scenario.channel "11" "4"]
           Incidents.Steady).
  - run_by_computation.
  - reflexivity.
  - intros client Hin.
    apply elem_of_cons in Hin as [->|Hin].
    { exists 6. split; [by_computation|]. intros origin Horigin.
      assert (origin = "11") as -> by (vm_compute in Horigin; congruence).
      exists 11, (Some (Scenario.channel "11" "4")).
      split; [by_computation|]. split; [by_computation|]. split.
      - intros []. exists (Scenario.settings "-1" "0"), Incidents.Steady.
        split; [reflexivity|]. right. right.
        exists (Scenario.channel "11" "4"), (-1).
        split; [reflexivity|]. split; [by_computation|]. split; [by left|by_computation].
      - intros []. reflexivity. }
    apply elem_of_cons in Hin as [->|Hin].
    { exists 7. split; [by_computation|]. intros origin Horigin.
      assert (origin = "10") as -> by (vm_compute in Horigin; congruence).
      exists 10, (Some (Scenario.channel "10" "1")).
      split; [by_computation|]. split; [by_computation|]. split.
      - intros []. exists (Scenario.settings "-1" "0"), Incidents.Steady.
        split; [reflexivity|]. right. right.
        exists (Scenario.channel "10" "1"), (-1).
        split; [reflexivity|]. split; [by_computation|]. split; [by left|by_computation].
      - intros []. reflexivity. }
    by apply elem_of_nil in Hin.
Defined.

(** The moves of that pass. *)
Example both_clients_return :
  moves (snd (move_all_back Scenario.defaults
                (Incidents.steady_mover Scenario.server []
                   [Scenario.entry "6" "11"; Scenario.entry "7" "10"])))
  = [{| to_cid := PInt 11; moved_clid := 6; returned := true |};
     {| to_cid := PInt 10; moved_clid := 7; returned := true |}].
Proof. by_computation. Qed.

(** [__init__] on [Scenario.server] leaves the object [Incidents.started],
    and one record in the log. *)
Example init_leaves_started :
  init Scenario.with_dry_run (blank Scenario.server [] [])
  = (Ok tt,
     logging [{| lvl := debug;
                 msg := "No servergroups to exclude defined. Nothing todo." |}]
       Incidents.started).
Proof. vm_compute. reflexivity. Qed.

(** On that object a pass of the dry run reaches [move_to_afk] with the
    idle clients 5 and 9 and logs for each what it would do; the same pass
    without [dry_run] moves the two. *)
Lemma dry_run_issues_no_move_witness :
  (untouched Incidents.started (snd (tick Scenario.with_dry_run Incidents.started))
   ∧ ∀ timeouts,
       moves (snd (run Scenario.with_dry_run timeouts Incidents.started))
       = moves Incidents.started)
  ∧ fst (get_idle_list Scenario.with_dry_run
           (snd (update_client_list Incidents.started)))
    = Ok [Scenario.alice; Scenario.erin]
  ∧ filter (λ r, lvl r = info)
      (logged (snd (tick Scenario.with_dry_run Incidents.started)))
    = [{| lvl := info; msg := "I would have moved this client: " |};
       {| lvl := info; msg := "I would have moved this client: " |}]
  ∧ moves (snd (tick Scenario.defaults Incidents.started))
    = [{| to_cid := PStr "2"; moved_clid := 5; returned := true |};
       {| to_cid := PStr "2"; moved_clid := 9; returned := true |}].
Proof.
  split.
  - apply (dry_run_issues_no_move Scenario.with_dry_run Incidents.started); reflexivity.
  - split; [|split]; by_computation.
Defined.

Lemma without_move_back_only_to_afk_witness :
  only_to_afk Scenario.watching (snd (tick Incidents.without_move_back Scenario.watching)).
Proof.
  apply (without_move_back_only_to_afk Incidents.without_move_back). reflexivity.
Defined.

Lemma threshold_test_is_exact_witness :
  (idle_longer Scenario.defaults Scenario.erin ↔ 600000 < 600001)
  ∧ ((∃ seconds, truediv_1000 600001 = Ok seconds
                 ∧ (seconds <= idle_time_seconds Scenario.defaults)%Q)
     ↔ 600001 <= 600000)
  ∧ ∃ seconds, truediv_1000 600001 = Ok seconds
               ∧ Qle_bool seconds (idle_time_seconds Scenario.defaults)
                 = (600001 <=? 600000).
Proof.
  apply (threshold_test_is_exact Scenario.defaults Scenario.erin 600000 600001).
  - exact is_double_600.
  - reflexivity.
  - by_computation.
  - split; [discriminate|reflexivity].
Defined.

Lemma channellist_failure_moves_nobody_witness :
  ∃ σ', move_all_back Scenario.defaults
          (Scenario.mover Incidents.server_without_channellist "10"
             (Some Scenario.snapshot)) = (Ok tt, σ')
        ∧ untouched (Scenario.mover Incidents.server_without_channellist "10"
                       (Some Scenario.snapshot)) σ'
        ∧ last (logged σ')
          = Some {| lvl := error; msg := "Failed to get the current channellist: " |}.
Proof.
  apply (channellist_failure_moves_nobody Scenario.defaults
           (Scenario.mover Incidents.server_without_channellist "10"
              (Some Scenario.snapshot))
           (snd (get_back_list Scenario.defaults
                   (Scenario.mover Incidents.server_without_channellist "10"
                      (Some Scenario.snapshot))))
           [Scenario.bob; Scenario.carol] 2568 "insufficient client permissions"
           Incidents.server_without_channellist).
  - run_by_computation.
  - vm_compute. reflexivity.
Defined.

Lemma init_outcomes_witness :
  ∃ σ', init Scenario.defaults (blank Scenario.server [] []) = (Ok tt, σ')
        ∧ afk_channel σ' = get_str (Scenario.channel "2" "0") "cid" "-1"
        ∧ client_channels σ' = ∅ ∧ servergroup_ids_to_ignore σ' = []
        ∧ idle_list σ' = None ∧ moves σ' = []
        ∧ fst (get_idle_list Scenario.defaults σ') = Ok []
        ∧ fst (get_back_list Scenario.defaults σ') = Ok [].
Proof.
  apply (proj1 (init_outcomes Scenario.defaults Scenario.server [] [])
           (Scenario.channel "2" "0") [] Scenario.server); reflexivity.
Defined.

Lemma pass_moves_idle_and_returning_witness :
  ∃ σ' new,
    tick Scenario.defaults
      (Incidents.steady_mover Scenario.server []
         [Scenario.entry "6" "11"; Scenario.entry "7" "10"]) = (Ok tt, σ')
    ∧ idle_list σ' = Some Scenario.snapshot
    ∧ moves σ' = [] ++ new
    ∧ (∀ client n, client ∈ Scenario.snapshot →
         idle_candidate Scenario.defaults "2" client →
         not_excluded (Srv := Incidents.steady Scenario.server) Scenario.defaults []
           client →
         py_int (PStr (get_str client "clid" "-1")) = Ok n →
         (∀ srv : Incidents.steady Scenario.server,
            fst (clientmove (PStr "2") n srv) = Ok tt) →
         ∃ client', client' ∈ Scenario.snapshot
           ∧ idle_candidate Scenario.defaults "2" client'
           ∧ get_str client' "clid" "-1" = get_str client "clid" "-1"
           ∧ client_channels σ' !! get_str client "clid" "-1"
             = Some (get_str client' "cid" "0"))
    ∧ (∀ client n origin, client ∈ Scenario.snapshot →
         back_candidate Scenario.defaults "2" client →
         client !! "clid" = Some (py_str n) →
         (list_to_map [Scenario.entry "6" "11"; Scenario.entry "7" "10"]
            : gmap string string) !! py_str n = Some origin →
         (∃ ch, py_int (PStr origin) = Ok ch
                ∧ {| to_cid := PInt ch; moved_clid := n; returned := true |} ∈ new)
         ∧ ((∀ other, other ∈ Scenario.snapshot →
               idle_candidate Scenario.defaults "2" other →
               get_str other "clid" "-1" ≠ py_str n) →
            client_channels σ' !! py_str n = None))
    ∧ (∀ k, (∀ client, client ∈ Scenario.snapshot →
               idle_candidate Scenario.defaults "2" client →
               get_str client "clid" "-1" ≠ k) →
            (∀ client, client ∈ Scenario.snapshot →
               back_candidate Scenario.defaults "2" client →
               client !! "clid" ≠ Some k) →
         client_channels σ' !! k
         = (list_to_map [Scenario.entry "6" "11"; Scenario.entry "7" "10"]
              : gmap string string) !! k).
Proof.
  apply (pass_moves_idle_and_returning Scenario.defaults
           (Incidents.steady_mover Scenario.server []
              [Scenario.entry "6" "11"; Scenario.entry "7" "10"])
           Scenario.snapshot Incidents.Steady
           [Scenario.channel "2" "2"; Scenario.channel "3" "0";
            Scenario.channel "10" "1"; Scenario.channel "11" "4"]
           Scenario.snapshot).
  - reflexivity.
  - reflexivity.
  - reflexivity.
  - repeat (constructor; [exists 0; by_computation|]). constructor.
  - by_computation.
  - constructor; [apply (readable_numerals _ _ 10 2 700000); [by_computation..|done]|].
    constructor; [apply (readable_numerals _ _ 2 2 1000); [by_computation..|done]|].
    constructor; [apply (readable_numerals _ _ 2 2 2000); [by_computation..|done]|].
    constructor; [apply (readable_numerals _ _ 10 2 600000); [by_computation..|done]|].
    constructor; [apply (readable_numerals _ _ 10 2 600001); [by_computation..|done]|].
    constructor.
  - by left.
  - intros []. reflexivity.
  - intros client Hin _.
    assert (∀ n origin ch total,
              (list_to_map [Scenario.entry "6" "11"; Scenario.entry "7" "10"]
                 : gmap string string) !! py_str n = Some origin →
              py_int (PStr origin) = Ok ch →
              find_channel [Scenario.channel "2" "2"; Scenario.channel "3" "0";
                            Scenario.channel "10" "1"; Scenario.channel "11" "4"] ch
              = Ok (Some (Scenario.channel (py_str ch) total)) →
              ∃ ch details,
                py_int (PStr origin) = Ok ch
                ∧ find_channel [Scenario.channel "2" "2"; Scenario.channel "3" "0";
                                Scenario.channel "10" "1"; Scenario.channel "11" "4"] ch
                  = Ok details
                ∧ (∀ srv : Incidents.steady Scenario.server, ∃ info srv',
                     channelinfo ("cid=" +:+ py_str ch) srv = (Ok info, srv')
                     ∧ permits Scenario.defaults info details)
                ∧ (∀ srv : Incidents.steady Scenario.server,
                     fst (clientmove (PInt ch) n srv) = Ok tt)) as Hopen.
    { intros n origin ch total _ Hch Hfind. exists ch, (Some (Scenario.channel (py_str ch) total)).
      split; [done|]. split; [done|]. split.
      - intros []. exists (Scenario.settings "-1" "0"), Incidents.Steady.
        split; [reflexivity|]. right. right.
        exists (Scenario.channel (py_str ch) total), (-1).
        split; [reflexivity|]. split; [by_computation|]. split; [by left|by_computation].
      - intros []. reflexivity. }
    apply elem_of_cons in Hin as [->|Hin].
    { exists 5. split; [by_computation|]. intros origin Ho. vm_compute in Ho. discriminate. }
    apply elem_of_cons in Hin as [->|Hin].
    { exists 6. split; [by_computation|]. intros origin Ho.
      apply (Hopen 6 origin 11 "4" Ho).
      - vm_compute in Ho. injection Ho as <-. by_computation.
      - by_computation. }
    apply elem_of_cons in Hin as [->|Hin].
    { exists 7. split; [by_computation|]. intros origin Ho.
      apply (Hopen 7 origin 10 "1" Ho).
      - vm_compute in Ho. injection Ho as <-. by_computation.
      - by_computation. }
    apply elem_of_cons in Hin as [->|Hin].
    { exists 8. split; [by_computation|]. intros origin Ho. vm_compute in Ho. discriminate. }
    apply elem_of_cons in Hin as [->|Hin].
    { exists 9. split; [by_computation|]. intros origin Ho. vm_compute in Ho. discriminate. }
    by apply elem_of_nil in Hin.
  - intros client Hin _.
    apply elem_of_cons in Hin as [->|Hin];
      [exists 5; split; [by_computation|intros []; exact I]|].
    apply elem_of_cons in Hin as [->|Hin];
      [exists 6; split; [by_computation|intros []; exact I]|].
    apply elem_of_cons in Hin as [->|Hin];
      [exists 7; split; [by_computation|intros []; exact I]|].
    apply elem_of_cons in Hin as [->|Hin];
      [exists 8; split; [by_computation|intros []; exact I]|].
    apply elem_of_cons in Hin as [->|Hin];
      [exists 9; split; [by_computation|intros []; exact I]|].
    by apply elem_of_nil in Hin.
Defined.

(** The pass on that server: Bob and Carol return to the channels 11 and
    10, Alice and Erin are moved to the AFK channel and tracked. *)
Example pass_on_the_scenario :
  moves (snd (tick Scenario.defaults
                (Incidents.steady_mover Scenario.server []
                   [Scenario.entry "6" "11"; Scenario.entry "7" "10"])))
  = [{| to_cid := PInt 11; moved_clid := 6; returned := true |};
     {| to_cid := PInt 10; moved_clid := 7; returned := true |};
     {| to_cid := PStr "2"; moved_clid := 5; returned := true |};
     {| to_cid := PStr "2"; moved_clid := 9; returned := true |}]
  ∧ client_channels
      (snd (tick Scenario.defaults
              (Incidents.steady_mover Scenario.server []
                 [Scenario.entry "6" "11"; Scenario.entry "7" "10"])))
    = list_to_map [Scenario.entry "5" "10"; Scenario.entry "9" "10"].
Proof. split; by_computation. Qed.
